(** * UTRA HACKS robot: navigation decision engine and section-1 mission

    A shallow embedding of the robot firmware:
    - [constants.h]                      : module [Constants]
    - [sensors.h] / [sensors.cpp]        : the data types and module [Sensors]
    - [motors.h]                         : module [Motors] (the drive commands
                                           are recorded in a log)
    - [servos.cpp]                       : module [Servos]
    - [navigation.cpp]                   : module [Navigation]
    - [section1.ino]                     : module [Section1]
    - [obstacle_section.ino] (standalone): module [ObstacleSection]

    Integers are [Z] with the wrap-around of their C type written out where
    the code can reach it; the target board (UNO R4) has a 32-bit [int], so
    the [uint16_t] operands of the classifier are promoted to [int] before
    subtraction.  The [float] distance is a rational ([Q]): the thresholds
    are small integers, and the conversion from the echo duration is taken
    in exact arithmetic. *)

From Stdlib Require Import ZArith QArith Bool List Lia Lqa.
Import ListNotations.

Local Open Scope Z_scope.

(** ** constants.h *)

Module Constants.

Definition SPEED_STOP   : Z := 0.
Definition SPEED_SLOW   : Z := 100.
Definition SPEED_NORMAL : Z := 150.
Definition SPEED_FAST   : Z := 200.
Definition SPEED_MAX    : Z := 255.
Definition SPEED_TURN   : Z := 120.

Definition DIST_OBSTACLE    : Z := 15.
Definition DIST_WALL_HUG    : Z := 10.
Definition DIST_BOX_PICKUP  : Z := 5.
Definition DIST_BALL_DETECT : Z := 20.
Definition DIST_MAX_VALID   : Z := 400.

Definition COLOR_FREQ_MAX   : Z := 150.
Definition COLOR_FREQ_BLACK : Z := 200.
Definition COLOR_FREQ_WHITE : Z := 50.
Definition COLOR_MARGIN     : Z := 20.

Definition SERVO_CLAMP_OPEN   : Z := 90.
Definition SERVO_CLAMP_CLOSED : Z := 0.
Definition SERVO_ARM_UP       : Z := 90.
Definition SERVO_ARM_DOWN     : Z := 0.
Definition SERVO_ARM_CARRY    : Z := 45.

Definition TIME_TURN_90     : Z := 500.
Definition TIME_SERVO_MOVE  : Z := 300.
Definition TIME_SENSOR_READ : Z := 10.
Definition TIME_LOOP_DELAY  : Z := 50.

Definition ULTRA_TIMEOUT_US : Z := 25000.
(** [#define ULTRA_SPEED_CM 0.034] *)
Definition ULTRA_SPEED_CM   : Q := 34 # 1000.

Definition TIMEOUT_RAMP   : Z := 5000.
Definition TIMEOUT_SEARCH : Z := 3000.
Definition TIMEOUT_RETURN : Z := 5000.

End Constants.
Import Constants.

(** ** Machine integers *)

Definition wrap_uint8  (x : Z) : Z := x mod 256.
Definition wrap_uint16 (x : Z) : Z := x mod 65536.
Definition wrap_uint32 (x : Z) : Z := x mod 4294967296.
Definition wrap_int8   (x : Z) : Z := (x + 128) mod 256 - 128.

(** Strict comparison of two rationals, as a boolean. *)
Definition Qltb (x y : Q) : bool := negb (Qle_bool y x).

(** ** sensors.h: enumerations and the snapshot *)

Inductive Color : Set :=
| COLOR_NONE | COLOR_BLACK | COLOR_WHITE | COLOR_RED | COLOR_GREEN | COLOR_BLUE.

Definition Color_eq_dec (a b : Color) : {a = b} + {a <> b}.
Proof. decide equality. Defined.

Definition Color_eqb (a b : Color) : bool :=
  if Color_eq_dec a b then true else false.

Record SensorData : Type := mkSensorData {
  redFreq          : Z;
  greenFreq        : Z;
  blueFreq         : Z;
  detectedColor    : Color;
  previousColor    : Color;
  distance         : Q;
  obstacleDetected : bool;
  leftOnLine       : bool;
  rightOnLine      : bool
}.

(** ** navigation.h: outcome of a primitive *)

Inductive NavResult : Set :=
| NAV_CONTINUE | NAV_TARGET_FOUND | NAV_OBSTACLE | NAV_LOST | NAV_TIMEOUT.

Definition NavResult_eq_dec (a b : NavResult) : {a = b} + {a <> b}.
Proof. decide equality. Defined.

(** ** The platform *)

(** A call of the drive interface of [motors.h], with its speed argument. *)
Inductive DriveCmd : Set :=
| Stop
| Forward    (speed : Z)
| Backward   (speed : Z)
| TurnLeft   (speed : Z)
| TurnRight  (speed : Z)
| CurveLeft  (speed : Z)
| CurveRight (speed : Z).

(** A [Servo::write] on one of the two servos. *)
Inductive ServoWrite : Set :=
| BaseWrite  (angle : Z)
| ClampWrite (angle : Z).

Inductive PinLevel : Set := LOW | HIGH.

Definition PinLevel_eqb (a b : PinLevel) : bool :=
  match a, b with
  | LOW, LOW | HIGH, HIGH => true
  | _, _ => false
  end.

Definition IR_ON_LINE : PinLevel := LOW.

(** What the hardware answers: the n-th [pulseIn] on the echo pin, the n-th
    [pulseIn] on the colour output under the red, the green and the blue
    filter, the n-th [digitalRead] of the left and of the right IR pin. *)
Record Env : Type := mkEnv {
  echoPulse  : nat -> Z;
  redPulse   : nat -> Z;
  greenPulse : nat -> Z;
  bluePulse  : nat -> Z;
  irLeft     : nat -> PinLevel;
  irRight    : nat -> PinLevel
}.

(** Static members of [Navigation]. *)
Record NavState : Type := mkNavState {
  searchDirection : Z;   (* int8_t *)
  searchCount     : Z;   (* uint8_t *)
  lastStateChange : Z    (* uint32_t *)
}.

(** Static members of [Servos]. *)
Record ServoState : Type := mkServoState {
  holding           : bool;
  currentClampAngle : Z;
  currentArmAngle   : Z
}.

(** The state every operation threads: the millisecond clock, how many
    readings each sensor has delivered, the actuator calls made so far
    (oldest first) and the static members of the two stateful classes. *)
Record World : Type := mkWorld {
  clock      : Z;
  echoReads  : nat;
  colorReads : nat;
  irReads    : nat;
  driveLog   : list DriveCmd;
  servoLog   : list ServoWrite;
  nav        : NavState;
  servos     : ServoState
}.

Definition set_clock (t : Z) (w : World) : World :=
  mkWorld t (echoReads w) (colorReads w) (irReads w)
          (driveLog w) (servoLog w) (nav w) (servos w).
Definition set_echoReads (n : nat) (w : World) : World :=
  mkWorld (clock w) n (colorReads w) (irReads w)
          (driveLog w) (servoLog w) (nav w) (servos w).
Definition set_colorReads (n : nat) (w : World) : World :=
  mkWorld (clock w) (echoReads w) n (irReads w)
          (driveLog w) (servoLog w) (nav w) (servos w).
Definition set_irReads (n : nat) (w : World) : World :=
  mkWorld (clock w) (echoReads w) (colorReads w) n
          (driveLog w) (servoLog w) (nav w) (servos w).
Definition set_driveLog (l : list DriveCmd) (w : World) : World :=
  mkWorld (clock w) (echoReads w) (colorReads w) (irReads w)
          l (servoLog w) (nav w) (servos w).
Definition set_servoLog (l : list ServoWrite) (w : World) : World :=
  mkWorld (clock w) (echoReads w) (colorReads w) (irReads w)
          (driveLog w) l (nav w) (servos w).
Definition set_nav (n : NavState) (w : World) : World :=
  mkWorld (clock w) (echoReads w) (colorReads w) (irReads w)
          (driveLog w) (servoLog w) n (servos w).
Definition set_servos (s : ServoState) (w : World) : World :=
  mkWorld (clock w) (echoReads w) (colorReads w) (irReads w)
          (driveLog w) (servoLog w) (nav w) s.

(** *** The state monad of the firmware *)

Definition M (A : Type) : Type := World -> A * World.

Definition ret {A : Type} (a : A) : M A := fun w => (a, w).

Definition bind {A B : Type} (c : M A) (k : A -> M B) : M B :=
  fun w => let (a, w') := c w in k a w'.

Declare Scope fw_scope.
Delimit Scope fw_scope with fw.
Notation "x <- c ;; k" := (bind c (fun x => k))
  (at level 61, c at next level, right associativity) : fw_scope.
Notation "c ;; k" := (bind c (fun _ => k))
  (at level 61, right associativity) : fw_scope.
Local Open Scope fw_scope.

Definition gets {A : Type} (f : World -> A) : M A := fun w => (f w, w).
Definition modify (f : World -> World) : M unit := fun w => (tt, f w).

Definition exec {A : Type} (c : M A) (w : World) : World := snd (c w).
Definition eval {A : Type} (c : M A) (w : World) : A := fst (c w).

(** [millis()] and [delay(ms)]: the clock is a [uint32_t] that [delay]
    advances; the time [pulseIn] and the instructions themselves take is
    not counted. *)
Definition millis : M Z := gets clock.
Definition delay (ms : Z) : M unit :=
  modify (fun w => set_clock (wrap_uint32 (clock w + ms)) w).

(** ** motors.h *)

(** Modelled from the spec: the bodies of the drive interface (motors.cpp)
    are not among the sources, only its declarations are; as for the
    specification's Actuator Interface, a call is an event, appended to the
    drive log with its speed. *)
Module Motors.

Definition issue (c : DriveCmd) : M unit :=
  modify (fun w => set_driveLog (driveLog w ++ [c]) w).

Definition stop : M unit := issue Stop.
Definition forward (speed : Z) : M unit := issue (Forward speed).
Definition backward (speed : Z) : M unit := issue (Backward speed).
Definition turnLeft (speed : Z) : M unit := issue (TurnLeft speed).
Definition turnRight (speed : Z) : M unit := issue (TurnRight speed).
Definition curveLeft (speed : Z) : M unit := issue (CurveLeft speed).
Definition curveRight (speed : Z) : M unit := issue (CurveRight speed).

End Motors.

(** ** sensors.cpp *)

Module Sensors.

(** The arithmetic of [readDistance] on the measured echo duration. *)
Definition distanceOf (duration : Z) : Q :=
  if duration =? 0 then 999 # 1
  else (inject_Z duration * ULTRA_SPEED_CM) / (2 # 1).

(** [data.obstacleDetected = (data.distance > 0 && data.distance < DIST_OBSTACLE)] *)
Definition obstacleOf (d : Q) : bool :=
  Qltb 0 d && Qltb d (inject_Z DIST_OBSTACLE).

Definition detectColor (r g b : Z) : Color :=
  if (r >? COLOR_FREQ_BLACK) && (g >? COLOR_FREQ_BLACK) && (b >? COLOR_FREQ_BLACK)
  then COLOR_BLACK
  else if (r <? COLOR_FREQ_WHITE) && (g <? COLOR_FREQ_WHITE) && (b <? COLOR_FREQ_WHITE)
  then COLOR_WHITE
  else if (r <? g - COLOR_MARGIN) && (r <? b - COLOR_MARGIN) && (r <? COLOR_FREQ_MAX)
  then COLOR_RED
  else if (g <? r - COLOR_MARGIN) && (g <? b - COLOR_MARGIN) && (g <? COLOR_FREQ_MAX)
  then COLOR_GREEN
  else if (b <? r - COLOR_MARGIN) && (b <? g - COLOR_MARGIN) && (b <? COLOR_FREQ_MAX)
  then COLOR_BLUE
  else COLOR_NONE.

(** [if (x == 0) x = 999;] *)
Definition timeoutTo999 (x : Z) : Z := if x =? 0 then 999 else x.

Section WithEnv.
Variable env : Env.

Definition readDistance : M Q :=
  n <- gets echoReads ;;
  modify (set_echoReads (S n)) ;;
  let duration := echoPulse env n in
  ret (distanceOf duration).

Definition readUltrasonic (data : SensorData) : M SensorData :=
  d <- readDistance ;;
  ret (mkSensorData (redFreq data) (greenFreq data) (blueFreq data)
         (detectedColor data) (previousColor data)
         d (obstacleOf d)
         (leftOnLine data) (rightOnLine data)).

Definition readColorRaw : M (Z * Z * Z) :=
  n <- gets colorReads ;;
  modify (set_colorReads (S n)) ;;
  delay TIME_SENSOR_READ ;;
  let r := wrap_uint16 (redPulse env n) in
  delay TIME_SENSOR_READ ;;
  let g := wrap_uint16 (greenPulse env n) in
  delay TIME_SENSOR_READ ;;
  let b := wrap_uint16 (bluePulse env n) in
  ret (timeoutTo999 r, timeoutTo999 g, timeoutTo999 b).

Definition readColor (data : SensorData) : M SensorData :=
  rgb <- readColorRaw ;;
  let '(r, g, b) := rgb in
  ret (mkSensorData r g b
         (detectColor r g b) (previousColor data)
         (distance data) (obstacleDetected data)
         (leftOnLine data) (rightOnLine data)).

Definition readIR : M (bool * bool) :=
  n <- gets irReads ;;
  modify (set_irReads (S n)) ;;
  ret (PinLevel_eqb (irLeft env n) IR_ON_LINE,
       PinLevel_eqb (irRight env n) IR_ON_LINE).

Definition readAll (data : SensorData) : M SensorData :=
  let data0 :=
    mkSensorData (redFreq data) (greenFreq data) (blueFreq data)
      (detectedColor data) (detectedColor data)
      (distance data) (obstacleDetected data)
      (leftOnLine data) (rightOnLine data) in
  data1 <- readUltrasonic data0 ;;
  data2 <- readColor data1 ;;
  lr <- readIR ;;
  ret (mkSensorData (redFreq data2) (greenFreq data2) (blueFreq data2)
         (detectedColor data2) (previousColor data2)
         (distance data2) (obstacleDetected data2)
         (fst lr) (snd lr)).

End WithEnv.

End Sensors.

(** ** servos.cpp *)

Module Servos.

Definition baseWrite (angle : Z) : M unit :=
  modify (fun w => set_servoLog (servoLog w ++ [BaseWrite angle]) w).
Definition clampWrite (angle : Z) : M unit :=
  modify (fun w => set_servoLog (servoLog w ++ [ClampWrite angle]) w).

Definition setHolding (h : bool) : M unit :=
  modify (fun w =>
    set_servos (mkServoState h (currentClampAngle (servos w))
                             (currentArmAngle (servos w))) w).
Definition setClampAngle (a : Z) : M unit :=
  modify (fun w =>
    set_servos (mkServoState (holding (servos w)) a
                             (currentArmAngle (servos w))) w).
Definition setArmAngle (a : Z) : M unit :=
  modify (fun w =>
    set_servos (mkServoState (holding (servos w))
                             (currentClampAngle (servos w)) a) w).

Definition init : M unit :=
  baseWrite SERVO_ARM_DOWN ;;
  clampWrite SERVO_CLAMP_OPEN ;;
  setArmAngle SERVO_ARM_DOWN ;;
  setClampAngle SERVO_CLAMP_OPEN ;;
  setHolding false ;;
  delay TIME_SERVO_MOVE.

Definition openClamp : M unit :=
  clampWrite SERVO_CLAMP_OPEN ;;
  setClampAngle SERVO_CLAMP_OPEN ;;
  delay TIME_SERVO_MOVE.

Definition closeClamp : M unit :=
  clampWrite SERVO_CLAMP_CLOSED ;;
  setClampAngle SERVO_CLAMP_CLOSED ;;
  delay TIME_SERVO_MOVE.

Definition armUp : M unit :=
  baseWrite SERVO_ARM_UP ;;
  setArmAngle SERVO_ARM_UP ;;
  delay (TIME_SERVO_MOVE + 200).

Definition armDown : M unit :=
  baseWrite SERVO_ARM_DOWN ;;
  setArmAngle SERVO_ARM_DOWN ;;
  delay (TIME_SERVO_MOVE + 200).

Definition armCarry : M unit :=
  baseWrite SERVO_ARM_CARRY ;;
  setArmAngle SERVO_ARM_CARRY ;;
  delay TIME_SERVO_MOVE.

Definition pickup : M unit :=
  armDown ;;
  delay 100 ;;
  closeClamp ;;
  delay 100 ;;
  armCarry ;;
  setHolding true.

Definition drop : M unit :=
  armDown ;;
  delay 100 ;;
  openClamp ;;
  delay 100 ;;
  armCarry ;;
  setHolding false.

Definition launch : M unit :=
  armDown ;;
  delay 100 ;;
  baseWrite SERVO_ARM_UP ;;
  delay 100 ;;
  setArmAngle SERVO_ARM_UP.

Definition isHolding : M bool := gets (fun w => holding (servos w)).
Definition getClampAngle : M Z := gets (fun w => currentClampAngle (servos w)).
Definition getArmAngle : M Z := gets (fun w => currentArmAngle (servos w)).

End Servos.

(** ** navigation.cpp *)

Module Navigation.

Definition getSearchDirection : M Z := gets (fun w => searchDirection (nav w)).
Definition getSearchCount : M Z := gets (fun w => searchCount (nav w)).

Definition setSearchDirection (d : Z) : M unit :=
  modify (fun w =>
    set_nav (mkNavState d (searchCount (nav w)) (lastStateChange (nav w))) w).
Definition setSearchCount (c : Z) : M unit :=
  modify (fun w =>
    set_nav (mkNavState (searchDirection (nav w)) c (lastStateChange (nav w))) w).
Definition setLastStateChange (t : Z) : M unit :=
  modify (fun w =>
    set_nav (mkNavState (searchDirection (nav w)) (searchCount (nav w)) t) w).

(** [searchCount++] on a [uint8_t]. *)
Definition incrSearchCount : M unit :=
  c <- getSearchCount ;; setSearchCount (wrap_uint8 (c + 1)).

(** [searchDirection *= -1] on an [int8_t]. *)
Definition flipSearchDirection : M unit :=
  d <- getSearchDirection ;; setSearchDirection (wrap_int8 (d * -1)).

Definition followBlackLine (data : SensorData) : M NavResult :=
  if obstacleDetected data then
    Motors.stop ;; ret NAV_OBSTACLE
  else if leftOnLine data && rightOnLine data then
    Motors.forward SPEED_NORMAL ;; ret NAV_CONTINUE
  else if leftOnLine data && negb (rightOnLine data) then
    Motors.curveLeft SPEED_NORMAL ;; ret NAV_CONTINUE
  else if negb (leftOnLine data) && rightOnLine data then
    Motors.curveRight SPEED_NORMAL ;; ret NAV_CONTINUE
  else
    Motors.forward SPEED_SLOW ;; ret NAV_LOST.

Definition followColorLine (data : SensorData) (targetColor : Color)
  : M NavResult :=
  if obstacleDetected data then
    Motors.stop ;; ret NAV_OBSTACLE
  else if Color_eqb (detectedColor data) targetColor then
    Motors.forward SPEED_NORMAL ;;
    setSearchCount 0 ;;
    ret NAV_CONTINUE
  else if negb (Color_eqb (detectedColor data) COLOR_NONE)
          && negb (Color_eqb (detectedColor data) targetColor) then
    Motors.stop ;; ret NAV_TARGET_FOUND
  else
    Motors.forward SPEED_SLOW ;;
    incrSearchCount ;;
    c <- getSearchCount ;;
    if c >? 10 then ret NAV_LOST else ret NAV_CONTINUE.

Definition navigateToCenter (data : SensorData) : M NavResult :=
  Motors.forward SPEED_SLOW ;;
  delay 100 ;;
  if negb (Color_eqb (detectedColor data) (previousColor data))
     && negb (Color_eqb (detectedColor data) COLOR_NONE) then
    setSearchCount 0 ;; ret NAV_TARGET_FOUND
  else
    incrSearchCount ;;
    c <- getSearchCount ;;
    (if c >? 5 then
       d <- getSearchDirection ;;
       (if d >? 0 then Motors.turnRight SPEED_TURN
        else Motors.turnLeft SPEED_TURN) ;;
       delay 200 ;;
       Motors.stop ;;
       flipSearchDirection ;;
       setSearchCount 0
     else ret tt) ;;
    ret NAV_CONTINUE.

(** [turn(int16_t degrees, uint8_t speed)] *)
Definition turn (degrees speed : Z) : M unit :=
  let turnTime := wrap_uint16 (Z.quot (Z.abs degrees * TIME_TURN_90) 90) in
  (if degrees >? 0 then Motors.turnRight speed else Motors.turnLeft speed) ;;
  delay turnTime ;;
  Motors.stop ;;
  delay 50.

(** What one iteration of the wall-hug loop decides from its reading: a
    drive command followed by the 50 ms pause, the pause alone, or
    [break]. *)
Inductive HugStep : Set :=
| HugDrive (c : DriveCmd)
| HugKeep
| HugBreak.

(** The [if / else if / else if] chain of the body of the loop. *)
Definition hugStep (dist : Q) : HugStep :=
  if Qltb dist (inject_Z (DIST_WALL_HUG - 3)) then
    HugDrive (CurveRight SPEED_NORMAL)
  else if Qltb dist (inject_Z (DIST_WALL_HUG + 5)) && Qltb 0 dist then
    HugDrive (Forward SPEED_NORMAL)
  else if Qltb (inject_Z (DIST_WALL_HUG + 10)) dist || Qle_bool 999 dist then
    HugBreak
  else
    HugKeep.

Section WithEnv.
Variable env : Env.

(** [for (uint8_t i = 0; i < maxSteps; i++)], by the number of
    iterations that remain. *)
Fixpoint wallHugLoop (remaining : nat) : M unit :=
  match remaining with
  | O => ret tt
  | S k =>
      dist <- Sensors.readDistance env ;;
      match hugStep dist with
      | HugDrive c => Motors.issue c ;; delay 50 ;; wallHugLoop k
      | HugKeep => delay 50 ;; wallHugLoop k
      | HugBreak => ret tt
      end
  end.

(** [wallHugUntilClear(uint8_t maxSteps)] *)
Definition wallHugUntilClear (maxSteps : Z) : M unit :=
  wallHugLoop (Z.to_nat maxSteps) ;;
  Motors.stop.

Definition avoidObstacleRight : M NavResult :=
  Motors.stop ;;
  delay 100 ;;
  turn 90 SPEED_TURN ;;
  Motors.forward SPEED_NORMAL ;;
  delay 800 ;;
  turn (-90) SPEED_TURN ;;
  wallHugUntilClear 30 ;;
  turn (-90) SPEED_TURN ;;
  Motors.forward SPEED_NORMAL ;;
  delay 800 ;;
  turn 90 SPEED_TURN ;;
  Motors.stop ;;
  ret NAV_CONTINUE.

(** The [while (millis() - startTime < maxTime)] loop of
    [searchForLine].  Every iteration that does not return pauses for
    200 ms, so the loop is over after at most [maxTime] iterations;
    [fuel] counts them. *)
Fixpoint searchForLineLoop (fuel : nat) (targetColor : Color)
    (maxTime startTime : Z) (data : SensorData) : M bool :=
  match fuel with
  | O => ret false
  | S fuel' =>
      now <- millis ;;
      if wrap_uint32 (now - startTime) <? maxTime then
        data' <- Sensors.readAll env data ;;
        if Color_eqb (detectedColor data') targetColor then ret true
        else
          d <- getSearchDirection ;;
          (if d >? 0 then Motors.turnRight SPEED_TURN
           else Motors.turnLeft SPEED_TURN) ;;
          delay 200 ;;
          Motors.stop ;;
          flipSearchDirection ;;
          searchForLineLoop fuel' targetColor maxTime startTime data'
      else ret false
  end.

(** [searchForLine(Color targetColor, uint16_t maxTime)]; [data] is
    the content of the uninitialised local [SensorData]. *)
Definition searchForLine (data : SensorData) (targetColor : Color)
    (maxTime : Z) : M bool :=
  startTime <- millis ;;
  searchForLineLoop (S (Z.to_nat maxTime)) targetColor maxTime startTime data.

End WithEnv.

Definition reset : M unit :=
  setSearchDirection 1 ;;
  setSearchCount 0 ;;
  now <- millis ;;
  setLastStateChange now.

End Navigation.

(** ** section1.ino *)

Module Section1.

Inductive State : Set :=
| STATE_INIT
| STATE_FOLLOW_BLACK
| STATE_APPROACH_BOX
| STATE_PICKUP
| STATE_FIND_INTERSECTION
| STATE_SELECT_GREEN
| STATE_FOLLOW_GREEN
| STATE_APPROACH_BLUE
| STATE_DROP
| STATE_TO_REUPLOAD
| STATE_COMPLETE.

Definition State_eq_dec (a b : State) : {a = b} + {a <> b}.
Proof. decide equality. Defined.

(** The globals of the sketch, the two [static] locals of the
    [STATE_SELECT_GREEN] case, and [halted]: set once the
    [STATE_COMPLETE] case has reached its [while (true)]. *)
Record Mission : Type := mkMission {
  currentState   : State;
  sensors        : SensorData;
  stateStartTime : Z;       (* uint32_t *)
  searchDir      : Z;       (* static int8_t *)
  searchAttempts : Z;       (* static uint8_t *)
  halted         : bool
}.

Definition set_currentState (s : State) (m : Mission) : Mission :=
  mkMission s (sensors m) (stateStartTime m) (searchDir m)
            (searchAttempts m) (halted m).
Definition set_sensors (d : SensorData) (m : Mission) : Mission :=
  mkMission (currentState m) d (stateStartTime m) (searchDir m)
            (searchAttempts m) (halted m).
Definition set_stateStartTime (t : Z) (m : Mission) : Mission :=
  mkMission (currentState m) (sensors m) t (searchDir m)
            (searchAttempts m) (halted m).
Definition set_searchDir (d : Z) (m : Mission) : Mission :=
  mkMission (currentState m) (sensors m) (stateStartTime m) d
            (searchAttempts m) (halted m).
Definition set_searchAttempts (n : Z) (m : Mission) : Mission :=
  mkMission (currentState m) (sensors m) (stateStartTime m) (searchDir m)
            n (halted m).
Definition set_halted (h : bool) (m : Mission) : Mission :=
  mkMission (currentState m) (sensors m) (stateStartTime m) (searchDir m)
            (searchAttempts m) h.

Definition wrap_int16 (x : Z) : Z := (x + 32768) mod 65536 - 32768.

Definition transitionTo (newState : State) (m : Mission) : M Mission :=
  now <- millis ;;
  Navigation.reset ;;
  ret (set_stateStartTime now (set_currentState newState m)).

Section WithEnv.
Variable env : Env.

(** The content of the uninitialised local of [searchForLine]. *)
Variable scratch : SensorData.

Definition processState (m : Mission) : M Mission :=
  match currentState m with
  | STATE_INIT => ret m
  | STATE_FOLLOW_BLACK =>
      result <- Navigation.followBlackLine (sensors m) ;;
      if (if NavResult_eq_dec result NAV_OBSTACLE then true else false)
         && Qltb (distance (sensors m)) (inject_Z (DIST_BOX_PICKUP + 10))
      then transitionTo STATE_APPROACH_BOX m
      else ret m
  | STATE_APPROACH_BOX =>
      if Qle_bool (distance (sensors m)) (inject_Z DIST_BOX_PICKUP) then
        Motors.stop ;; transitionTo STATE_PICKUP m
      else
        Motors.forward SPEED_SLOW ;; ret m
  | STATE_PICKUP =>
      Servos.pickup ;;
      h <- Servos.isHolding ;;
      if h then transitionTo STATE_FIND_INTERSECTION m else ret m
  | STATE_FIND_INTERSECTION =>
      Navigation.followBlackLine (sensors m) ;;
      if Color_eqb (detectedColor (sensors m)) COLOR_GREEN
         || Color_eqb (detectedColor (sensors m)) COLOR_RED
      then Motors.stop ;; transitionTo STATE_SELECT_GREEN m
      else ret m
  | STATE_SELECT_GREEN =>
      if Color_eqb (detectedColor (sensors m)) COLOR_GREEN then
        transitionTo STATE_FOLLOW_GREEN m
      else if searchAttempts m <? 4 then
        Navigation.turn (wrap_int16 (45 * searchDir m)) SPEED_TURN ;;
        data <- Sensors.readAll env (sensors m) ;;
        let m1 := set_sensors data m in
        if Color_eqb (detectedColor data) COLOR_GREEN then
          m2 <- transitionTo STATE_FOLLOW_GREEN m1 ;;
          ret (set_searchDir (-1) (set_searchAttempts 0 m2))
        else
          ret (set_searchAttempts (wrap_uint8 (searchAttempts m1 + 1))
                 (set_searchDir (wrap_int8 (searchDir m1 * -1)) m1))
      else
        m1 <- transitionTo STATE_FOLLOW_GREEN m ;;
        ret (set_searchAttempts 0 m1)
  | STATE_FOLLOW_GREEN =>
      result <- Navigation.followColorLine (sensors m) COLOR_GREEN ;;
      m1 <- (if Color_eqb (detectedColor (sensors m)) COLOR_BLUE
             then transitionTo STATE_APPROACH_BLUE m
             else ret m) ;;
      (if NavResult_eq_dec result NAV_LOST
       then Navigation.searchForLine env scratch COLOR_GREEN 1000 ;; ret tt
       else ret tt) ;;
      ret m1
  | STATE_APPROACH_BLUE =>
      Motors.forward SPEED_SLOW ;;
      delay 500 ;;
      Motors.stop ;;
      transitionTo STATE_DROP m
  | STATE_DROP =>
      Servos.drop ;;
      h <- Servos.isHolding ;;
      if negb h then transitionTo STATE_TO_REUPLOAD m else ret m
  | STATE_TO_REUPLOAD =>
      Navigation.followColorLine (sensors m) COLOR_GREEN ;;
      now <- millis ;;
      if wrap_uint32 (now - stateStartTime m) >? 3000 then
        Motors.stop ;; transitionTo STATE_COMPLETE m
      else ret m
  | STATE_COMPLETE =>
      Motors.stop ;;
      ret (set_halted true m)
  end.

(** One pass of [loop()], without [debugPrint()], which only writes to
    the serial port; nothing runs after the [while (true)] of
    [STATE_COMPLETE]. *)
Definition loop (m : Mission) : M Mission :=
  if halted m then ret m
  else
    data <- Sensors.readAll env (sensors m) ;;
    m1 <- processState (set_sensors data m) ;;
    if halted m1 then ret m1
    else delay TIME_LOOP_DELAY ;; ret m1.

Fixpoint run (ticks : nat) (m : Mission) : M Mission :=
  match ticks with
  | O => ret m
  | S k => m1 <- loop m ;; run k m1
  end.

(** [setup()], on the mission as the initialisers of the globals leave
    it. *)
Definition setup (m : Mission) : M Mission :=
  Servos.init ;;
  Navigation.reset ;;
  delay 500 ;;
  transitionTo STATE_FOLLOW_BLACK m.

End WithEnv.

End Section1.

(** ** obstacle_section.ino (standalone section 3) *)

Module ObstacleSection.

(** The classification at the end of [readColor()], on the three raw
    counts after the time-out substitution; the standalone sketch has no
    WHITE test. *)
Definition readColor_classify (r g b : Z) : Color :=
  if (r >? COLOR_FREQ_BLACK) && (g >? COLOR_FREQ_BLACK) && (b >? COLOR_FREQ_BLACK)
  then COLOR_BLACK
  else if (r <? g - COLOR_MARGIN) && (r <? b - COLOR_MARGIN) && (r <? COLOR_FREQ_MAX)
  then COLOR_RED
  else if (g <? r - COLOR_MARGIN) && (g <? b - COLOR_MARGIN) && (g <? COLOR_FREQ_MAX)
  then COLOR_GREEN
  else if (b <? r - COLOR_MARGIN) && (b <? g - COLOR_MARGIN) && (b <? COLOR_FREQ_MAX)
  then COLOR_BLUE
  else COLOR_NONE.

(** The body of the inline wall-hug loop of [avoidObstacle()]. *)
Definition hugStep (d : Q) : Navigation.HugStep :=
  if Qltb d (inject_Z (DIST_WALL_HUG - 3)) then
    Navigation.HugDrive (CurveRight SPEED_NORMAL)
  else if Qltb d (inject_Z (DIST_WALL_HUG + 5)) then
    Navigation.HugDrive (Forward SPEED_NORMAL)
  else
    Navigation.HugBreak.

End ObstacleSection.

(** ** section2.ino *)

Module Section2.

Inductive State : Set :=
| STATE_INIT
| STATE_CLIMB_RAMP
| STATE_ON_TARGET
| STATE_NAV_BLUE
| STATE_NAV_RED
| STATE_NAV_GREEN
| STATE_REACH_CENTER
| STATE_FIND_BALL
| STATE_SHOOT
| STATE_RETURN_RAMP
| STATE_TO_REUPLOAD
| STATE_COMPLETE.

Definition State_eq_dec (a b : State) : {a = b} + {a <> b}.
Proof. decide equality. Defined.

(** The globals of the sketch, and [halted]: set once the
    [STATE_COMPLETE] case has reached its [while (true)]. *)
Record Mission : Type := mkMission {
  currentState   : State;
  sensors        : SensorData;
  stateStartTime : Z;       (* uint32_t *)
  halted         : bool
}.

Definition set_sensors (d : SensorData) (m : Mission) : Mission :=
  mkMission (currentState m) d (stateStartTime m) (halted m).

Definition transitionTo (newState : State) (m : Mission) : M Mission :=
  now <- millis ;;
  Navigation.reset ;;
  ret (mkMission newState (sensors m) now (halted m)).

(** The [if (millis() - stateStartTime > limit)] that ends three of the
    cases. *)
Definition afterTimeout (limit : Z) (next : State) (m : Mission) : M Mission :=
  now <- millis ;;
  if wrap_uint32 (now - stateStartTime m) >? limit then
    Motors.stop ;; transitionTo next m
  else ret m.

Section WithEnv.
Variable env : Env.

Definition processState (m : Mission) : M Mission :=
  match currentState m with
  | STATE_INIT => ret m
  | STATE_CLIMB_RAMP =>
      Motors.forward SPEED_FAST ;;
      m1 <- (if negb (Color_eqb (detectedColor (sensors m)) COLOR_NONE)
                && negb (Color_eqb (detectedColor (sensors m)) COLOR_WHITE)
             then Motors.stop ;; transitionTo STATE_ON_TARGET m
             else ret m) ;;
      afterTimeout TIMEOUT_RAMP STATE_ON_TARGET m1
  | STATE_ON_TARGET =>
      match detectedColor (sensors m) with
      | COLOR_BLUE => transitionTo STATE_NAV_BLUE m
      | COLOR_RED => transitionTo STATE_NAV_RED m
      | COLOR_GREEN => transitionTo STATE_NAV_GREEN m
      | COLOR_BLACK => transitionTo STATE_REACH_CENTER m
      | _ =>
          Motors.forward SPEED_SLOW ;;
          delay 200 ;;
          Motors.stop ;;
          ret m
      end
  | STATE_NAV_BLUE =>
      result <- Navigation.navigateToCenter (sensors m) ;;
      if NavResult_eq_dec result NAV_TARGET_FOUND then
        match detectedColor (sensors m) with
        | COLOR_RED => transitionTo STATE_NAV_RED m
        | COLOR_GREEN => transitionTo STATE_NAV_GREEN m
        | COLOR_BLACK => transitionTo STATE_REACH_CENTER m
        | _ => ret m
        end
      else ret m
  | STATE_NAV_RED =>
      result <- Navigation.navigateToCenter (sensors m) ;;
      if NavResult_eq_dec result NAV_TARGET_FOUND then
        match detectedColor (sensors m) with
        | COLOR_GREEN => transitionTo STATE_NAV_GREEN m
        | COLOR_BLACK => transitionTo STATE_REACH_CENTER m
        | _ => ret m
        end
      else ret m
  | STATE_NAV_GREEN =>
      result <- Navigation.navigateToCenter (sensors m) ;;
      if (if NavResult_eq_dec result NAV_TARGET_FOUND then true else false)
         && Color_eqb (detectedColor (sensors m)) COLOR_BLACK
      then transitionTo STATE_REACH_CENTER m
      else ret m
  | STATE_REACH_CENTER =>
      Motors.stop ;;
      delay 300 ;;
      transitionTo STATE_FIND_BALL m
  | STATE_FIND_BALL =>
      if Qltb (distance (sensors m)) (inject_Z DIST_BALL_DETECT)
         && Qltb 0 (distance (sensors m))
      then transitionTo STATE_SHOOT m
      else
        Motors.forward SPEED_SLOW ;;
        delay 200 ;;
        Motors.stop ;;
        now <- millis ;;
        if wrap_uint32 (now - stateStartTime m) >? TIMEOUT_SEARCH then
          transitionTo STATE_SHOOT m
        else ret m
  | STATE_SHOOT =>
      Motors.forward SPEED_FAST ;;
      delay 400 ;;
      Motors.stop ;;
      Servos.launch ;;
      delay 1000 ;;
      transitionTo STATE_RETURN_RAMP m
  | STATE_RETURN_RAMP =>
      Navigation.turn 180 SPEED_TURN ;;
      Motors.forward SPEED_NORMAL ;;
      afterTimeout 4000 STATE_TO_REUPLOAD m
  | STATE_TO_REUPLOAD =>
      Motors.stop ;;
      transitionTo STATE_COMPLETE m
  | STATE_COMPLETE =>
      Motors.stop ;;
      ret (mkMission (currentState m) (sensors m) (stateStartTime m) true)
  end.

(** One pass of [loop()], without [debugPrint()]; nothing runs after the
    [while (true)] of [STATE_COMPLETE]. *)
Definition loop (m : Mission) : M Mission :=
  if halted m then ret m
  else
    data <- Sensors.readAll env (sensors m) ;;
    m1 <- processState (set_sensors data m) ;;
    if halted m1 then ret m1
    else delay TIME_LOOP_DELAY ;; ret m1.

Fixpoint run (ticks : nat) (m : Mission) : M Mission :=
  match ticks with
  | O => ret m
  | S k => m1 <- loop m ;; run k m1
  end.

End WithEnv.

(** [setup()]: the state is assigned directly, not through
    [transitionTo]. *)
Definition setup (m : Mission) : M Mission :=
  Servos.init ;;
  Navigation.reset ;;
  delay 500 ;;
  now <- millis ;;
  ret (mkMission STATE_CLIMB_RAMP (sensors m) now (halted m)).

End Section2.

(** ** section3.ino *)

Module Section3.

Inductive State : Set :=
| STATE_INIT
| STATE_FIND_RED_LINE
| STATE_FOLLOW_RED
| STATE_APPROACH_BOX
| STATE_PICKUP
| STATE_TO_OBSTACLES
| STATE_AVOID_OBS_1
| STATE_CLEAR_OBS_1
| STATE_AVOID_OBS_2
| STATE_CLEAR_OBS_2
| STATE_PASS_REUPLOAD
| STATE_FIND_BLUE
| STATE_DROP
| STATE_RETURN_INTERSECTION
| STATE_FIND_BLACK
| STATE_FOLLOW_BLACK_HOME
| STATE_COMPLETE.

Definition State_eq_dec (a b : State) : {a = b} + {a <> b}.
Proof. decide equality. Defined.

(** The globals of the sketch, and [halted]: set once the
    [STATE_COMPLETE] case has reached its [while (true)]. *)
Record Mission : Type := mkMission {
  currentState   : State;
  sensors        : SensorData;
  stateStartTime : Z;       (* uint32_t *)
  obstacleCount  : Z;       (* uint8_t *)
  halted         : bool
}.

Definition set_sensors (d : SensorData) (m : Mission) : Mission :=
  mkMission (currentState m) d (stateStartTime m) (obstacleCount m) (halted m).
Definition set_obstacleCount (n : Z) (m : Mission) : Mission :=
  mkMission (currentState m) (sensors m) (stateStartTime m) n (halted m).

Definition transitionTo (newState : State) (m : Mission) : M Mission :=
  now <- millis ;;
  Navigation.reset ;;
  ret (mkMission newState (sensors m) now (obstacleCount m) (halted m)).

(** [if (millis() - stateStartTime > limit) transitionTo(next);] *)
Definition onTimeout (limit : Z) (next : State) (m : Mission) : M Mission :=
  now <- millis ;;
  if wrap_uint32 (now - stateStartTime m) >? limit then transitionTo next m
  else ret m.

(** The victory dance: [for (int i = 0; i < 3; i++)], by the number of
    rounds that remain. *)
Fixpoint dance (rounds : nat) : M unit :=
  match rounds with
  | O => ret tt
  | S k =>
      Servos.openClamp ;;
      delay 200 ;;
      Servos.closeClamp ;;
      delay 200 ;;
      dance k
  end.

Section WithEnv.
Variable env : Env.

(** The content of the uninitialised local of [searchForLine]. *)
Variable scratch : SensorData.

Definition processState (m : Mission) : M Mission :=
  match currentState m with
  | STATE_INIT => ret m
  | STATE_FIND_RED_LINE =>
      Navigation.turn (-90) SPEED_TURN ;;
      data <- Sensors.readAll env (sensors m) ;;
      let m1 := set_sensors data m in
      if Color_eqb (detectedColor data) COLOR_RED then
        transitionTo STATE_FOLLOW_RED m1
      else
        Motors.forward SPEED_SLOW ;;
        delay 300 ;;
        Motors.stop ;;
        onTimeout 3000 STATE_FOLLOW_RED m1
  | STATE_FOLLOW_RED =>
      Navigation.followColorLine (sensors m) COLOR_RED ;;
      h1 <- Servos.isHolding ;;
      m1 <- (if negb h1 && obstacleDetected (sensors m)
                && Qltb (distance (sensors m)) (inject_Z (DIST_BOX_PICKUP + 10))
             then transitionTo STATE_APPROACH_BOX m
             else ret m) ;;
      h2 <- Servos.isHolding ;;
      m2 <- (if h2 && obstacleDetected (sensors m)
                && Qltb (distance (sensors m)) (inject_Z DIST_OBSTACLE)
             then transitionTo STATE_TO_OBSTACLES m1
             else ret m1) ;;
      h3 <- Servos.isHolding ;;
      if h3 && (obstacleCount m2 >=? 2)
         && Color_eqb (detectedColor (sensors m)) COLOR_BLUE
      then transitionTo STATE_FIND_BLUE m2
      else ret m2
  | STATE_APPROACH_BOX =>
      if Qle_bool (distance (sensors m)) (inject_Z DIST_BOX_PICKUP) then
        Motors.stop ;; transitionTo STATE_PICKUP m
      else
        Motors.forward SPEED_SLOW ;; ret m
  | STATE_PICKUP =>
      Servos.pickup ;;
      h <- Servos.isHolding ;;
      if h then transitionTo STATE_TO_OBSTACLES m else ret m
  | STATE_TO_OBSTACLES =>
      Navigation.followColorLine (sensors m) COLOR_RED ;;
      if obstacleDetected (sensors m)
         && Qltb (distance (sensors m)) (inject_Z DIST_OBSTACLE)
      then
        let m1 := set_obstacleCount (wrap_uint8 (obstacleCount m + 1)) m in
        if obstacleCount m1 =? 1 then transitionTo STATE_AVOID_OBS_1 m1
        else transitionTo STATE_AVOID_OBS_2 m1
      else ret m
  | STATE_AVOID_OBS_1 =>
      Navigation.avoidObstacleRight env ;;
      transitionTo STATE_CLEAR_OBS_1 m
  | STATE_CLEAR_OBS_1 =>
      Motors.forward SPEED_NORMAL ;;
      delay 500 ;;
      found <- Navigation.searchForLine env scratch COLOR_RED 1000 ;;
      if found then transitionTo STATE_TO_OBSTACLES m
      else
        Motors.forward SPEED_SLOW ;;
        delay 500 ;;
        transitionTo STATE_TO_OBSTACLES m
  | STATE_AVOID_OBS_2 =>
      Navigation.avoidObstacleRight env ;;
      transitionTo STATE_CLEAR_OBS_2 m
  | STATE_CLEAR_OBS_2 =>
      Motors.forward SPEED_NORMAL ;;
      delay 500 ;;
      transitionTo STATE_PASS_REUPLOAD m
  | STATE_PASS_REUPLOAD =>
      Navigation.followColorLine (sensors m) COLOR_RED ;;
      m1 <- (if Color_eqb (detectedColor (sensors m)) COLOR_BLUE
             then transitionTo STATE_FIND_BLUE m
             else ret m) ;;
      now <- millis ;;
      (if wrap_uint32 (now - stateStartTime m1) >? 5000 then
         found <- Navigation.searchForLine env scratch COLOR_BLUE 2000 ;;
         if negb found
         then Navigation.searchForLine env scratch COLOR_RED 1000 ;; ret tt
         else ret tt
       else ret tt) ;;
      ret m1
  | STATE_FIND_BLUE =>
      Motors.forward SPEED_SLOW ;;
      delay 500 ;;
      Motors.stop ;;
      transitionTo STATE_DROP m
  | STATE_DROP =>
      Servos.drop ;;
      h <- Servos.isHolding ;;
      if negb h then transitionTo STATE_RETURN_INTERSECTION m else ret m
  | STATE_RETURN_INTERSECTION =>
      (if Color_eqb (detectedColor (sensors m)) COLOR_RED
       then Navigation.followColorLine (sensors m) COLOR_RED ;; ret tt
       else Motors.forward SPEED_SLOW) ;;
      m1 <- (if Color_eqb (detectedColor (sensors m)) COLOR_BLACK
             then transitionTo STATE_FIND_BLACK m
             else ret m) ;;
      onTimeout 5000 STATE_FIND_BLACK m1
  | STATE_FIND_BLACK =>
      if Color_eqb (detectedColor (sensors m)) COLOR_BLACK then
        transitionTo STATE_FOLLOW_BLACK_HOME m
      else
        Navigation.turn 45 SPEED_TURN ;;
        data <- Sensors.readAll env (sensors m) ;;
        (if negb (Color_eqb (detectedColor data) COLOR_BLACK)
         then Navigation.turn (-90) SPEED_TURN
         else ret tt) ;;
        ret (set_sensors data m)
  | STATE_FOLLOW_BLACK_HOME =>
      Navigation.followBlackLine (sensors m) ;;
      now <- millis ;;
      if wrap_uint32 (now - stateStartTime m) >? TIMEOUT_RETURN then
        Motors.stop ;; transitionTo STATE_COMPLETE m
      else ret m
  | STATE_COMPLETE =>
      Motors.stop ;;
      dance 3 ;;
      Servos.openClamp ;;
      ret (mkMission (currentState m) (sensors m) (stateStartTime m)
             (obstacleCount m) true)
  end.

(** One pass of [loop()], without [debugPrint()]; nothing runs after the
    [while (true)] of [STATE_COMPLETE]. *)
Definition loop (m : Mission) : M Mission :=
  if halted m then ret m
  else
    data <- Sensors.readAll env (sensors m) ;;
    m1 <- processState (set_sensors data m) ;;
    if halted m1 then ret m1
    else delay TIME_LOOP_DELAY ;; ret m1.

Fixpoint run (ticks : nat) (m : Mission) : M Mission :=
  match ticks with
  | O => ret m
  | S k => m1 <- loop m ;; run k m1
  end.

End WithEnv.

(** [setup()]: the state is assigned directly, not through
    [transitionTo]. *)
Definition setup (m : Mission) : M Mission :=
  Servos.init ;;
  Navigation.reset ;;
  delay 500 ;;
  now <- millis ;;
  ret (mkMission STATE_FIND_RED_LINE (sensors m) now (obstacleCount m)
         (halted m)).

End Section3.

(** ** test_framework.h, test_framework.cpp *)

Module TestFramework.

(** The four [uint16_t] counters of the class; what is printed on the
    serial port is left out. *)
Record Counters : Type := mkCounters {
  currentTest : Z;
  passed      : Z;
  failed      : Z;
  skipped     : Z
}.

Definition reset (c : Counters) : Counters := mkCounters 0 0 0 0.

(** The body shared by [assert], [assertEqual] and [assertRange]:
    [currentTest++], then [passed++] or [failed++]. *)
Definition record (ok : bool) (c : Counters) : bool * Counters :=
  let c1 := mkCounters (wrap_uint16 (currentTest c + 1))
              (passed c) (failed c) (skipped c) in
  if ok then
    (true, mkCounters (currentTest c1) (wrap_uint16 (passed c1 + 1))
             (failed c1) (skipped c1))
  else
    (false, mkCounters (currentTest c1) (passed c1)
              (wrap_uint16 (failed c1 + 1)) (skipped c1)).

Definition assert (condition : bool) (c : Counters) : bool * Counters :=
  record condition c.

Definition assertEqual (expected actual : Z) (c : Counters) : bool * Counters :=
  record (expected =? actual) c.

Definition assertRange (value minVal maxVal : Z) (c : Counters)
  : bool * Counters :=
  record ((value >=? minVal) && (value <=? maxVal)) c.

Definition skip (c : Counters) : Counters :=
  mkCounters (wrap_uint16 (currentTest c + 1)) (passed c) (failed c)
             (wrap_uint16 (skipped c + 1)).

(** [TestResults] in the order of its fields. *)
Definition getResults (c : Counters) : Z * Z * Z * Z :=
  (currentTest c, passed c, failed c, skipped c).

(** The percentage [printSummary] prints, and its verdict. *)
Definition summaryPercent (c : Counters) : Z :=
  Z.quot (passed c * 100) (Z.max (currentTest c) 1).

Definition summaryAllPassed (c : Counters) : bool := failed c =? 0.

End TestFramework.

(** * Vocabulary of the statements *)

(** The drive commands a computation adds to the log. *)
Definition issuedBy {A : Type} (c : M A) (w : World) : list DriveCmd :=
  skipn (length (driveLog w)) (driveLog (exec c w)).

Definition isPivot (c : DriveCmd) : bool :=
  match c with
  | TurnLeft _ | TurnRight _ => true
  | _ => false
  end.

Definition isStop (c : DriveCmd) : bool :=
  match c with
  | Stop => true
  | _ => false
  end.

(** The commands of a trace that set the robot in motion. *)
Definition moves (l : list DriveCmd) : list DriveCmd :=
  filter (fun c => negb (isStop c)) l.

(** The third stage of the classifier as the specification words it: a
    channel qualifies when it is lower than each of the two others by at
    least the margin and below the ceiling. *)
Definition qualifies_at_least (c o1 o2 : Z) : bool :=
  (c + COLOR_MARGIN <=? o1) && (c + COLOR_MARGIN <=? o2) && (c <? COLOR_FREQ_MAX).

(** The same with the strict comparison: lower by more than the margin. *)
Definition qualifies_more_than (c o1 o2 : Z) : bool :=
  (c + COLOR_MARGIN <? o1) && (c + COLOR_MARGIN <? o2) && (c <? COLOR_FREQ_MAX).

(** First qualifying channel in the order RED, GREEN, BLUE. *)
Definition first_channel (qualifies : Z -> Z -> Z -> bool) (r g b : Z) : Color :=
  if qualifies r g b then COLOR_RED
  else if qualifies g r b then COLOR_GREEN
  else if qualifies b r g then COLOR_BLUE
  else COLOR_NONE.

Definition all_above_black (r g b : Z) : Prop :=
  r > COLOR_FREQ_BLACK /\ g > COLOR_FREQ_BLACK /\ b > COLOR_FREQ_BLACK.

Definition all_below_white (r g b : Z) : Prop :=
  r < COLOR_FREQ_WHITE /\ g < COLOR_FREQ_WHITE /\ b < COLOR_FREQ_WHITE.

(** A snapshot on which the ring-centre search sees no boundary: the
    colour is the one of the previous tick and is not NONE. *)
Definition unchangedRing (data : SensorData) : Prop :=
  detectedColor data = previousColor data /\ detectedColor data <> COLOR_NONE.

(** The pivot the ring-centre search issues for a search direction. *)
Definition pivotOf (d : Z) : DriveCmd :=
  if d >? 0 then TurnRight SPEED_TURN else TurnLeft SPEED_TURN.

(** Consecutive invocations of [navigateToCenter], one per snapshot. *)
Fixpoint centerTicks (ds : list SensorData) : M (list NavResult) :=
  match ds with
  | [] => ret []
  | d :: ds' =>
      r <- Navigation.navigateToCenter d ;;
      rs <- centerTicks ds' ;;
      ret (r :: rs)
  end.

(** Concrete inputs used to exercise the statements. *)
Definition world0 : World :=
  mkWorld 0 0%nat 0%nat 0%nat [] [] (mkNavState 1 0 0)
          (mkServoState false SERVO_CLAMP_OPEN SERVO_ARM_DOWN).

Definition snapshot (c p : Color) (d : Q) (obstacle l r : bool) : SensorData :=
  mkSensorData 0 0 0 c p d obstacle l r.

(** Six snapshots of one ring: RED now, RED on the previous tick. *)
Definition sixRed : list SensorData :=
  repeat (snapshot COLOR_RED COLOR_RED (999 # 1) false false false) 6.

(** A sensor suite that answers nothing: no echo, three colour counts of
    100 (no colour recognised), both IR sensors off the line. *)
Definition envSilent : Env :=
  mkEnv (fun _ => 0) (fun _ => 100) (fun _ => 100) (fun _ => 100)
        (fun _ => HIGH) (fun _ => HIGH).

Definition data0 : SensorData :=
  snapshot COLOR_NONE COLOR_NONE 0 false false false.

(** The distance the i-th ultrasonic reading yields. *)
Definition readingAt (env : Env) (i : nat) : Q :=
  Sensors.distanceOf (echoPulse env i).

(** The drive command, if any, that a step of the wall-hug loop issues. *)
Definition hugCmd (s : Navigation.HugStep) : list DriveCmd :=
  match s with
  | Navigation.HugDrive c => [c]
  | Navigation.HugKeep | Navigation.HugBreak => []
  end.

(** The commands the wall-hug loop issues on the [k] readings that start
    at reading number [base]. *)
Definition hugTrace (env : Env) (base k : nat) : list DriveCmd :=
  flat_map (fun i => hugCmd (Navigation.hugStep (readingAt env i))) (seq base k).

(** The wall-hug loop took [k] of its [n] iterations on the readings from
    [base] on: no reading before the last one taken asked to leave, and
    the loop stopped short of its budget only on a reading that did. *)
Definition hugReadings (env : Env) (base n k : nat) : Prop :=
  (k <= n)%nat
  /\ (forall i, (S i < k)%nat ->
        Navigation.hugStep (readingAt env (base + i)) <> Navigation.HugBreak)
  /\ ((k < n)%nat ->
        exists j, k = S j
          /\ Navigation.hugStep (readingAt env (base + j)) = Navigation.HugBreak).

(** The three zones of the specification: curve away, drive straight, or
    leave the loop. *)
Definition threeZones (dist : Q) : Prop :=
  Navigation.hugStep dist = Navigation.HugDrive (CurveRight SPEED_NORMAL)
  \/ Navigation.hugStep dist = Navigation.HugDrive (Forward SPEED_NORMAL)
  \/ Navigation.hugStep dist = Navigation.HugBreak.

(** An obstacle that stays 17 cm away: every echo lasts 1000 us. *)
Definition env17 : Env :=
  mkEnv (fun _ => 1000) (fun _ => 100) (fun _ => 100) (fun _ => 100)
        (fun _ => HIGH) (fun _ => HIGH).

(** The colour the n-th colour reading is classified as. *)
Definition colorAt (env : Env) (n : nat) : Color :=
  Sensors.detectColor
    (Sensors.timeoutTo999 (wrap_uint16 (redPulse env n)))
    (Sensors.timeoutTo999 (wrap_uint16 (greenPulse env n)))
    (Sensors.timeoutTo999 (wrap_uint16 (bluePulse env n))).

(** The mission as it enters a state at the current clock value 0. *)
Definition missionIn (s : Section1.State) : Section1.Mission :=
  Section1.mkMission s data0 0 (-1) 0 false.

(** Whether the channel of a colour passes its test of the third stage. *)
Definition channelQualifies (c : Color) (r g b : Z) : bool :=
  match c with
  | COLOR_RED => qualifies_more_than r g b
  | COLOR_GREEN => qualifies_more_than g r b
  | COLOR_BLUE => qualifies_more_than b r g
  | _ => false
  end.

(** The third stage with its tests taken in the order of a list. *)
Definition rgbStageIn (order : list Color) (r g b : Z) : Color :=
  match find (fun c => channelQualifies c r g b) order with
  | Some c => c
  | None => COLOR_NONE
  end.

(** The snapshot with the two IR flags exchanged, and the command with
    left and right exchanged. *)
Definition mirrorData (data : SensorData) : SensorData :=
  mkSensorData (redFreq data) (greenFreq data) (blueFreq data)
    (detectedColor data) (previousColor data)
    (distance data) (obstacleDetected data)
    (rightOnLine data) (leftOnLine data).

Definition mirrorCmd (c : DriveCmd) : DriveCmd :=
  match c with
  | TurnLeft s => TurnRight s
  | TurnRight s => TurnLeft s
  | CurveLeft s => CurveRight s
  | CurveRight s => CurveLeft s
  | _ => c
  end.

(** A snapshot with no obstacle and no colour. *)
Definition lostSnapshot (data : SensorData) : Prop :=
  obstacleDetected data = false /\ detectedColor data = COLOR_NONE.

(** Consecutive invocations of [followColorLine], one per snapshot. *)
Fixpoint colorTicks (T : Color) (ds : list SensorData) : M (list NavResult) :=
  match ds with
  | [] => ret []
  | d :: ds' =>
      r <- Navigation.followColorLine d T ;;
      rs <- colorTicks T ds' ;;
      ret (r :: rs)
  end.

(** What [followColorLine] answers once its counter holds [c]. *)
Definition lostOrContinue (c : Z) : NavResult :=
  if c >? 10 then NAV_LOST else NAV_CONTINUE.

(** A ring boundary, as [navigateToCenter] tests it. *)
Definition ringBoundary (data : SensorData) : Prop :=
  detectedColor data <> previousColor data /\ detectedColor data <> COLOR_NONE.

(** The search direction holds one of its two values. *)
Definition directionOk (w : World) : Prop :=
  searchDirection (nav w) = 1 \/ searchDirection (nav w) = -1.

(** Snapshots without colour and without obstacle. *)
Definition lostData : SensorData :=
  snapshot COLOR_NONE COLOR_NONE (999 # 1) false false false.

(** The target colour is among the readings a search of [maxTime] ms takes
    from reading [base] on, one every 230 ms, [elapsed] ms being over. *)
Definition seenWithin (env : Env) (T : Color) (base : nat) (elapsed maxTime : Z)
  : Prop :=
  exists j : nat,
    elapsed + 230 * Z.of_nat j < maxTime /\ colorAt env (base + j) = T.

(** A colour sensor that sees nothing on its first [n] readings and BLUE
    from then on. *)
Definition envBlueAfter (n : nat) : Env :=
  mkEnv (fun _ => 0) (fun _ => 100) (fun _ => 100)
        (fun i => if (n <=? i)%nat then 50 else 100)
        (fun _ => HIGH) (fun _ => HIGH).

(** The operations of the gripper, and a sequence of them. *)
Inductive ServoOp : Set :=
| OpInit | OpOpenClamp | OpCloseClamp | OpArmUp | OpArmDown | OpArmCarry
| OpPickup | OpDrop | OpLaunch.

Definition servoOp (o : ServoOp) : M unit :=
  match o with
  | OpInit => Servos.init
  | OpOpenClamp => Servos.openClamp
  | OpCloseClamp => Servos.closeClamp
  | OpArmUp => Servos.armUp
  | OpArmDown => Servos.armDown
  | OpArmCarry => Servos.armCarry
  | OpPickup => Servos.pickup
  | OpDrop => Servos.drop
  | OpLaunch => Servos.launch
  end.

Fixpoint servoOps (os : list ServoOp) : M unit :=
  match os with
  | [] => ret tt
  | o :: os' => servoOp o ;; servoOps os'
  end.

(** The angles (arm, clamp) the module believes the servos to be at, and
    the angles they are at once a list of writes has been replayed. *)
Definition trackedAngles (w : World) : Z * Z :=
  (currentArmAngle (servos w), currentClampAngle (servos w)).

Definition replayWrites (l : list ServoWrite) (angles : Z * Z) : Z * Z :=
  fold_left
    (fun p s =>
       match s with
       | BaseWrite a => (a, snd p)
       | ClampWrite a => (fst p, a)
       end) l angles.

(** The operations that assign the [holding] flag. *)
Definition holdingAfter (os : list ServoOp) (h : bool) : bool :=
  fold_left
    (fun h o =>
       match o with
       | OpInit | OpDrop => false
       | OpPickup => true
       | _ => h
       end) os h.

(** The states of the mission in the order of the enumeration; the last
    one has no successor. *)
Definition nextState (s : Section1.State) : Section1.State :=
  match s with
  | Section1.STATE_INIT => Section1.STATE_FOLLOW_BLACK
  | Section1.STATE_FOLLOW_BLACK => Section1.STATE_APPROACH_BOX
  | Section1.STATE_APPROACH_BOX => Section1.STATE_PICKUP
  | Section1.STATE_PICKUP => Section1.STATE_FIND_INTERSECTION
  | Section1.STATE_FIND_INTERSECTION => Section1.STATE_SELECT_GREEN
  | Section1.STATE_SELECT_GREEN => Section1.STATE_FOLLOW_GREEN
  | Section1.STATE_FOLLOW_GREEN => Section1.STATE_APPROACH_BLUE
  | Section1.STATE_APPROACH_BLUE => Section1.STATE_DROP
  | Section1.STATE_DROP => Section1.STATE_TO_REUPLOAD
  | Section1.STATE_TO_REUPLOAD => Section1.STATE_COMPLETE
  | Section1.STATE_COMPLETE => Section1.STATE_COMPLETE
  end.

Definition stateIndex (s : Section1.State) : nat :=
  match s with
  | Section1.STATE_INIT => 0
  | Section1.STATE_FOLLOW_BLACK => 1
  | Section1.STATE_APPROACH_BOX => 2
  | Section1.STATE_PICKUP => 3
  | Section1.STATE_FIND_INTERSECTION => 4
  | Section1.STATE_SELECT_GREEN => 5
  | Section1.STATE_FOLLOW_GREEN => 6
  | Section1.STATE_APPROACH_BLUE => 7
  | Section1.STATE_DROP => 8
  | Section1.STATE_TO_REUPLOAD => 9
  | Section1.STATE_COMPLETE => 10
  end.

(** A pass that left the state of the mission as it was, and a pass that
    moved it on: to the next state of the enumeration, stamping the start
    time with the clock and resetting the search state. *)
Definition stayed (m m' : Section1.Mission) : Prop :=
  Section1.currentState m' = Section1.currentState m.

Definition advanced (m m' : Section1.Mission) (w' : World) : Prop :=
  Section1.currentState m <> Section1.STATE_INIT
  /\ Section1.currentState m <> Section1.STATE_COMPLETE
  /\ Section1.currentState m' = nextState (Section1.currentState m)
  /\ Section1.stateStartTime m' = clock w'
  /\ nav w' = mkNavState 1 0 (clock w').

(** A box 4.25 cm ahead: every echo lasts 250 us. *)
Definition envBox : Env :=
  mkEnv (fun _ => 250) (fun _ => 100) (fun _ => 100) (fun _ => 100)
        (fun _ => HIGH) (fun _ => HIGH).

(** The calls a test sketch makes on the framework, and a run of them. *)
Inductive TestCall : Set :=
| CallAssert (condition : bool)
| CallAssertEqual (expected actual : Z)
| CallAssertRange (value minVal maxVal : Z)
| CallSkip.

Definition testCall (t : TestCall) (c : TestFramework.Counters)
  : TestFramework.Counters :=
  match t with
  | CallAssert b => snd (TestFramework.assert b c)
  | CallAssertEqual e a => snd (TestFramework.assertEqual e a c)
  | CallAssertRange v lo hi => snd (TestFramework.assertRange v lo hi c)
  | CallSkip => TestFramework.skip c
  end.

Definition testCalls (ts : list TestCall) (c : TestFramework.Counters)
  : TestFramework.Counters :=
  fold_left (fun c t => testCall t c) ts c.

(** How a call comes out: passed, failed or skipped. *)
Inductive Outcome : Set := Passed | Failed | Skipped.

Definition outcome (t : TestCall) : Outcome :=
  match t with
  | CallAssert b => if b then Passed else Failed
  | CallAssertEqual e a => if e =? a then Passed else Failed
  | CallAssertRange v lo hi =>
      if (lo <=? v) && (v <=? hi) then Passed else Failed
  | CallSkip => Skipped
  end.

Definition Outcome_eqb (a b : Outcome) : bool :=
  match a, b with
  | Passed, Passed | Failed, Failed | Skipped, Skipped => true
  | _, _ => false
  end.

Definition countOutcome (o : Outcome) (ts : list TestCall) : Z :=
  Z.of_nat (length (filter (fun t => Outcome_eqb (outcome t) o) ts)).

(** The states of section 2 in the order of the enumeration. *)
Definition stateIndex2 (s : Section2.State) : nat :=
  match s with
  | Section2.STATE_INIT => 0
  | Section2.STATE_CLIMB_RAMP => 1
  | Section2.STATE_ON_TARGET => 2
  | Section2.STATE_NAV_BLUE => 3
  | Section2.STATE_NAV_RED => 4
  | Section2.STATE_NAV_GREEN => 5
  | Section2.STATE_REACH_CENTER => 6
  | Section2.STATE_FIND_BALL => 7
  | Section2.STATE_SHOOT => 8
  | Section2.STATE_RETURN_RAMP => 9
  | Section2.STATE_TO_REUPLOAD => 10
  | Section2.STATE_COMPLETE => 11
  end.

(** The three states that search for the next ring, and the state a ring
    colour stands for. *)
Definition isRingState (s : Section2.State) : bool :=
  match s with
  | Section2.STATE_NAV_BLUE | Section2.STATE_NAV_RED
  | Section2.STATE_NAV_GREEN => true
  | _ => false
  end.

Definition ringState (c : Color) : option Section2.State :=
  match c with
  | COLOR_BLUE => Some Section2.STATE_NAV_BLUE
  | COLOR_RED => Some Section2.STATE_NAV_RED
  | COLOR_GREEN => Some Section2.STATE_NAV_GREEN
  | COLOR_BLACK => Some Section2.STATE_REACH_CENTER
  | _ => None
  end.

(** What a pass of STATE_RETURN_RAMP issues before its timeout test. *)
Definition returnRampPass : list DriveCmd :=
  [TurnRight SPEED_TURN; Stop; Forward SPEED_NORMAL].

(** The mission of section 2 as it enters a state at the current clock
    value 0. *)
Definition mission2In (s : Section2.State) : Section2.Mission :=
  Section2.mkMission s data0 0 false.

(** [k] loop passes of section 2 lead from one mission and world to
    another. *)
Definition reaches2 (env : Env) (k : nat) (m : Section2.Mission) (w : World)
    (m' : Section2.Mission) (w' : World) : Prop :=
  Section2.run env k m w = (m', w').

(** The mission is running and entered its state one loop delay ago. *)
Definition entered2 (m : Section2.Mission) (w : World) : Prop :=
  Section2.halted m = false
  /\ wrap_uint32 (clock w - Section2.stateStartTime m) = TIME_LOOP_DELAY.

(** The states of the detour around an obstacle, and the state each of
    them is always left for. *)
Definition detourNext (s : Section3.State) : option Section3.State :=
  match s with
  | Section3.STATE_AVOID_OBS_1 => Some Section3.STATE_CLEAR_OBS_1
  | Section3.STATE_CLEAR_OBS_1 => Some Section3.STATE_TO_OBSTACLES
  | Section3.STATE_AVOID_OBS_2 => Some Section3.STATE_CLEAR_OBS_2
  | Section3.STATE_CLEAR_OBS_2 => Some Section3.STATE_PASS_REUPLOAD
  | _ => None
  end.

(** The mission of section 3 in a state, with a number of obstacles
    counted. *)
Definition mission3In (s : Section3.State) (count : Z) : Section3.Mission :=
  Section3.mkMission s data0 0 count false.

(** * Properties *)

(** ** Auxiliary facts *)

(** Runs the monad on a goal, leaving the machine arithmetic folded. *)
Ltac fw_step :=
  cbv -[wrap_uint8 wrap_uint32 wrap_int8 Z.gtb Z.ltb Z.leb Z.eqb
        Z.add Z.sub Z.mul Z.quot Z.abs Z.to_nat Z.of_nat
        app Qltb Qle_bool inject_Z Nat.add].

Lemma Qltb_lt (x y : Q) : Qltb x y = true <-> (x < y)%Q.
Proof.
  unfold Qltb. rewrite negb_true_iff.
  split; intros H.
  - apply Qnot_le_lt. intros Hle.
    apply Qle_bool_iff in Hle. congruence.
  - destruct (Qle_bool y x) eqn:E; [|reflexivity].
    apply Qle_bool_iff in E. exfalso. exact (Qlt_not_le _ _ H E).
Qed.

Lemma Qltb_ge (x y : Q) : Qltb x y = false <-> (y <= x)%Q.
Proof.
  unfold Qltb. rewrite negb_false_iff. apply Qle_bool_iff.
Qed.

Lemma Color_eqb_eq (a b : Color) : Color_eqb a b = true <-> a = b.
Proof.
  unfold Color_eqb. destruct (Color_eq_dec a b); split; congruence.
Qed.

Lemma Color_eqb_neq (a b : Color) : Color_eqb a b = false <-> a <> b.
Proof.
  unfold Color_eqb. destruct (Color_eq_dec a b); split; congruence.
Qed.

Lemma Color_eqb_refl (a : Color) : Color_eqb a a = true.
Proof. now apply Color_eqb_eq. Qed.

Lemma skipn_app_exact {A : Type} (l l' : list A) :
  skipn (length l) (l ++ l') = l'.
Proof. induction l; simpl; auto. Qed.

(** ** Colour classifier *)

(** The BLACK test comes first, in the core classifier and in the
    standalone one. *)
Lemma black_test_passes (r g b : Z) :
  all_above_black r g b ->
  (r >? COLOR_FREQ_BLACK) && (g >? COLOR_FREQ_BLACK) && (b >? COLOR_FREQ_BLACK)
  = true.
Proof.
  intros [Hr [Hg Hb]].
  rewrite !andb_true_iff. repeat split; apply Z.gtb_lt; lia.
Qed.

Lemma detectColor_black_first (r g b : Z) :
  all_above_black r g b -> Sensors.detectColor r g b = COLOR_BLACK.
Proof.
  intros H. unfold Sensors.detectColor.
  rewrite (black_test_passes r g b H). reflexivity.
Qed.

Lemma readColor_classify_black_first (r g b : Z) :
  all_above_black r g b -> ObstacleSection.readColor_classify r g b = COLOR_BLACK.
Proof.
  intros H. unfold ObstacleSection.readColor_classify.
  rewrite (black_test_passes r g b H). reflexivity.
Qed.

(** C7. Whenever the three counts all exceed COLOR_FREQ_BLACK (200) the
    classifier answers BLACK, whatever the distances between the channels;
    so does the classification of the standalone section-3 sketch.  The
    triple of time-out readings (999, 999, 999) is an instance. *)
Theorem detectColor_black_above_threshold (r g b : Z) :
  r > COLOR_FREQ_BLACK -> g > COLOR_FREQ_BLACK -> b > COLOR_FREQ_BLACK ->
  Sensors.detectColor r g b = COLOR_BLACK
  /\ ObstacleSection.readColor_classify r g b = COLOR_BLACK.
Proof.
  intros Hr Hg Hb.
  assert (H : all_above_black r g b) by (unfold all_above_black; auto).
  split.
  - apply detectColor_black_first. exact H.
  - apply readColor_classify_black_first. exact H.
Qed.

Lemma detectColor_black_timeouts :
  (999 > COLOR_FREQ_BLACK /\ 999 > COLOR_FREQ_BLACK /\ 999 > COLOR_FREQ_BLACK)
  /\ Sensors.detectColor (Sensors.timeoutTo999 0) (Sensors.timeoutTo999 0)
       (Sensors.timeoutTo999 0) = COLOR_BLACK
  /\ Sensors.detectColor 999 999 999 = COLOR_BLACK
  /\ ObstacleSection.readColor_classify 999 999 999 = COLOR_BLACK.
Proof.
  split; [unfold COLOR_FREQ_BLACK; lia|].
  split; [reflexivity|].
  apply (detectColor_black_above_threshold 999 999 999);
    unfold COLOR_FREQ_BLACK; lia.
Defined.

Lemma qualifies_more_than_code (c o1 o2 : Z) :
  qualifies_more_than c o1 o2 =
  (c <? o1 - COLOR_MARGIN) && (c <? o2 - COLOR_MARGIN) && (c <? COLOR_FREQ_MAX).
Proof.
  unfold qualifies_more_than.
  replace (c + COLOR_MARGIN <? o1) with (c <? o1 - COLOR_MARGIN)
    by (destruct (Z.ltb_spec c (o1 - COLOR_MARGIN));
        destruct (Z.ltb_spec (c + COLOR_MARGIN) o1); auto; lia).
  replace (c + COLOR_MARGIN <? o2) with (c <? o2 - COLOR_MARGIN)
    by (destruct (Z.ltb_spec c (o2 - COLOR_MARGIN));
        destruct (Z.ltb_spec (c + COLOR_MARGIN) o2); auto; lia).
  reflexivity.
Qed.

Lemma not_black_test (r g b : Z) :
  ~ all_above_black r g b ->
  (r >? COLOR_FREQ_BLACK) && (g >? COLOR_FREQ_BLACK) && (b >? COLOR_FREQ_BLACK)
  = false.
Proof.
  intros H. apply not_true_is_false. intros E.
  apply andb_prop in E as [E Eb]. apply andb_prop in E as [Er Eg].
  apply Z.gtb_lt in Er, Eg, Eb. apply H. unfold all_above_black. lia.
Qed.

Lemma not_white_test (r g b : Z) :
  ~ all_below_white r g b ->
  (r <? COLOR_FREQ_WHITE) && (g <? COLOR_FREQ_WHITE) && (b <? COLOR_FREQ_WHITE)
  = false.
Proof.
  intros H. apply not_true_is_false. intros E.
  apply andb_prop in E as [E Eb]. apply andb_prop in E as [Er Eg].
  apply Z.ltb_lt in Er, Eg, Eb. apply H. unfold all_below_white. lia.
Qed.

(** At most one channel can be lower than both others by more than the
    margin, so the order of the three tests never decides the answer. *)
Lemma qualifies_more_than_exclusive (r g b : Z) :
  (qualifies_more_than r g b = true -> qualifies_more_than g r b = false
                                       /\ qualifies_more_than b r g = false)
  /\ (qualifies_more_than g r b = true -> qualifies_more_than b r g = false).
Proof.
  unfold qualifies_more_than, COLOR_MARGIN.
  split; intros H;
    apply andb_prop in H as [H _]; apply andb_prop in H as [H1 H2];
    apply Z.ltb_lt in H1, H2.
  - split; apply andb_false_intro1; apply andb_false_intro1;
      apply Z.ltb_ge; lia.
  - apply andb_false_intro1. apply andb_false_intro2. apply Z.ltb_ge. lia.
Qed.

Lemma detectColor_not_black (r g b : Z) :
  Sensors.detectColor r g b <> COLOR_BLACK -> ~ all_above_black r g b.
Proof.
  intros H Habove. apply H.
  apply detectColor_black_first. exact Habove.
Qed.

Lemma detectColor_not_white (r g b : Z) :
  Sensors.detectColor r g b <> COLOR_BLACK ->
  Sensors.detectColor r g b <> COLOR_WHITE ->
  ~ all_below_white r g b.
Proof.
  intros Hb Hw [Hr [Hg Hbl]]. apply Hw.
  unfold Sensors.detectColor.
  rewrite (not_black_test _ _ _ (detectColor_not_black _ _ _ Hb)).
  assert (Er : (r <? COLOR_FREQ_WHITE) = true) by (apply Z.ltb_lt; lia).
  assert (Eg : (g <? COLOR_FREQ_WHITE) = true) by (apply Z.ltb_lt; lia).
  assert (Eb : (b <? COLOR_FREQ_WHITE) = true) by (apply Z.ltb_lt; lia).
  rewrite Er, Eg, Eb. reflexivity.
Qed.

(** C8, as the code has it.  For every input that is classified neither
    BLACK nor WHITE, the answer is the first channel, in the order RED,
    GREEN, BLUE, whose count is lower than each of the two others by more
    than COLOR_MARGIN (20) and below COLOR_FREQ_MAX (150), and NONE when
    there is none. *)
Theorem detectColor_rgb_stage (r g b : Z) :
  Sensors.detectColor r g b <> COLOR_BLACK ->
  Sensors.detectColor r g b <> COLOR_WHITE ->
  Sensors.detectColor r g b = first_channel qualifies_more_than r g b.
Proof.
  intros Hb Hw.
  pose proof (detectColor_not_white _ _ _ Hb Hw) as Hw'.
  pose proof (detectColor_not_black _ _ _ Hb) as Hb'.
  unfold Sensors.detectColor, first_channel.
  rewrite (not_black_test _ _ _ Hb'), (not_white_test _ _ _ Hw').
  rewrite !qualifies_more_than_code. reflexivity.
Qed.

Lemma detectColor_rgb_stage_red_example :
  (Sensors.detectColor 50 150 150 <> COLOR_BLACK
   /\ Sensors.detectColor 50 150 150 <> COLOR_WHITE)
  /\ Sensors.detectColor 50 150 150 = COLOR_RED
  /\ first_channel qualifies_more_than 50 150 150 = COLOR_RED.
Proof.
  assert (Hb : Sensors.detectColor 50 150 150 <> COLOR_BLACK) by discriminate.
  assert (Hw : Sensors.detectColor 50 150 150 <> COLOR_WHITE) by discriminate.
  split; [split; assumption|].
  split; [|reflexivity].
  rewrite (detectColor_rgb_stage 50 150 150 Hb Hw). reflexivity.
Defined.

(** C8, as stated, fails where a channel is lower than the others by the
    margin exactly: (100, 120, 120) is neither BLACK nor WHITE, RED is
    lower than GREEN and BLUE by 20 and below 150, and the classifier
    answers NONE. *)
Lemma detectColor_margin_boundary :
  Sensors.detectColor 100 120 120 <> COLOR_BLACK
  /\ Sensors.detectColor 100 120 120 <> COLOR_WHITE
  /\ first_channel qualifies_at_least 100 120 120 = COLOR_RED
  /\ Sensors.detectColor 100 120 120 = COLOR_NONE
  /\ Sensors.detectColor 100 120 120
     <> first_channel qualifies_at_least 100 120 120.
Proof.
  repeat split; discriminate.
Qed.

(** ** Navigation primitives *)

(** C1. With the left sensor on the line, the right one off it and no
    obstacle, [followBlackLine] issues the one command curveLeft at
    SPEED_NORMAL (so no curveRight), changes nothing else and returns
    CONTINUE, whatever the other fields of the snapshot; with an obstacle
    detected it issues the one command stop and returns OBSTACLE, whatever
    the IR flags. *)
Theorem followBlackLine_left_only_and_obstacle (data : SensorData) (w : World) :
  (obstacleDetected data = false ->
   leftOnLine data = true -> rightOnLine data = false ->
   Navigation.followBlackLine data w
     = (NAV_CONTINUE, exec (Motors.curveLeft SPEED_NORMAL) w)
   /\ issuedBy (Navigation.followBlackLine data) w = [CurveLeft SPEED_NORMAL]
   /\ forall s, ~ In (CurveRight s) (issuedBy (Navigation.followBlackLine data) w))
  /\
  (obstacleDetected data = true ->
   Navigation.followBlackLine data w = (NAV_OBSTACLE, exec Motors.stop w)
   /\ issuedBy (Navigation.followBlackLine data) w = [Stop]).
Proof.
  split.
  - intros Ho Hl Hr.
    assert (E : Navigation.followBlackLine data w
                = (NAV_CONTINUE, exec (Motors.curveLeft SPEED_NORMAL) w)).
    { unfold Navigation.followBlackLine. rewrite Ho, Hl, Hr. reflexivity. }
    assert (I : issuedBy (Navigation.followBlackLine data) w
                = [CurveLeft SPEED_NORMAL]).
    { unfold issuedBy, exec. rewrite E. cbn. apply skipn_app_exact. }
    repeat split; auto.
    intros s. rewrite I. simpl. intros [H|[]]. discriminate.
  - intros Ho.
    assert (E : Navigation.followBlackLine data w
                = (NAV_OBSTACLE, exec Motors.stop w)).
    { unfold Navigation.followBlackLine. rewrite Ho. reflexivity. }
    split; auto.
    unfold issuedBy, exec. rewrite E. cbn. apply skipn_app_exact.
Qed.

Lemma followBlackLine_examples :
  Navigation.followBlackLine
    (snapshot COLOR_BLACK COLOR_BLACK (999 # 1) false true false) world0
  = (NAV_CONTINUE, exec (Motors.curveLeft SPEED_NORMAL) world0)
  /\ Navigation.followBlackLine
       (snapshot COLOR_BLACK COLOR_BLACK (4 # 1) true true false) world0
     = (NAV_OBSTACLE, exec Motors.stop world0).
Proof.
  split.
  - apply (proj1 (followBlackLine_left_only_and_obstacle
                    (snapshot COLOR_BLACK COLOR_BLACK (999 # 1) false true false)
                    world0)); reflexivity.
  - apply (proj2 (followBlackLine_left_only_and_obstacle
                    (snapshot COLOR_BLACK COLOR_BLACK (4 # 1) true true false)
                    world0)); reflexivity.
Defined.

(** C3. Without an obstacle, [followColorLine] for a target colour T:
    on T it drives forward at SPEED_NORMAL, resets the counter to 0 and
    returns CONTINUE; on another colour that is not NONE it stops and
    returns TARGET_FOUND; on NONE (the target being a colour) it crawls at
    SPEED_SLOW, increments the [uint8_t] counter (by one below 255) and
    returns LOST exactly when the counter now exceeds 10, CONTINUE
    otherwise.  The three cases are tried in this order. *)
Theorem followColorLine_cases (data : SensorData) (T : Color) (w : World) :
  obstacleDetected data = false ->
  (detectedColor data = T ->
   Navigation.followColorLine data T w
   = (NAV_CONTINUE,
      exec (Motors.forward SPEED_NORMAL ;; Navigation.setSearchCount 0) w)
   /\ searchCount (nav (exec (Navigation.followColorLine data T) w)) = 0)
  /\
  (detectedColor data <> COLOR_NONE -> detectedColor data <> T ->
   Navigation.followColorLine data T w = (NAV_TARGET_FOUND, exec Motors.stop w))
  /\
  (detectedColor data = COLOR_NONE -> T <> COLOR_NONE ->
   let c' := wrap_uint8 (searchCount (nav w) + 1) in
   exec (Navigation.followColorLine data T) w
   = exec (Motors.forward SPEED_SLOW ;; Navigation.setSearchCount c') w
   /\ searchCount (nav (exec (Navigation.followColorLine data T) w)) = c'
   /\ (0 <= searchCount (nav w) < 255 -> c' = searchCount (nav w) + 1)
   /\ (eval (Navigation.followColorLine data T) w = NAV_LOST <-> c' > 10)
   /\ (eval (Navigation.followColorLine data T) w = NAV_CONTINUE <-> c' <= 10)).
Proof.
  intros Ho. unfold Navigation.followColorLine. rewrite Ho.
  split; [|split].
  - intros E. apply Color_eqb_eq in E. rewrite E. split; reflexivity.
  - intros Hn Hd.
    apply Color_eqb_neq in Hn, Hd. rewrite Hd, Hn. reflexivity.
  - intros Hn Hd.
    assert (E1 : Color_eqb (detectedColor data) T = false)
      by (apply Color_eqb_neq; congruence).
    assert (E2 : Color_eqb (detectedColor data) COLOR_NONE = true)
      by (apply Color_eqb_eq; assumption).
    rewrite E1, E2. cbn [negb andb].
    unfold exec, eval. cbn -[wrap_uint8 Z.gtb].
    set (c' := wrap_uint8 (searchCount (nav w) + 1)).
    assert (Hsmall : 0 <= searchCount (nav w) < 255 ->
                     c' = searchCount (nav w) + 1)
      by (intros Hr; unfold c', wrap_uint8; apply Z.mod_small; lia).
    destruct (Z.gtb_spec c' 10) as [Hc|Hc]; cbn -[wrap_uint8 Z.gtb].
    + repeat split; auto; try lia; try discriminate.
    + repeat split; auto; try lia; try discriminate.
Qed.

Lemma followColorLine_examples :
  let green := snapshot COLOR_GREEN COLOR_GREEN (999 # 1) false false false in
  let blue := snapshot COLOR_BLUE COLOR_GREEN (999 # 1) false false false in
  let none := snapshot COLOR_NONE COLOR_GREEN (999 # 1) false false false in
  eval (Navigation.followColorLine green COLOR_GREEN) world0 = NAV_CONTINUE
  /\ eval (Navigation.followColorLine blue COLOR_GREEN) world0 = NAV_TARGET_FOUND
  /\ searchCount (nav (exec (Navigation.followColorLine none COLOR_GREEN) world0))
     = 1.
Proof.
  intros green blue none.
  pose proof (followColorLine_cases green COLOR_GREEN world0 eq_refl) as Hg.
  pose proof (followColorLine_cases blue COLOR_GREEN world0 eq_refl) as Hb.
  pose proof (followColorLine_cases none COLOR_GREEN world0 eq_refl) as Hn.
  split; [|split].
  - destruct Hg as [Hg _]. destruct (Hg eq_refl) as [E _].
    unfold eval. rewrite E. reflexivity.
  - destruct Hb as [_ [Hb _]].
    unfold eval. rewrite Hb; [reflexivity | discriminate | discriminate].
  - destruct Hn as [_ [_ Hn]].
    destruct (Hn eq_refl) as [_ [E _]]; [discriminate|].
    rewrite E. reflexivity.
Defined.

(** One invocation of the ring-centre search on an unchanged colour while
    the incremented counter is still at most 5: a forward crawl, nothing
    else. *)
Lemma navigateToCenter_quiet (data : SensorData) (w : World) :
  unchangedRing data ->
  wrap_uint8 (searchCount (nav w) + 1) <= 5 ->
  Navigation.navigateToCenter data w
  = (NAV_CONTINUE,
     exec (Motors.forward SPEED_SLOW ;; delay 100 ;;
           Navigation.incrSearchCount) w).
Proof.
  intros [Hsame Hnone] Hc. unfold Navigation.navigateToCenter.
  rewrite Hsame, Color_eqb_refl. cbn [negb andb].
  unfold exec. cbn -[wrap_uint8 wrap_uint32 Z.gtb].
  destruct (Z.gtb_spec (wrap_uint8 (searchCount (nav w) + 1)) 5); [lia|].
  reflexivity.
Qed.

(** The invocation on which the incremented counter exceeds 5: the crawl,
    one pivot chosen by the sign of [searchDirection], a stop, the flip and
    the reset. *)
Lemma navigateToCenter_pivot (data : SensorData) (w : World) :
  unchangedRing data ->
  wrap_uint8 (searchCount (nav w) + 1) > 5 ->
  Navigation.navigateToCenter data w
  = (NAV_CONTINUE,
     exec (Motors.forward SPEED_SLOW ;; delay 100 ;;
           Navigation.incrSearchCount ;;
           Motors.issue (pivotOf (searchDirection (nav w))) ;;
           delay 200 ;;
           Motors.stop ;;
           Navigation.flipSearchDirection ;;
           Navigation.setSearchCount 0) w).
Proof.
  intros [Hsame Hnone] Hc. unfold Navigation.navigateToCenter.
  rewrite Hsame, Color_eqb_refl. cbn [negb andb].
  destruct w as [clk er cr ir dl sl [d c l] sv].
  cbn [nav searchCount searchDirection] in *.
  fw_step.
  destruct (Z.gtb_spec (wrap_uint8 (c + 1)) 5); [|lia].
  destruct (d >? 0); reflexivity.
Qed.

Lemma bind_run {A B : Type} (c : M A) (k : A -> M B) (w : World) :
  bind c k w = k (eval c w) (exec c w).
Proof. unfold bind, eval, exec. destruct (c w); reflexivity. Qed.

Lemma centerTicks_cons (d : SensorData) (ds : list SensorData) (w : World) :
  centerTicks (d :: ds) w
  = (eval (Navigation.navigateToCenter d) w
       :: eval (centerTicks ds) (exec (Navigation.navigateToCenter d) w),
     exec (centerTicks ds) (exec (Navigation.navigateToCenter d) w)).
Proof. cbn [centerTicks]. rewrite !bind_run. reflexivity. Qed.

Lemma eval_centerTicks_cons (d : SensorData) (ds : list SensorData) (w : World) :
  eval (centerTicks (d :: ds)) w
  = eval (Navigation.navigateToCenter d) w
      :: eval (centerTicks ds) (exec (Navigation.navigateToCenter d) w).
Proof. unfold eval at 1. rewrite centerTicks_cons. reflexivity. Qed.

Lemma exec_centerTicks_cons (d : SensorData) (ds : list SensorData) (w : World) :
  exec (centerTicks (d :: ds)) w
  = exec (centerTicks ds) (exec (Navigation.navigateToCenter d) w).
Proof. unfold exec at 1. rewrite centerTicks_cons. reflexivity. Qed.

Lemma exec_centerTicks_app (l1 l2 : list SensorData) (w : World) :
  exec (centerTicks (l1 ++ l2)) w
  = exec (centerTicks l2) (exec (centerTicks l1) w).
Proof.
  revert w. induction l1 as [|d l1 IH]; intros w.
  - reflexivity.
  - cbn [app]. rewrite !exec_centerTicks_cons. apply IH.
Qed.

Lemma eval_centerTicks_app (l1 l2 : list SensorData) (w : World) :
  eval (centerTicks (l1 ++ l2)) w
  = eval (centerTicks l1) w ++ eval (centerTicks l2) (exec (centerTicks l1) w).
Proof.
  revert w. induction l1 as [|d l1 IH]; intros w.
  - reflexivity.
  - cbn [app]. rewrite !eval_centerTicks_cons, exec_centerTicks_cons, IH.
    reflexivity.
Qed.

(** While the counter stays at most 5 the search only crawls. *)
Lemma centerTicks_quiet (ds : list SensorData) :
  forall w : World,
    Forall unchangedRing ds ->
    0 <= searchCount (nav w) ->
    searchCount (nav w) + Z.of_nat (length ds) <= 5 ->
    eval (centerTicks ds) w = repeat NAV_CONTINUE (length ds)
    /\ driveLog (exec (centerTicks ds) w)
       = driveLog w ++ repeat (Forward SPEED_SLOW) (length ds)
    /\ nav (exec (centerTicks ds) w)
       = mkNavState (searchDirection (nav w))
                    (searchCount (nav w) + Z.of_nat (length ds))
                    (lastStateChange (nav w)).
Proof.
  induction ds as [|d ds IH]; intros w Hall Hlo Hhi.
  - unfold eval, exec. cbn. rewrite app_nil_r, Z.add_0_r.
    destruct (nav w); auto.
  - inversion Hall as [|? ? Hd Hds]; subst.
    cbn [length] in Hhi. rewrite Nat2Z.inj_succ in Hhi.
    assert (Hw : wrap_uint8 (searchCount (nav w) + 1) = searchCount (nav w) + 1)
      by (unfold wrap_uint8; apply Z.mod_small; lia).
    rewrite eval_centerTicks_cons, exec_centerTicks_cons.
    assert (Hq := navigateToCenter_quiet d w Hd ltac:(lia)).
    assert (Hqe : eval (Navigation.navigateToCenter d) w = NAV_CONTINUE)
      by (unfold eval; rewrite Hq; reflexivity).
    assert (Hqx : exec (Navigation.navigateToCenter d) w
                  = exec (Motors.forward SPEED_SLOW ;; delay 100 ;;
                          Navigation.incrSearchCount) w)
      by (unfold exec at 1; rewrite Hq; reflexivity).
    rewrite Hqe, Hqx. clear Hq Hqe Hqx.
    set (w1 := exec _ w).
    assert (Hn1 : nav w1 = mkNavState (searchDirection (nav w))
                             (searchCount (nav w) + 1)
                             (lastStateChange (nav w))).
    { subst w1. unfold exec. cbn -[wrap_uint8 wrap_uint32].
      rewrite Hw. reflexivity. }
    assert (Hl1 : driveLog w1 = driveLog w ++ [Forward SPEED_SLOW]).
    { subst w1. reflexivity. }
    destruct (IH w1 Hds) as [Ie [Il In]].
    { rewrite Hn1. cbn. lia. }
    { rewrite Hn1. cbn. lia. }
    rewrite Ie, Il, In, Hl1, Hn1.
    cbn [length repeat searchDirection searchCount lastStateChange].
    rewrite <- app_assoc. cbn [app].
    rewrite Nat2Z.inj_succ.
    repeat split. f_equal. lia.
Qed.

(** Six invocations on an unchanged colour, from a counter at 0: five
    crawls, then the crawl, the pivot and the stop of the sixth. *)
Lemma centerTicks_trigger (ds : list SensorData) (w : World) :
  length ds = 6%nat ->
  Forall unchangedRing ds ->
  searchCount (nav w) = 0 ->
  eval (centerTicks ds) w = repeat NAV_CONTINUE 6
  /\ driveLog (exec (centerTicks ds) w)
     = driveLog w ++ repeat (Forward SPEED_SLOW) 6
         ++ [pivotOf (searchDirection (nav w)); Stop]
  /\ nav (exec (centerTicks ds) w)
     = mkNavState (wrap_int8 (searchDirection (nav w) * -1)) 0
                  (lastStateChange (nav w)).
Proof.
  intros Hlen Hall Hc.
  destruct ds as [|d1 [|d2 [|d3 [|d4 [|d5 [|d6 [|? ?]]]]]]]; try discriminate.
  change [d1; d2; d3; d4; d5; d6] with ([d1; d2; d3; d4; d5] ++ [d6]) in *.
  apply Forall_app in Hall as [H5 H6].
  inversion H6 as [|? ? Hd6 _]; subst.
  destruct (centerTicks_quiet [d1; d2; d3; d4; d5] w H5) as [Ie [Il In]];
    [rewrite Hc; lia | rewrite Hc; cbn; lia |].
  rewrite eval_centerTicks_app, exec_centerTicks_app.
  set (w5 := exec (centerTicks [d1; d2; d3; d4; d5]) w) in *.
  rewrite Ie.
  assert (Hc5 : searchCount (nav w5) = 5) by (rewrite In, Hc; reflexivity).
  rewrite eval_centerTicks_cons, exec_centerTicks_cons.
  assert (Hp := navigateToCenter_pivot d6 w5 Hd6
                  ltac:(rewrite Hc5; unfold wrap_uint8; cbn; lia)).
  assert (Hpe : eval (Navigation.navigateToCenter d6) w5 = NAV_CONTINUE)
    by (unfold eval; rewrite Hp; reflexivity).
  set (w6 := exec (Navigation.navigateToCenter d6) w5).
  assert (Hpx : w6 = snd (Navigation.navigateToCenter d6 w5)) by reflexivity.
  rewrite Hp in Hpx. cbn [snd] in Hpx.
  rewrite Hpe.
  change (eval (centerTicks []) w6) with (@nil NavResult).
  change (exec (centerTicks []) w6) with w6.
  split; [reflexivity|].
  rewrite Hpx. split.
  - unfold exec. cbn -[wrap_uint8 wrap_uint32 wrap_int8].
    rewrite Il, In.
    cbn [searchDirection length repeat].
    rewrite <- !app_assoc. reflexivity.
  - unfold exec. cbn -[wrap_uint8 wrap_uint32 wrap_int8].
    rewrite In. reflexivity.
Qed.

Lemma Forall_firstn_of {A : Type} (P : A -> Prop) (n : nat) (l : list A) :
  Forall P l -> Forall P (firstn n l).
Proof.
  intros H. rewrite <- (firstn_skipn n l) in H.
  apply Forall_app in H. tauto.
Qed.

Lemma issuedBy_of_log {A : Type} (c : M A) (w : World) (l : list DriveCmd) :
  driveLog (exec c w) = driveLog w ++ l -> issuedBy c w = l.
Proof. intros E. unfold issuedBy. rewrite E. apply skipn_app_exact. Qed.

Lemma filter_isPivot_trigger (d : Z) :
  filter isPivot (repeat (Forward SPEED_SLOW) 6 ++ [pivotOf d; Stop])
  = [pivotOf d].
Proof. unfold pivotOf. destruct (d >? 0); reflexivity. Qed.

(** [searchDirection] only ever holds 1 or -1: [reset] stores 1 and the
    flip exchanges the two. *)
Lemma flip_direction (d : Z) :
  d = 1 \/ d = -1 ->
  wrap_int8 (d * -1) = - d /\ (wrap_int8 (d * -1) = 1 \/ wrap_int8 (d * -1) = -1).
Proof. intros [-> | ->]; cbn; auto. Qed.

(** C2. From a counter at 0, six consecutive invocations of
    [navigateToCenter] on snapshots whose colour is unchanged and not NONE
    all return CONTINUE; the first five issue no pivot; the sixth issues
    exactly one, [turnRight] when [searchDirection > 0] and [turnLeft]
    otherwise, then flips [searchDirection] and leaves the counter at 0.
    Six more such invocations pivot again, and from a direction of 1 or -1
    the second pivot is the opposite of the first and the direction is
    back where it started. *)
Theorem navigateToCenter_alternating_pivot
    (ds ds' : list SensorData) (w : World) :
  length ds = 6%nat -> Forall unchangedRing ds ->
  length ds' = 6%nat -> Forall unchangedRing ds' ->
  searchCount (nav w) = 0 ->
  let d := searchDirection (nav w) in
  let w1 := exec (centerTicks ds) w in
  let w2 := exec (centerTicks ds') w1 in
  eval (centerTicks ds) w = repeat NAV_CONTINUE 6
  /\ filter isPivot (issuedBy (centerTicks (firstn 5 ds)) w) = []
  /\ issuedBy (centerTicks ds) w
     = repeat (Forward SPEED_SLOW) 6 ++ [pivotOf d; Stop]
  /\ filter isPivot (issuedBy (centerTicks ds) w)
     = [if d >? 0 then TurnRight SPEED_TURN else TurnLeft SPEED_TURN]
  /\ searchDirection (nav w1) = wrap_int8 (d * -1)
  /\ searchCount (nav w1) = 0
  /\ filter isPivot (issuedBy (centerTicks ds') w1)
     = [pivotOf (searchDirection (nav w1))]
  /\ (d = 1 \/ d = -1 ->
      pivotOf (searchDirection (nav w1)) <> pivotOf d
      /\ searchDirection (nav w1) = - d
      /\ searchDirection (nav w2) = d).
Proof.
  intros Hlen Hall Hlen' Hall' Hc d w1 w2.
  destruct (centerTicks_trigger ds w Hlen Hall Hc) as [Ie [Il In]].
  fold d in Il, In. fold w1 in Il, In.
  assert (Hc1 : searchCount (nav w1) = 0) by (rewrite In; reflexivity).
  assert (Hd1 : searchDirection (nav w1) = wrap_int8 (d * -1))
    by (rewrite In; reflexivity).
  destruct (centerTicks_trigger ds' w1 Hlen' Hall' Hc1) as [Ie' [Il' In']].
  fold w2 in Il', In'.
  assert (H5 : Forall unchangedRing (firstn 5 ds)) by (apply Forall_firstn_of; exact Hall).
  assert (L5 : length (firstn 5 ds) = 5%nat) by (rewrite length_firstn; lia).
  destruct (centerTicks_quiet (firstn 5 ds) w H5) as [_ [Il5 _]];
    [rewrite Hc; lia | rewrite Hc, L5; cbn; lia |].
  rewrite L5 in Il5.
  split; [exact Ie|].
  split; [rewrite (issuedBy_of_log _ _ _ Il5); reflexivity|].
  split; [exact (issuedBy_of_log _ _ _ Il)|].
  split; [rewrite (issuedBy_of_log _ _ _ Il); apply filter_isPivot_trigger|].
  split; [exact Hd1|].
  split; [exact Hc1|].
  split; [rewrite (issuedBy_of_log _ _ _ Il'); apply filter_isPivot_trigger|].
  intros Hd.
  destruct (flip_direction d Hd) as [Hneg Hd'].
  rewrite Hd1, Hneg.
  split; [|split; [reflexivity|]].
  - destruct Hd as [-> | ->]; discriminate.
  - rewrite In'. cbn [searchDirection]. rewrite Hd1, Hneg.
    destruct Hd as [-> | ->]; reflexivity.
Qed.

Lemma unchangedRing_sixRed : Forall unchangedRing sixRed.
Proof.
  unfold sixRed. cbn [repeat].
  repeat constructor; discriminate.
Qed.

Lemma navigateToCenter_alternating_pivot_example :
  filter isPivot (issuedBy (centerTicks sixRed) world0) = [TurnRight SPEED_TURN]
  /\ filter isPivot
       (issuedBy (centerTicks sixRed) (exec (centerTicks sixRed) world0))
     = [TurnLeft SPEED_TURN].
Proof.
  pose proof (navigateToCenter_alternating_pivot sixRed sixRed world0
                eq_refl unchangedRing_sixRed eq_refl unchangedRing_sixRed
                eq_refl) as H.
  cbv zeta in H.
  destruct H as [_ [_ [_ [H1 [_ [_ [H2 H3]]]]]]].
  split.
  - exact H1.
  - rewrite H2.
    destruct (H3 (or_introl eq_refl)) as [_ [E _]].
    rewrite E. reflexivity.
Defined.

(** ** Ultrasonic ranging *)

Lemma readAll_ultrasonic (env : Env) (data : SensorData) (w : World) :
  distance (eval (Sensors.readAll env data) w)
  = Sensors.distanceOf (echoPulse env (echoReads w))
  /\ obstacleDetected (eval (Sensors.readAll env data) w)
     = Sensors.obstacleOf (Sensors.distanceOf (echoPulse env (echoReads w))).
Proof.
  split; reflexivity.
Qed.

Lemma obstacleOf_iff (d : Q) :
  Sensors.obstacleOf d = true <-> (0 < d /\ d < 15 # 1)%Q.
Proof.
  unfold Sensors.obstacleOf. rewrite andb_true_iff, !Qltb_lt. reflexivity.
Qed.

Lemma distanceOf_sentinel (duration : Z) :
  (Sensors.distanceOf duration == 999 # 1)%Q <-> duration = 0.
Proof.
  unfold Sensors.distanceOf.
  destruct (Z.eqb_spec duration 0) as [E|E].
  - split; [auto | reflexivity].
  - split; [|contradiction].
    unfold Qeq, Qdiv, Qmult, Qinv, inject_Z, ULTRA_SPEED_CM. cbn.
    intros H. lia.
Qed.

Lemma obstacleOf_sentinel (d : Q) :
  (d == 999 # 1)%Q -> Sensors.obstacleOf d = false.
Proof.
  intros E. apply not_true_is_false. intros H.
  apply obstacleOf_iff in H as [_ H]. rewrite E in H.
  revert H. unfold Qlt. cbn. lia.
Qed.

(** C4. After every sensor read the obstacle flag is the function
    [0 < distance < DIST_OBSTACLE] (15) of the distance just measured:
    true exactly when the distance lies strictly between 0 and 15 cm.  The
    distance is the no-echo value 999 exactly when the echo pulse lasted 0,
    and then the flag is false. *)
Theorem obstacleDetected_function_of_distance
    (env : Env) (data : SensorData) (w : World) :
  let duration := echoPulse env (echoReads w) in
  let data' := eval (Sensors.readAll env data) w in
  obstacleDetected data' = Sensors.obstacleOf (distance data')
  /\ (obstacleDetected data' = true
      <-> (0 < distance data' /\ distance data' < inject_Z DIST_OBSTACLE)%Q)
  /\ eval (Sensors.readDistance env) w = distance data'
  /\ (duration = 0 -> distance data' = 999 # 1)
  /\ ((distance data' == 999 # 1)%Q <-> duration = 0)
  /\ ((distance data' == 999 # 1)%Q -> obstacleDetected data' = false).
Proof.
  intros duration data'.
  destruct (readAll_ultrasonic env data w) as [Hd Ho].
  fold data' in Hd, Ho. fold duration in Hd, Ho.
  rewrite Ho, Hd.
  split; [reflexivity|].
  split; [apply obstacleOf_iff|].
  split; [reflexivity|].
  split; [intros ->; reflexivity|].
  split; [apply distanceOf_sentinel|].
  apply obstacleOf_sentinel.
Qed.

Lemma obstacleDetected_no_echo_example :
  echoPulse envSilent (echoReads world0) = 0
  /\ distance (eval (Sensors.readAll envSilent data0) world0) = 999 # 1
  /\ obstacleDetected (eval (Sensors.readAll envSilent data0) world0) = false.
Proof.
  pose proof (obstacleDetected_function_of_distance envSilent data0 world0) as H.
  cbv zeta in H. destruct H as [_ [_ [_ [H1 [_ H2]]]]].
  split; [reflexivity|].
  split.
  - apply H1. reflexivity.
  - apply H2. rewrite (H1 eq_refl). reflexivity.
Defined.

(** ** Wall hugging and obstacle avoidance *)

Lemma exec_seq {A B : Type} (c : M A) (k : M B) (w : World) :
  exec (c ;; k) w = exec k (exec c w).
Proof. unfold exec at 1. rewrite bind_run. reflexivity. Qed.

Lemma eval_seq {A B : Type} (c : M A) (k : M B) (w : World) :
  eval (c ;; k) w = eval k (exec c w).
Proof. unfold eval at 1. rewrite bind_run. reflexivity. Qed.

(** What a step of the firmware leaves alone, field by field. *)
Record sameBut (log reads : bool) (w w' : World) : Prop := mkSameBut {
  same_echoReads  : reads = false -> echoReads w' = echoReads w;
  same_colorReads : colorReads w' = colorReads w;
  same_irReads    : irReads w' = irReads w;
  same_driveLog   : log = false -> driveLog w' = driveLog w;
  same_servoLog   : servoLog w' = servoLog w;
  same_nav        : nav w' = nav w;
  same_servos     : servos w' = servos w
}.

Lemma issue_log (c : DriveCmd) (w : World) :
  driveLog (exec (Motors.issue c) w) = driveLog w ++ [c]
  /\ sameBut true false w (exec (Motors.issue c) w).
Proof.
  split; [reflexivity|]. constructor; intros; try discriminate; reflexivity.
Qed.

Lemma turn_log (degrees speed : Z) (w : World) :
  driveLog (exec (Navigation.turn degrees speed) w)
  = driveLog w
      ++ [if degrees >? 0 then TurnRight speed else TurnLeft speed; Stop]
  /\ sameBut true false w (exec (Navigation.turn degrees speed) w).
Proof.
  unfold Navigation.turn, exec.
  destruct (degrees >? 0); cbn -[wrap_uint16 wrap_uint32 Z.quot Z.abs Z.mul];
    rewrite <- app_assoc; split; try reflexivity;
    constructor; intros; try discriminate; reflexivity.
Qed.

Lemma hugTrace_succ (env : Env) (base k : nat) :
  hugTrace env base (S k)
  = hugCmd (Navigation.hugStep (readingAt env base)) ++ hugTrace env (S base) k.
Proof. reflexivity. Qed.

Lemma hugTrace_commands (env : Env) (k : nat) :
  forall base : nat,
    (length (hugTrace env base k) <= k)%nat
    /\ Forall (fun c => c = CurveRight SPEED_NORMAL \/ c = Forward SPEED_NORMAL)
              (hugTrace env base k).
Proof.
  induction k as [|k IH]; intros base.
  - split; [apply Nat.le_refl | constructor].
  - destruct (IH (S base)) as [Hl Hf]. rewrite hugTrace_succ.
    unfold Navigation.hugStep.
    destruct (Qltb _ _); [cbn; split; [lia | constructor; auto]|].
    destruct (_ && _); [cbn; split; [lia | constructor; auto]|].
    destruct (_ || _); cbn; split; auto; lia.
Qed.

Lemma exec_bind_readDistance {A : Type} (env : Env) (k : Q -> M A) (w : World) :
  exec (dist <- Sensors.readDistance env ;; k dist) w
  = exec (k (readingAt env (echoReads w))) (set_echoReads (S (echoReads w)) w).
Proof. unfold exec at 1. rewrite bind_run. reflexivity. Qed.

(** The loop of [wallHugUntilClear], on a budget of [n] iterations. *)
Lemma wallHugLoop_run (env : Env) (n : nat) :
  forall w : World,
    exists k : nat,
      hugReadings env (echoReads w) n k
      /\ echoReads (exec (Navigation.wallHugLoop env n) w) = (echoReads w + k)%nat
      /\ driveLog (exec (Navigation.wallHugLoop env n) w)
         = driveLog w ++ hugTrace env (echoReads w) k
      /\ sameBut true true w (exec (Navigation.wallHugLoop env n) w).
Proof.
  induction n as [|n IH]; intros w.
  - exists 0%nat. unfold hugReadings. cbn. rewrite app_nil_r, Nat.add_0_r.
    repeat split; auto; try lia; intros; lia.
  - cbn [Navigation.wallHugLoop]. rewrite exec_bind_readDistance.
    set (w1 := set_echoReads (S (echoReads w)) w).
    fold (readingAt env (echoReads w)).
    destruct (Navigation.hugStep (readingAt env (echoReads w))) as [c| |] eqn:Es.
    + rewrite !exec_seq.
      set (w2 := exec (delay 50) (exec (Motors.issue c) w1)).
      assert (Er : echoReads w2 = S (echoReads w)) by reflexivity.
      assert (El : driveLog w2 = driveLog w ++ [c]) by reflexivity.
      assert (S2 : sameBut true true w w2)
        by (constructor; intros; try discriminate; reflexivity).
      destruct (IH w2) as [k [[Hk [Hb He]] [Hr [Hl Hs]]]].
      rewrite Er in Hb, He, Hr, Hl. rewrite El in Hl.
      exists (S k). split; [|split; [|split]].
      * split; [lia|]. split.
        -- intros [|i] Hi; [rewrite Nat.add_0_r, Es; discriminate|].
           rewrite Nat.add_succ_r. apply Hb. lia.
        -- intros Hlt. destruct He as [j [-> Hj]]; [lia|].
           exists (S j). split; [reflexivity|].
           rewrite Nat.add_succ_r. exact Hj.
      * rewrite Hr. lia.
      * rewrite Hl, hugTrace_succ, Es. cbn [hugCmd]. rewrite <- app_assoc.
        reflexivity.
      * destruct Hs, S2. constructor; intros; try discriminate;
          etransitivity; eauto.
    + rewrite !exec_seq.
      set (w2 := exec (delay 50) w1).
      assert (Er : echoReads w2 = S (echoReads w)) by reflexivity.
      assert (El : driveLog w2 = driveLog w) by reflexivity.
      assert (S2 : sameBut true true w w2)
        by (constructor; intros; try discriminate; reflexivity).
      destruct (IH w2) as [k [[Hk [Hb He]] [Hr [Hl Hs]]]].
      rewrite Er in Hb, He, Hr, Hl. rewrite El in Hl.
      exists (S k). split; [|split; [|split]].
      * split; [lia|]. split.
        -- intros [|i] Hi; [rewrite Nat.add_0_r, Es; discriminate|].
           rewrite Nat.add_succ_r. apply Hb. lia.
        -- intros Hlt. destruct He as [j [-> Hj]]; [lia|].
           exists (S j). split; [reflexivity|].
           rewrite Nat.add_succ_r. exact Hj.
      * rewrite Hr. lia.
      * rewrite Hl, hugTrace_succ, Es. reflexivity.
      * destruct Hs, S2. constructor; intros; try discriminate;
          etransitivity; eauto.
    + exists 1%nat. split; [|split; [|split]].
      * split; [lia|]. split; [intros i Hi; lia|].
        intros _. exists 0%nat. rewrite Nat.add_0_r. auto.
      * cbn. lia.
      * rewrite hugTrace_succ, Es. cbn. rewrite app_nil_r. reflexivity.
      * constructor; intros; try discriminate; reflexivity.
Qed.

Lemma wallHugUntilClear_run (env : Env) (maxSteps : Z) (w : World) :
  exists k : nat,
    hugReadings env (echoReads w) (Z.to_nat maxSteps) k
    /\ echoReads (exec (Navigation.wallHugUntilClear env maxSteps) w)
       = (echoReads w + k)%nat
    /\ driveLog (exec (Navigation.wallHugUntilClear env maxSteps) w)
       = driveLog w ++ hugTrace env (echoReads w) k ++ [Stop].
Proof.
  destruct (wallHugLoop_run env (Z.to_nat maxSteps) w) as [k [Hk [Hr [Hl _]]]].
  exists k. unfold Navigation.wallHugUntilClear. rewrite exec_seq.
  split; [exact Hk|]. split.
  - unfold Motors.stop, exec at 1. cbn. exact Hr.
  - destruct (issue_log Stop (exec (Navigation.wallHugLoop env (Z.to_nat maxSteps)) w))
      as [E _].
    unfold Motors.stop. rewrite E, Hl, <- app_assoc. reflexivity.
Qed.

(** The four zones of [hugStep]. *)
Lemma hugStep_zones (dist : Q) :
  ((dist < 7)%Q ->
     Navigation.hugStep dist = Navigation.HugDrive (CurveRight SPEED_NORMAL))
  /\ ((7 <= dist /\ dist < 15)%Q ->
     Navigation.hugStep dist = Navigation.HugDrive (Forward SPEED_NORMAL))
  /\ ((15 <= dist /\ dist <= 20)%Q ->
     Navigation.hugStep dist = Navigation.HugKeep)
  /\ ((20 < dist)%Q -> Navigation.hugStep dist = Navigation.HugBreak).
Proof.
  unfold Navigation.hugStep.
  change (inject_Z (DIST_WALL_HUG - 3)) with 7%Q.
  change (inject_Z (DIST_WALL_HUG + 5)) with 15%Q.
  change (inject_Z (DIST_WALL_HUG + 10)) with 20%Q.
  destruct (Qltb dist 7) eqn:E7;
    [apply Qltb_lt in E7 | apply Qltb_ge in E7];
  destruct (Qltb dist 15) eqn:E15;
    [apply Qltb_lt in E15 | apply Qltb_ge in E15 |
     apply Qltb_lt in E15 | apply Qltb_ge in E15];
  destruct (Qltb 0 dist) eqn:E0;
    [apply Qltb_lt in E0 | apply Qltb_ge in E0 |
     apply Qltb_lt in E0 | apply Qltb_ge in E0 |
     apply Qltb_lt in E0 | apply Qltb_ge in E0 |
     apply Qltb_lt in E0 | apply Qltb_ge in E0];
  destruct (Qltb 20 dist) eqn:E20;
    try apply Qltb_lt in E20; try apply Qltb_ge in E20;
  destruct (Qle_bool 999 dist) eqn:E999;
    try apply Qle_bool_iff in E999;
  cbn [andb orb];
  repeat split; intros; try reflexivity; exfalso; lra.
Qed.

(** C9, as the code has it.  [wallHugUntilClear] takes at most
    [maxSteps] distance readings.  A reading below 7 cm issues curveRight, a
    reading from 7 cm to below 15 cm issues forward, a reading from 15 cm
    to 20 cm issues nothing and the loop goes on, a reading above 20 cm
    leaves the loop, which stops short of its budget on such a reading
    only.  The commands issued are those of the readings taken, in order,
    followed by the final stop. *)
Theorem wallHugUntilClear_zones_and_budget
    (env : Env) (maxSteps : Z) (w : World) :
  let w' := exec (Navigation.wallHugUntilClear env maxSteps) w in
  (forall dist : Q,
      ((dist < 7)%Q ->
         Navigation.hugStep dist = Navigation.HugDrive (CurveRight SPEED_NORMAL))
      /\ ((7 <= dist /\ dist < 15)%Q ->
         Navigation.hugStep dist = Navigation.HugDrive (Forward SPEED_NORMAL))
      /\ ((15 <= dist /\ dist <= 20)%Q ->
         Navigation.hugStep dist = Navigation.HugKeep)
      /\ ((20 < dist)%Q -> Navigation.hugStep dist = Navigation.HugBreak))
  /\ exists k : nat,
       (k <= Z.to_nat maxSteps)%nat
       /\ hugReadings env (echoReads w) (Z.to_nat maxSteps) k
       /\ echoReads w' = (echoReads w + k)%nat
       /\ driveLog w' = driveLog w ++ hugTrace env (echoReads w) k ++ [Stop]
       /\ (length (hugTrace env (echoReads w) k) <= k)%nat
       /\ Forall (fun c => c = CurveRight SPEED_NORMAL \/ c = Forward SPEED_NORMAL)
                 (hugTrace env (echoReads w) k).
Proof.
  intros w'. split; [exact hugStep_zones|].
  destruct (wallHugUntilClear_run env maxSteps w) as [k [Hk [Hr Hl]]].
  exists k. destruct (hugTrace_commands env k (echoReads w)) as [Hlen Hall].
  repeat split; auto; apply Hk.
Qed.

Lemma wallHugUntilClear_dead_band_example :
  (15 <= readingAt env17 0 /\ readingAt env17 0 <= 20)%Q
  /\ Navigation.hugStep (readingAt env17 0) = Navigation.HugKeep.
Proof.
  assert (H : (15 <= readingAt env17 0 /\ readingAt env17 0 <= 20)%Q).
  { unfold readingAt, Sensors.distanceOf, env17. cbn. unfold Qle. cbn. lia. }
  split; [exact H|].
  destruct (wallHugUntilClear_zones_and_budget env17 3 world0) as [Hz _].
  destruct (Hz (readingAt env17 0)) as [_ [_ [Hkeep _]]].
  exact (Hkeep H).
Defined.

(** C9, as stated, fails between 15 cm and 20 cm: with the obstacle 17 cm
    away a reading is in none of the three zones, and a budget of three
    steps is used up by three readings without a single curve or forward
    command. *)
Lemma wallHugUntilClear_fourth_zone :
  (readingAt env17 0 == 17)%Q
  /\ ~ threeZones (readingAt env17 0)
  /\ echoReads (exec (Navigation.wallHugUntilClear env17 3) world0) = 3%nat
  /\ driveLog (exec (Navigation.wallHugUntilClear env17 3) world0) = [Stop].
Proof.
  split; [reflexivity|].
  split; [|split; reflexivity].
  unfold threeZones. intros [H | [H | H]]; discriminate H.
Qed.

Lemma driveLog_issue (c : DriveCmd) (w : World) :
  driveLog (exec (Motors.issue c) w) = driveLog w ++ [c].
Proof. reflexivity. Qed.

Lemma echoReads_issue (c : DriveCmd) (w : World) :
  echoReads (exec (Motors.issue c) w) = echoReads w.
Proof. reflexivity. Qed.

Lemma driveLog_delay (ms : Z) (w : World) :
  driveLog (exec (delay ms) w) = driveLog w.
Proof. reflexivity. Qed.

Lemma echoReads_delay (ms : Z) (w : World) :
  echoReads (exec (delay ms) w) = echoReads w.
Proof. reflexivity. Qed.

Lemma driveLog_turn (degrees speed : Z) (w : World) :
  driveLog (exec (Navigation.turn degrees speed) w)
  = driveLog w ++ [if degrees >? 0 then TurnRight speed else TurnLeft speed; Stop].
Proof. apply turn_log. Qed.

Lemma echoReads_turn (degrees speed : Z) (w : World) :
  echoReads (exec (Navigation.turn degrees speed) w) = echoReads w.
Proof. destruct (turn_log degrees speed w) as [_ []]. auto. Qed.

(** The inline loop of the standalone section-3 sketch has the three
    zones only: it leaves at 15 cm already. *)
Lemma standalone_hugStep_zones (d : Q) :
  ((d < 7)%Q ->
     ObstacleSection.hugStep d = Navigation.HugDrive (CurveRight SPEED_NORMAL))
  /\ ((7 <= d /\ d < 15)%Q ->
     ObstacleSection.hugStep d = Navigation.HugDrive (Forward SPEED_NORMAL))
  /\ ((15 <= d)%Q -> ObstacleSection.hugStep d = Navigation.HugBreak).
Proof.
  unfold ObstacleSection.hugStep.
  change (inject_Z (DIST_WALL_HUG - 3)) with 7%Q.
  change (inject_Z (DIST_WALL_HUG + 5)) with 15%Q.
  destruct (Qltb d 7) eqn:E7;
    [apply Qltb_lt in E7 | apply Qltb_ge in E7];
  destruct (Qltb d 15) eqn:E15;
    [apply Qltb_lt in E15 | apply Qltb_ge in E15 |
     apply Qltb_lt in E15 | apply Qltb_ge in E15];
  repeat split; intros; try reflexivity; exfalso; lra.
Qed.

Lemma moves_app (l1 l2 : list DriveCmd) :
  moves (l1 ++ l2) = moves l1 ++ moves l2.
Proof. apply filter_app. Qed.

Lemma moves_hug (l : list DriveCmd) :
  Forall (fun c => c = CurveRight SPEED_NORMAL \/ c = Forward SPEED_NORMAL) l ->
  moves l = l.
Proof.
  induction 1 as [|c l Hc _ IH]; [reflexivity|].
  unfold moves in *. cbn [filter].
  destruct Hc as [-> | ->]; cbn; rewrite IH; reflexivity.
Qed.

(** A sequence of twelve steps that returns a constant runs them in order. *)
Lemma run_twelve {R : Type} (c1 c2 c3 c4 c5 c6 c7 c8 c9 c10 c11 c12 : M unit)
    (r : R) (w : World) :
  exec (c1 ;; c2 ;; c3 ;; c4 ;; c5 ;; c6 ;; c7 ;; c8 ;; c9 ;; c10 ;; c11 ;;
        c12 ;; ret r) w
  = exec c12 (exec c11 (exec c10 (exec c9 (exec c8 (exec c7 (exec c6
      (exec c5 (exec c4 (exec c3 (exec c2 (exec c1 w)))))))))))
  /\ eval (c1 ;; c2 ;; c3 ;; c4 ;; c5 ;; c6 ;; c7 ;; c8 ;; c9 ;; c10 ;; c11 ;;
           c12 ;; ret r) w = r.
Proof.
  split.
  - rewrite !exec_seq. reflexivity.
  - rewrite !eval_seq. reflexivity.
Qed.

Lemma avoidObstacleRight_steps (env : Env) :
  Navigation.avoidObstacleRight env
  = (Motors.issue Stop ;; delay 100 ;;
     Navigation.turn 90 SPEED_TURN ;;
     Motors.issue (Forward SPEED_NORMAL) ;; delay 800 ;;
     Navigation.turn (-90) SPEED_TURN ;;
     Navigation.wallHugUntilClear env 30 ;;
     Navigation.turn (-90) SPEED_TURN ;;
     Motors.issue (Forward SPEED_NORMAL) ;; delay 800 ;;
     Navigation.turn 90 SPEED_TURN ;;
     Motors.issue Stop ;; ret NAV_CONTINUE).
Proof. reflexivity. Qed.

(** [avoidObstacleRight] as the run of its wall-hug call between what
    precedes and what follows it. *)
Lemma avoidObstacleRight_run (env : Env) (w : World) :
  exec (Navigation.avoidObstacleRight env) w
  = exec (Motors.issue Stop)
      (exec (Navigation.turn 90 SPEED_TURN)
         (exec (delay 800)
            (exec (Motors.issue (Forward SPEED_NORMAL))
               (exec (Navigation.turn (-90) SPEED_TURN)
                  (exec (Navigation.wallHugUntilClear env 30)
                     (exec (Navigation.turn (-90) SPEED_TURN)
                        (exec (delay 800)
                           (exec (Motors.issue (Forward SPEED_NORMAL))
                              (exec (Navigation.turn 90 SPEED_TURN)
                                 (exec (delay 100)
                                    (exec (Motors.issue Stop) w)))))))))))
  /\ eval (Navigation.avoidObstacleRight env) w = NAV_CONTINUE.
Proof.
  rewrite avoidObstacleRight_steps. apply run_twelve.
Qed.

(** C5. [avoidObstacleRight] issues, in this order: stop; the timed turn
    to the right (pivot right, then its stop); forward; the timed turn to
    the left (pivot left, stop); the commands of the wall-hug loop, at most
    30 of them, each a curveRight or a forward, and the stop that ends
    it; the timed turn to the left; forward; the timed turn to the right;
    stop.  Between the first and the last stop the commands that move the
    robot are pivot right, forward, pivot left, the wall-hug commands,
    pivot left, forward, pivot right.  The last command is stop and the
    result is CONTINUE. *)
Theorem avoidObstacleRight_sequence (env : Env) (w : World) :
  exists hug : list DriveCmd,
    issuedBy (Navigation.avoidObstacleRight env) w
    = [Stop]
        ++ [TurnRight SPEED_TURN; Stop]
        ++ [Forward SPEED_NORMAL]
        ++ [TurnLeft SPEED_TURN; Stop]
        ++ (hug ++ [Stop])
        ++ [TurnLeft SPEED_TURN; Stop]
        ++ [Forward SPEED_NORMAL]
        ++ [TurnRight SPEED_TURN; Stop]
        ++ [Stop]
    /\ moves (issuedBy (Navigation.avoidObstacleRight env) w)
       = [TurnRight SPEED_TURN; Forward SPEED_NORMAL; TurnLeft SPEED_TURN]
           ++ hug
           ++ [TurnLeft SPEED_TURN; Forward SPEED_NORMAL; TurnRight SPEED_TURN]
    /\ (length hug <= 30)%nat
    /\ Forall (fun c => c = CurveRight SPEED_NORMAL \/ c = Forward SPEED_NORMAL) hug
    /\ (exists k : nat, (k <= 30)%nat /\ hug = hugTrace env (echoReads w) k
          /\ echoReads (exec (Navigation.avoidObstacleRight env) w)
             = (echoReads w + k)%nat)
    /\ (exists before : list DriveCmd,
          driveLog (exec (Navigation.avoidObstacleRight env) w)
          = before ++ [Stop])
    /\ eval (Navigation.avoidObstacleRight env) w = NAV_CONTINUE.
Proof.
  destruct (avoidObstacleRight_run env w) as [Ex Ev].
  remember (exec (Navigation.turn (-90) SPEED_TURN)
              (exec (delay 800)
                 (exec (Motors.issue (Forward SPEED_NORMAL))
                    (exec (Navigation.turn 90 SPEED_TURN)
                       (exec (delay 100) (exec (Motors.issue Stop) w))))))
    as w6 eqn:E6.
  assert (L6 : driveLog w6
               = driveLog w ++ [Stop; TurnRight SPEED_TURN; Stop;
                                Forward SPEED_NORMAL; TurnLeft SPEED_TURN; Stop]).
  { rewrite E6.
    rewrite driveLog_turn, driveLog_delay, driveLog_issue, driveLog_turn,
      driveLog_delay, driveLog_issue.
    cbn [Z.gtb Z.compare]. rewrite <- !app_assoc. reflexivity. }
  assert (R6 : echoReads w6 = echoReads w).
  { rewrite E6.
    rewrite echoReads_turn, echoReads_delay, echoReads_issue, echoReads_turn,
      echoReads_delay, echoReads_issue. reflexivity. }
  clear E6.
  destruct (wallHugUntilClear_run env 30 w6) as [k [[Hk _] [Hr Hl]]].
  rewrite R6 in Hr, Hl. rewrite L6 in Hl.
  change (Z.to_nat 30) with 30%nat in Hk.
  destruct (hugTrace_commands env k (echoReads w)) as [Hlen Hall].
  remember (exec (Navigation.wallHugUntilClear env 30) w6) as w7 eqn:E7.
  clear E7.
  assert (Lf : driveLog (exec (Navigation.avoidObstacleRight env) w)
               = driveLog w
                   ++ [Stop] ++ [TurnRight SPEED_TURN; Stop]
                   ++ [Forward SPEED_NORMAL] ++ [TurnLeft SPEED_TURN; Stop]
                   ++ (hugTrace env (echoReads w) k ++ [Stop])
                   ++ [TurnLeft SPEED_TURN; Stop] ++ [Forward SPEED_NORMAL]
                   ++ [TurnRight SPEED_TURN; Stop] ++ [Stop]).
  { rewrite Ex.
    rewrite driveLog_issue, driveLog_turn, driveLog_delay, driveLog_issue,
      driveLog_turn, Hl.
    cbn [Z.gtb Z.compare]. rewrite <- !app_assoc. reflexivity. }
  assert (Rf : echoReads (exec (Navigation.avoidObstacleRight env) w)
               = (echoReads w + k)%nat).
  { rewrite Ex.
    rewrite echoReads_issue, echoReads_turn, echoReads_delay, echoReads_issue,
      echoReads_turn. exact Hr. }
  exists (hugTrace env (echoReads w) k).
  split; [apply issuedBy_of_log; exact Lf|].
  split.
  { rewrite (issuedBy_of_log _ _ _ Lf).
    change (moves ([Stop] ++ [TurnRight SPEED_TURN; Stop]
                     ++ [Forward SPEED_NORMAL] ++ [TurnLeft SPEED_TURN; Stop]
                     ++ (hugTrace env (echoReads w) k ++ [Stop])
                     ++ [TurnLeft SPEED_TURN; Stop] ++ [Forward SPEED_NORMAL]
                     ++ [TurnRight SPEED_TURN; Stop] ++ [Stop])
            = [TurnRight SPEED_TURN; Forward SPEED_NORMAL; TurnLeft SPEED_TURN]
                ++ hugTrace env (echoReads w) k
                ++ [TurnLeft SPEED_TURN; Forward SPEED_NORMAL;
                    TurnRight SPEED_TURN]).
    rewrite !moves_app, (moves_hug _ Hall).
    change (moves [Stop]) with (@nil DriveCmd).
    change (moves [TurnRight SPEED_TURN; Stop]) with [TurnRight SPEED_TURN].
    change (moves [TurnLeft SPEED_TURN; Stop]) with [TurnLeft SPEED_TURN].
    change (moves [Forward SPEED_NORMAL]) with [Forward SPEED_NORMAL].
    rewrite !app_nil_r. cbn [app]. rewrite <- ?app_assoc. reflexivity. }
  split; [lia|].
  split; [exact Hall|].
  split; [exists k; repeat split; auto|].
  split; [|exact Ev].
  rewrite Lf. eexists. rewrite !app_assoc. reflexivity.
Qed.

(** ** Gripper and section-1 mission *)

Lemma eval_bind {A B : Type} (c : M A) (k : A -> M B) (w : World) :
  eval (x <- c ;; k x) w = eval (k (eval c w)) (exec c w).
Proof. unfold eval at 1. rewrite bind_run. reflexivity. Qed.

Lemma exec_bind {A B : Type} (c : M A) (k : A -> M B) (w : World) :
  exec (x <- c ;; k x) w = exec (k (eval c w)) (exec c w).
Proof. unfold exec at 1. rewrite bind_run. reflexivity. Qed.

Lemma pickup_holding (w : World) :
  eval Servos.isHolding (exec Servos.pickup w) = true.
Proof. reflexivity. Qed.

Lemma drop_not_holding (w : World) :
  eval Servos.isHolding (exec Servos.drop w) = false.
Proof. reflexivity. Qed.

Lemma transitionTo_state (s : Section1.State) (m : Section1.Mission) (w : World) :
  eval (Section1.transitionTo s m) w
  = Section1.set_stateStartTime (clock w) (Section1.set_currentState s m).
Proof. reflexivity. Qed.

Lemma processState_pickup (env : Env) (scratch : SensorData)
    (m : Section1.Mission) (w : World) :
  Section1.currentState m = Section1.STATE_PICKUP ->
  eval (Section1.processState env scratch m) w
  = Section1.set_stateStartTime (clock (exec Servos.pickup w))
      (Section1.set_currentState Section1.STATE_FIND_INTERSECTION m).
Proof.
  intros Hs. unfold Section1.processState. rewrite Hs.
  rewrite eval_seq, eval_bind.
  change (eval Servos.isHolding (exec Servos.pickup w)) with true.
  cbv iota. reflexivity.
Qed.

(** C10. The holding flag is what the last compound command stored:
    [isHolding] is true after every [pickup] and false after every [drop],
    from any state of the world and with no sensor consulted.  So the
    STATE_PICKUP case of section 1 always finds its guard true and moves to
    STATE_FIND_INTERSECTION, in the very pass of [loop] that ran the pickup
    sequence. *)
Theorem pickup_always_advances (env : Env) (scratch : SensorData)
    (m : Section1.Mission) (w : World) :
  Section1.currentState m = Section1.STATE_PICKUP ->
  Section1.halted m = false ->
  eval Servos.isHolding (exec Servos.pickup w) = true
  /\ eval Servos.isHolding (exec Servos.drop w) = false
  /\ Section1.currentState (eval (Section1.processState env scratch m) w)
     = Section1.STATE_FIND_INTERSECTION
  /\ Section1.currentState (eval (Section1.loop env scratch m) w)
     = Section1.STATE_FIND_INTERSECTION.
Proof.
  intros Hs Hh.
  split; [apply pickup_holding|].
  split; [apply drop_not_holding|].
  split; [rewrite (processState_pickup env scratch m w Hs); reflexivity|].
  unfold Section1.loop. rewrite Hh. rewrite eval_bind, eval_bind.
  set (m' := Section1.set_sensors _ m).
  set (w' := exec (Sensors.readAll env (Section1.sensors m)) w).
  assert (Hs' : Section1.currentState m' = Section1.STATE_PICKUP) by exact Hs.
  rewrite (processState_pickup env scratch m' w' Hs').
  cbn [Section1.halted Section1.set_stateStartTime Section1.set_currentState
       Section1.set_sensors m'].
  rewrite Hh. rewrite eval_seq. reflexivity.
Qed.

Lemma pickup_always_advances_example :
  Section1.currentState
    (eval (Section1.loop envSilent data0
             (missionIn Section1.STATE_PICKUP)) world0)
  = Section1.STATE_FIND_INTERSECTION.
Proof.
  apply (pickup_always_advances envSilent data0
           (missionIn Section1.STATE_PICKUP) world0); reflexivity.
Defined.

Lemma readAll_color (env : Env) (data : SensorData) (w : World) :
  detectedColor (eval (Sensors.readAll env data) w) = colorAt env (colorReads w).
Proof. reflexivity. Qed.

Lemma readAll_colorReads (env : Env) (data : SensorData) (w : World) :
  colorReads (exec (Sensors.readAll env data) w) = S (colorReads w).
Proof. reflexivity. Qed.

Lemma readAll_clock (env : Env) (data : SensorData) (w : World) :
  clock (exec (Sensors.readAll env data) w)
  = wrap_uint32 (wrap_uint32 (wrap_uint32 (clock w + 10) + 10) + 10).
Proof. reflexivity. Qed.

Lemma followColorLine_clock (data : SensorData) (T : Color) (w : World) :
  clock (exec (Navigation.followColorLine data T) w) = clock w.
Proof.
  unfold Navigation.followColorLine.
  destruct (obstacleDetected data); [reflexivity|].
  destruct (Color_eqb (detectedColor data) T); [reflexivity|].
  destruct (negb (Color_eqb (detectedColor data) COLOR_NONE) && negb false);
    [reflexivity|].
  rewrite !exec_seq, exec_bind.
  destruct (eval Navigation.getSearchCount _ >? 10); reflexivity.
Qed.

(** STATE_FOLLOW_GREEN is left on BLUE only. *)
Lemma processState_followGreen (env : Env) (scratch : SensorData)
    (m : Section1.Mission) (w : World) :
  Section1.currentState m = Section1.STATE_FOLLOW_GREEN ->
  detectedColor (Section1.sensors m) <> COLOR_BLUE ->
  eval (Section1.processState env scratch m) w = m.
Proof.
  intros Hs Hc. unfold Section1.processState. rewrite Hs.
  apply Color_eqb_neq in Hc. rewrite Hc.
  rewrite eval_bind, eval_bind, eval_seq. reflexivity.
Qed.

Lemma loop_followGreen (env : Env) (scratch : SensorData)
    (m : Section1.Mission) (w : World) :
  Section1.currentState m = Section1.STATE_FOLLOW_GREEN ->
  Section1.halted m = false ->
  colorAt env (colorReads w) <> COLOR_BLUE ->
  eval (Section1.loop env scratch m) w
  = Section1.set_sensors (eval (Sensors.readAll env (Section1.sensors m)) w) m.
Proof.
  intros Hs Hh Hc. unfold Section1.loop. rewrite Hh.
  rewrite eval_bind, eval_bind.
  rewrite processState_followGreen;
    [| exact Hs | cbn [Section1.sensors Section1.set_sensors];
                  rewrite readAll_color; exact Hc].
  cbn [Section1.halted Section1.set_sensors]. rewrite Hh.
  rewrite eval_seq. reflexivity.
Qed.

Lemma eval_run_succ (env : Env) (scratch : SensorData) (n : nat)
    (m : Section1.Mission) (w : World) :
  eval (Section1.run env scratch (S n) m) w
  = eval (Section1.run env scratch n (eval (Section1.loop env scratch m) w))
         (exec (Section1.loop env scratch m) w).
Proof. cbn [Section1.run]. apply eval_bind. Qed.

Lemma exec_run_succ (env : Env) (scratch : SensorData) (n : nat)
    (m : Section1.Mission) (w : World) :
  exec (Section1.run env scratch (S n) m) w
  = exec (Section1.run env scratch n (eval (Section1.loop env scratch m) w))
         (exec (Section1.loop env scratch m) w).
Proof. cbn [Section1.run]. apply exec_bind. Qed.

(** Without BLUE the mission never leaves STATE_FOLLOW_GREEN. *)
Lemma run_followGreen_stuck (env : Env) (scratch : SensorData) (n : nat) :
  (forall i, colorAt env i <> COLOR_BLUE) ->
  forall (m : Section1.Mission) (w : World),
    Section1.currentState m = Section1.STATE_FOLLOW_GREEN ->
    Section1.halted m = false ->
    Section1.currentState (eval (Section1.run env scratch n m) w)
    = Section1.STATE_FOLLOW_GREEN.
Proof.
  intros Hblue. induction n as [|n IH]; intros m w Hs Hh.
  - exact Hs.
  - rewrite eval_run_succ.
    rewrite (loop_followGreen env scratch m w Hs Hh (Hblue _)).
    apply IH; assumption.
Qed.

Lemma wrap_uint32_elapsed (c s a : Z) :
  wrap_uint32 (wrap_uint32 (c + a) - s) = wrap_uint32 (wrap_uint32 (c - s) + a).
Proof.
  unfold wrap_uint32.
  rewrite Zminus_mod_idemp_l, Zplus_mod_idemp_l. f_equal. lia.
Qed.

Lemma wrap_uint32_small (x : Z) :
  0 <= x < 4294967296 -> wrap_uint32 x = x.
Proof. intros H. unfold wrap_uint32. apply Z.mod_small. exact H. Qed.

Lemma wrap_uint32_range (x : Z) : 0 <= wrap_uint32 x < 4294967296.
Proof. unfold wrap_uint32. apply Z.mod_pos_bound. lia. Qed.

(** Time elapsed since [s] once [a] more milliseconds have been waited. *)
Lemma elapsed_after_delay (c s a e : Z) :
  wrap_uint32 (c - s) = e -> 0 <= a -> e + a < 4294967296 ->
  wrap_uint32 (wrap_uint32 (c + a) - s) = e + a.
Proof.
  intros He Ha Hlt. rewrite wrap_uint32_elapsed, He.
  apply wrap_uint32_small. pose proof (wrap_uint32_range (c - s)). lia.
Qed.

Lemma processState_toReupload_eval (env : Env) (scratch : SensorData)
    (m : Section1.Mission) (w : World) :
  Section1.currentState m = Section1.STATE_TO_REUPLOAD ->
  eval (Section1.processState env scratch m) w
  = if wrap_uint32 (clock w - Section1.stateStartTime m) >? 3000
    then Section1.set_stateStartTime (clock w)
           (Section1.set_currentState Section1.STATE_COMPLETE m)
    else m.
Proof.
  intros Hs. unfold Section1.processState. rewrite Hs.
  rewrite eval_seq, eval_bind.
  set (w1 := exec (Navigation.followColorLine _ _) w).
  assert (Hc : clock w1 = clock w) by apply followColorLine_clock.
  change (eval millis w1) with (clock w1).
  change (exec millis w1) with w1.
  rewrite Hc.
  destruct (wrap_uint32 (clock w - Section1.stateStartTime m) >? 3000).
  - rewrite eval_seq, transitionTo_state.
    change (clock (exec Motors.stop w1)) with (clock w1).
    rewrite Hc. reflexivity.
  - reflexivity.
Qed.

Lemma processState_toReupload_clock (env : Env) (scratch : SensorData)
    (m : Section1.Mission) (w : World) :
  Section1.currentState m = Section1.STATE_TO_REUPLOAD ->
  clock (exec (Section1.processState env scratch m) w) = clock w.
Proof.
  intros Hs. unfold Section1.processState. rewrite Hs.
  rewrite exec_seq, exec_bind.
  set (w1 := exec (Navigation.followColorLine _ _) w).
  assert (Hc : clock w1 = clock w) by apply followColorLine_clock.
  change (exec millis w1) with w1.
  destruct (wrap_uint32 (eval millis w1 - Section1.stateStartTime m) >? 3000).
  - rewrite exec_seq. exact Hc.
  - exact Hc.
Qed.

(** A pass of [loop] in STATE_TO_REUPLOAD, [e] ms after the state was
    entered: the three colour reads take 30 ms before the test, the pause
    that ends the pass 50 ms more. *)
Lemma loop_toReupload (env : Env) (scratch : SensorData)
    (m : Section1.Mission) (w : World) (e : Z) :
  Section1.currentState m = Section1.STATE_TO_REUPLOAD ->
  Section1.halted m = false ->
  wrap_uint32 (clock w - Section1.stateStartTime m) = e ->
  e + 80 < 4294967296 ->
  let m' := eval (Section1.loop env scratch m) w in
  let w' := exec (Section1.loop env scratch m) w in
  Section1.halted m' = false
  /\ (e + 30 > 3000 -> Section1.currentState m' = Section1.STATE_COMPLETE)
  /\ (e + 30 <= 3000 ->
      Section1.currentState m' = Section1.STATE_TO_REUPLOAD
      /\ Section1.stateStartTime m' = Section1.stateStartTime m
      /\ wrap_uint32 (clock w' - Section1.stateStartTime m) = e + 80).
Proof.
  intros Hs Hh He Hlt m' w'.
  pose proof (wrap_uint32_range (clock w - Section1.stateStartTime m)) as Hr.
  rewrite He in Hr.
  set (s := Section1.stateStartTime m) in *.
  set (data := eval (Sensors.readAll env (Section1.sensors m)) w).
  set (w1 := exec (Sensors.readAll env (Section1.sensors m)) w).
  set (m1 := Section1.set_sensors data m).
  assert (Hs1 : Section1.currentState m1 = Section1.STATE_TO_REUPLOAD) by exact Hs.
  assert (He1 : wrap_uint32 (clock w1 - s) = e + 30).
  { subst w1. rewrite readAll_clock.
    replace (e + 30) with (e + 10 + 10 + 10) by lia.
    apply elapsed_after_delay; [|lia|lia].
    apply elapsed_after_delay; [|lia|lia].
    apply elapsed_after_delay; [exact He|lia|lia]. }
  assert (Em : m' = eval (Section1.processState env scratch m1) w1).
  { subst m'. unfold Section1.loop. rewrite Hh.
    rewrite eval_bind, eval_bind. fold data. fold w1. fold m1.
    rewrite (processState_toReupload_eval env scratch m1 w1 Hs1).
    destruct (_ >? 3000); cbn [Section1.halted Section1.set_stateStartTime
      Section1.set_currentState Section1.set_sensors m1]; rewrite Hh;
      rewrite eval_seq; reflexivity. }
  assert (Ew : clock w' = wrap_uint32 (clock w1 + 50)).
  { subst w'. unfold Section1.loop. rewrite Hh.
    rewrite exec_bind, exec_bind. fold data. fold w1. fold m1.
    assert (Hh' : Section1.halted
                    (eval (Section1.processState env scratch m1) w1) = false).
    { rewrite (processState_toReupload_eval env scratch m1 w1 Hs1).
      destruct (_ >? 3000); exact Hh. }
    rewrite Hh'. rewrite exec_seq.
    change (exec (ret ?x) ?y) with y.
    change (clock (exec (delay TIME_LOOP_DELAY) ?y))
      with (wrap_uint32 (clock y + 50)).
    rewrite (processState_toReupload_clock env scratch m1 w1 Hs1).
    reflexivity. }
  rewrite Em, (processState_toReupload_eval env scratch m1 w1 Hs1).
  change (Section1.stateStartTime m1) with s. rewrite He1.
  destruct (Z.gtb_spec (e + 30) 3000) as [Hgt|Hle].
  - split; [exact Hh|]. split; [reflexivity | lia].
  - split; [exact Hh|]. split; [lia|]. intros _.
    split; [exact Hs|]. split; [reflexivity|].
    rewrite Ew. replace (e + 80) with (e + 30 + 50) by lia.
    apply elapsed_after_delay; [exact He1 | lia | lia].
Qed.

(** While fewer than 3000 ms have elapsed at the test, the mission stays
    in STATE_TO_REUPLOAD and every pass adds 80 ms. *)
Lemma run_toReupload_waits (env : Env) (scratch : SensorData) (n : nat) :
  forall (m : Section1.Mission) (w : World) (e : Z),
    Section1.currentState m = Section1.STATE_TO_REUPLOAD ->
    Section1.halted m = false ->
    wrap_uint32 (clock w - Section1.stateStartTime m) = e ->
    e + 80 * Z.of_nat n <= 3050 ->
    let m' := eval (Section1.run env scratch n m) w in
    let w' := exec (Section1.run env scratch n m) w in
    Section1.currentState m' = Section1.STATE_TO_REUPLOAD
    /\ Section1.halted m' = false
    /\ Section1.stateStartTime m' = Section1.stateStartTime m
    /\ wrap_uint32 (clock w' - Section1.stateStartTime m) = e + 80 * Z.of_nat n.
Proof.
  induction n as [|n IH]; intros m w e Hs Hh He Hle m' w'.
  - subst m' w'. cbn [Section1.run]. change (eval (ret m) w) with m.
    change (exec (ret m) w) with w. rewrite Z.mul_0_r, Z.add_0_r. auto.
  - rewrite Nat2Z.inj_succ in Hle |- *.
    pose proof (wrap_uint32_range (clock w - Section1.stateStartTime m)) as Hr.
    rewrite He in Hr.
    destruct (loop_toReupload env scratch m w e Hs Hh He ltac:(lia))
      as [Hh1 [_ Hstay]].
    destruct (Hstay ltac:(lia)) as [Hs1 [Ht1 He1]].
    subst m' w'. rewrite eval_run_succ, exec_run_succ.
    set (m1 := eval (Section1.loop env scratch m) w) in *.
    set (w1 := exec (Section1.loop env scratch m) w) in *.
    rewrite <- Ht1 in He1.
    destruct (IH m1 w1 (e + 80) Hs1 Hh1 He1 ltac:(lia)) as [A [B [C D]]].
    rewrite Ht1 in C, D.
    split; [exact A|]. split; [exact B|]. split; [exact C|].
    rewrite D. lia.
Qed.

Lemma run_snoc (env : Env) (scratch : SensorData) (n : nat) :
  forall (m : Section1.Mission) (w : World),
    eval (Section1.run env scratch (n + 1) m) w
    = eval (Section1.loop env scratch (eval (Section1.run env scratch n m) w))
           (exec (Section1.run env scratch n m) w).
Proof.
  induction n as [|n IH]; intros m w.
  - cbn [Nat.add]. rewrite eval_run_succ. reflexivity.
  - cbn [Nat.add]. rewrite eval_run_succ, IH, eval_run_succ, exec_run_succ.
    reflexivity.
Qed.

(** C6, as stated, fails in STATE_FOLLOW_GREEN: with a sensor suite that
    never reports a colour nor an echo the mission is still in that state
    after 100 passes, more than 60 s after it entered it, and it never
    leaves. *)
Lemma followGreen_has_no_fallback :
  Section1.currentState
    (eval (Section1.run envSilent data0 100
             (missionIn Section1.STATE_FOLLOW_GREEN)) world0)
  = Section1.STATE_FOLLOW_GREEN
  /\ clock (exec (Section1.run envSilent data0 100
                    (missionIn Section1.STATE_FOLLOW_GREEN)) world0)
     > 60000
  /\ ~ (exists n,
          Section1.currentState
            (eval (Section1.run envSilent data0 n
                     (missionIn Section1.STATE_FOLLOW_GREEN)) world0)
          <> Section1.STATE_FOLLOW_GREEN).
Proof.
  split; [vm_compute; reflexivity|].
  split; [vm_compute; reflexivity|].
  intros [n Hn]. apply Hn.
  apply run_followGreen_stuck; try reflexivity.
  intros i. discriminate.
Qed.

(** ** The fuel of [searchForLine] *)

(** What one unsuccessful iteration of the search loop does to the world. *)
Lemma searchForLineLoop_succ (env : Env) (fuel : nat) (targetColor : Color)
    (maxTime startTime : Z) (data : SensorData) (w : World) :
  Navigation.searchForLineLoop env (S fuel) targetColor maxTime startTime data w
  = if wrap_uint32 (clock w - startTime) <? maxTime then
      let data' := eval (Sensors.readAll env data) w in
      let w1 := exec (Sensors.readAll env data) w in
      if Color_eqb (detectedColor data') targetColor then (true, w1)
      else
        Navigation.searchForLineLoop env fuel targetColor maxTime startTime data'
          (exec (Motors.issue (pivotOf (searchDirection (nav w1))) ;;
                 delay 200 ;; Motors.stop ;;
                 Navigation.flipSearchDirection) w1)
    else (false, w).
Proof.
  cbn [Navigation.searchForLineLoop]. rewrite bind_run.
  change (eval millis w) with (clock w). change (exec millis w) with w.
  destruct (wrap_uint32 (clock w - startTime) <? maxTime); [|reflexivity].
  rewrite bind_run. cbv zeta.
  destruct (Color_eqb _ targetColor); [reflexivity|].
  rewrite bind_run.
  set (w1 := exec (Sensors.readAll env data) w).
  change (eval Navigation.getSearchDirection w1) with (searchDirection (nav w1)).
  change (exec Navigation.getSearchDirection w1) with w1.
  unfold pivotOf. rewrite !bind_run.
  destruct (searchDirection (nav w1) >? 0); reflexivity.
Qed.

(** Once [fuel] covers the time that is left, at 230 ms per iteration, more
    fuel changes nothing: the loop is over before it runs out. *)
Lemma searchForLineLoop_fuel (env : Env) (targetColor : Color)
    (maxTime startTime : Z) (fuel : nat) :
  forall (data : SensorData) (w : World) (extra : nat),
    maxTime <= 65535 ->
    maxTime - wrap_uint32 (clock w - startTime) < 230 * Z.of_nat fuel ->
    Navigation.searchForLineLoop env (fuel + extra) targetColor maxTime
      startTime data w
    = Navigation.searchForLineLoop env fuel targetColor maxTime startTime data w.
Proof.
  induction fuel as [|fuel IH]; intros data w extra Hmax Hleft.
  - cbn [Nat.add Navigation.searchForLineLoop].
    destruct extra as [|extra]; [reflexivity|].
    rewrite searchForLineLoop_succ.
    destruct (Z.ltb_spec (wrap_uint32 (clock w - startTime)) maxTime);
      [cbn in Hleft; lia | reflexivity].
  - cbn [Nat.add]. rewrite !searchForLineLoop_succ.
    destruct (Z.ltb_spec (wrap_uint32 (clock w - startTime)) maxTime) as [Hlt|];
      [|reflexivity].
    cbv zeta. destruct (Color_eqb _ targetColor); [reflexivity|].
    apply IH; [exact Hmax|].
    set (w1 := exec (Sensors.readAll env data) w).
    rewrite !exec_seq.
    change (clock (exec Navigation.flipSearchDirection ?x)) with (clock x).
    change (clock (exec Motors.stop ?x)) with (clock x).
    change (clock (exec (delay 200) ?x)) with (wrap_uint32 (clock x + 200)).
    change (clock (exec (Motors.issue ?c) ?x)) with (clock x).
    subst w1. rewrite readAll_clock.
    pose proof (wrap_uint32_range (clock w - startTime)) as Hr.
    rewrite (elapsed_after_delay _ startTime 200
               (wrap_uint32 (clock w - startTime) + 30)); [| |lia|lia].
    + rewrite Nat2Z.inj_succ in Hleft. lia.
    + replace (wrap_uint32 (clock w - startTime) + 30)
        with (wrap_uint32 (clock w - startTime) + 10 + 10 + 10) by lia.
      apply elapsed_after_delay; [|lia|lia].
      apply elapsed_after_delay; [|lia|lia].
      apply elapsed_after_delay; [reflexivity|lia|lia].
Qed.

(** The fuel [searchForLine] hands to its loop is enough for every
    [uint16_t] budget: the search answers the same with any larger fuel. *)
Lemma searchForLine_fuel_enough (env : Env) (data : SensorData)
    (targetColor : Color) (maxTime : Z) (w : World) (extra : nat) :
  0 <= maxTime <= 65535 ->
  Navigation.searchForLineLoop env (S (Z.to_nat maxTime) + extra) targetColor
    maxTime (clock w) data w
  = Navigation.searchForLine env data targetColor maxTime w.
Proof.
  intros Hmax. unfold Navigation.searchForLine. rewrite bind_run.
  change (eval millis w) with (clock w). change (exec millis w) with w.
  apply searchForLineLoop_fuel; [lia|].
  rewrite Z.sub_diag. change (wrap_uint32 0) with 0.
  rewrite Nat2Z.inj_succ, Z2Nat.id; lia.
Qed.


(** * Further properties of the code *)

(** ** Classifier *)

Lemma white_not_black (r g b : Z) :
  all_below_white r g b -> ~ all_above_black r g b.
Proof.
  unfold all_below_white, all_above_black, COLOR_FREQ_WHITE, COLOR_FREQ_BLACK.
  lia.
Qed.

Lemma detectColor_white_first (r g b : Z) :
  all_below_white r g b -> Sensors.detectColor r g b = COLOR_WHITE.
Proof.
  intros H. unfold Sensors.detectColor.
  rewrite (not_black_test r g b (white_not_black r g b H)).
  destruct H as [Hr [Hg Hb]].
  assert (Er : (r <? COLOR_FREQ_WHITE) = true) by (apply Z.ltb_lt; lia).
  assert (Eg : (g <? COLOR_FREQ_WHITE) = true) by (apply Z.ltb_lt; lia).
  assert (Eb : (b <? COLOR_FREQ_WHITE) = true) by (apply Z.ltb_lt; lia).
  rewrite Er, Eg, Eb. reflexivity.
Qed.

Lemma all_above_black_dec (r g b : Z) :
  {all_above_black r g b} + {~ all_above_black r g b}.
Proof.
  unfold all_above_black.
  destruct (Z_gt_dec r COLOR_FREQ_BLACK); [|right; tauto].
  destruct (Z_gt_dec g COLOR_FREQ_BLACK); [|right; tauto].
  destruct (Z_gt_dec b COLOR_FREQ_BLACK); [left; tauto | right; tauto].
Qed.

Lemma all_below_white_dec (r g b : Z) :
  {all_below_white r g b} + {~ all_below_white r g b}.
Proof.
  unfold all_below_white.
  destruct (Z_lt_dec r COLOR_FREQ_WHITE); [|right; tauto].
  destruct (Z_lt_dec g COLOR_FREQ_WHITE); [|right; tauto].
  destruct (Z_lt_dec b COLOR_FREQ_WHITE); [left; tauto | right; tauto].
Qed.

(** The third stage of the core classifier, reached when neither of the
    first two tests passes. *)
Lemma detectColor_third_stage (r g b : Z) :
  ~ all_above_black r g b -> ~ all_below_white r g b ->
  Sensors.detectColor r g b = first_channel qualifies_more_than r g b.
Proof.
  intros Hb Hw. unfold Sensors.detectColor, first_channel.
  rewrite (not_black_test _ _ _ Hb), (not_white_test _ _ _ Hw).
  rewrite !qualifies_more_than_code. reflexivity.
Qed.

(** X1. The six answers of [detectColor] partition the inputs: BLACK
    exactly when all three counts exceed 200, WHITE exactly when all three
    are below 50, a colour exactly when neither holds and its channel is
    lower than both others by more than 20 and below 150, NONE exactly
    when neither holds and no channel is. *)
Theorem detectColor_characterisation (r g b : Z) :
  (Sensors.detectColor r g b = COLOR_BLACK <-> all_above_black r g b)
  /\ (Sensors.detectColor r g b = COLOR_WHITE <-> all_below_white r g b)
  /\ (Sensors.detectColor r g b = COLOR_RED <->
      ~ all_above_black r g b /\ ~ all_below_white r g b
      /\ qualifies_more_than r g b = true)
  /\ (Sensors.detectColor r g b = COLOR_GREEN <->
      ~ all_above_black r g b /\ ~ all_below_white r g b
      /\ qualifies_more_than g r b = true)
  /\ (Sensors.detectColor r g b = COLOR_BLUE <->
      ~ all_above_black r g b /\ ~ all_below_white r g b
      /\ qualifies_more_than b r g = true)
  /\ (Sensors.detectColor r g b = COLOR_NONE <->
      ~ all_above_black r g b /\ ~ all_below_white r g b
      /\ qualifies_more_than r g b = false
      /\ qualifies_more_than g r b = false
      /\ qualifies_more_than b r g = false).
Proof.
  pose proof (white_not_black r g b) as Hwb.
  destruct (all_above_black_dec r g b) as [Hb|Hb].
  { rewrite (detectColor_black_first r g b Hb).
    repeat match goal with |- _ /\ _ => split end;
      (split; intros HH); try reflexivity; try discriminate; tauto. }
  destruct (all_below_white_dec r g b) as [Hw|Hw].
  { rewrite (detectColor_white_first r g b Hw).
    repeat match goal with |- _ /\ _ => split end;
      (split; intros HH); try reflexivity; try discriminate; tauto. }
  rewrite (detectColor_third_stage r g b Hb Hw). unfold first_channel.
  destruct (qualifies_more_than_exclusive r g b) as [Ex1 Ex2].
  destruct (qualifies_more_than r g b) eqn:Er.
  { destruct (Ex1 eq_refl) as [Eg Ebl]. rewrite Eg, Ebl.
    repeat match goal with |- _ /\ _ => split end;
      (split; intros HH); try reflexivity; try discriminate;
      try tauto; exfalso; intuition congruence. }
  destruct (qualifies_more_than g r b) eqn:Eg.
  { rewrite (Ex2 eq_refl).
    repeat match goal with |- _ /\ _ => split end;
      (split; intros HH); try reflexivity; try discriminate;
      try tauto; exfalso; intuition congruence. }
  destruct (qualifies_more_than b r g) eqn:Ebl;
    repeat match goal with |- _ /\ _ => split end;
      (split; intros HH); try reflexivity; try discriminate;
      try tauto; exfalso; intuition congruence.
Qed.

Lemma find_only_one {A : Type} (f : A -> bool) (c : A) (l : list A) :
  (forall x, f x = true -> x = c) -> In c l -> f c = true ->
  find f l = Some c.
Proof.
  intros Honly Hin Hc. induction l as [|x l IH]; [contradiction|].
  cbn [find]. destruct (f x) eqn:Ex.
  - rewrite (Honly x Ex). reflexivity.
  - destruct Hin as [->|Hin]; [congruence | exact (IH Hin)].
Qed.

Lemma find_none_of {A : Type} (f : A -> bool) (l : list A) :
  (forall x, f x = false) -> find f l = None.
Proof.
  intros H. induction l as [|x l IH]; [reflexivity|].
  cbn [find]. rewrite (H x). exact IH.
Qed.

(** X2. No two of the three channel tests can pass on the same input, so
    their order decides nothing: outside BLACK and WHITE the classifier
    answers what the third stage would answer with its tests taken in any
    order that contains RED, GREEN and BLUE. *)
Theorem detectColor_order_irrelevant (order : list Color) (r g b : Z) :
  In COLOR_RED order -> In COLOR_GREEN order -> In COLOR_BLUE order ->
  Sensors.detectColor r g b <> COLOR_BLACK ->
  Sensors.detectColor r g b <> COLOR_WHITE ->
  Sensors.detectColor r g b = rgbStageIn order r g b
  /\ (qualifies_more_than r g b = true ->
      qualifies_more_than g r b = false /\ qualifies_more_than b r g = false)
  /\ (qualifies_more_than g r b = true -> qualifies_more_than b r g = false).
Proof.
  intros Hr Hg Hbl Hnb Hnw.
  destruct (qualifies_more_than_exclusive r g b) as [Ex1 Ex2].
  split; [|split; assumption].
  pose proof (detectColor_not_white _ _ _ Hnb Hnw) as Hw.
  pose proof (detectColor_not_black _ _ _ Hnb) as Hb.
  rewrite (detectColor_third_stage r g b Hb Hw).
  unfold first_channel, rgbStageIn.
  destruct (qualifies_more_than r g b) eqn:Er.
  { destruct (Ex1 eq_refl) as [Eg Ebl].
    rewrite (find_only_one _ COLOR_RED); auto.
    intros [] Hx; cbn in Hx; congruence. }
  destruct (qualifies_more_than g r b) eqn:Eg.
  { pose proof (Ex2 eq_refl) as Ebl.
    rewrite (find_only_one _ COLOR_GREEN); auto.
    intros [] Hx; cbn in Hx; congruence. }
  destruct (qualifies_more_than b r g) eqn:Ebl.
  { rewrite (find_only_one _ COLOR_BLUE); auto.
    intros [] Hx; cbn in Hx; congruence. }
  rewrite find_none_of; [reflexivity|].
  intros []; cbn; auto.
Qed.

Lemma detectColor_order_irrelevant_example :
  Sensors.detectColor 50 150 150
  = rgbStageIn [COLOR_BLUE; COLOR_GREEN; COLOR_RED] 50 150 150.
Proof.
  apply (detectColor_order_irrelevant [COLOR_BLUE; COLOR_GREEN; COLOR_RED]
           50 150 150); cbn; try tauto; discriminate.
Defined.

(** X3. The classifier of the standalone section-3 sketch, which has no
    WHITE test, answers as the core classifier does on every input the core
    does not call WHITE; on an input the core calls WHITE it answers what
    the third stage gives, a colour or NONE. *)
Theorem standalone_classifier_agrees (r g b : Z) :
  (Sensors.detectColor r g b <> COLOR_WHITE ->
   ObstacleSection.readColor_classify r g b = Sensors.detectColor r g b)
  /\ (Sensors.detectColor r g b = COLOR_WHITE ->
      ObstacleSection.readColor_classify r g b
      = first_channel qualifies_more_than r g b
      /\ ObstacleSection.readColor_classify r g b <> COLOR_WHITE
      /\ ObstacleSection.readColor_classify r g b <> COLOR_BLACK).
Proof.
  assert (Hthird : ~ all_above_black r g b ->
                   ObstacleSection.readColor_classify r g b
                   = first_channel qualifies_more_than r g b).
  { intros Hb. unfold ObstacleSection.readColor_classify, first_channel.
    rewrite (not_black_test _ _ _ Hb), !qualifies_more_than_code.
    reflexivity. }
  split.
  - intros Hnw. destruct (all_above_black_dec r g b) as [Hb|Hb].
    + rewrite (detectColor_black_first r g b Hb).
      apply readColor_classify_black_first. exact Hb.
    + assert (Hw : ~ all_below_white r g b).
      { intros Hw. apply Hnw. apply detectColor_white_first. exact Hw. }
      rewrite (Hthird Hb), (detectColor_third_stage r g b Hb Hw). reflexivity.
  - intros Hw.
    assert (Hb : ~ all_above_black r g b).
    { intros Hb. rewrite (detectColor_black_first r g b Hb) in Hw.
      discriminate. }
    rewrite (Hthird Hb). split; [reflexivity|].
    unfold first_channel.
    destruct (qualifies_more_than r g b);
      [split; discriminate|].
    destruct (qualifies_more_than g r b);
      [split; discriminate|].
    destruct (qualifies_more_than b r g); split; discriminate.
Qed.

Lemma standalone_classifier_agrees_example :
  ObstacleSection.readColor_classify 60 150 150 = Sensors.detectColor 60 150 150
  /\ Sensors.detectColor 10 45 45 = COLOR_WHITE
  /\ ObstacleSection.readColor_classify 10 45 45 = COLOR_RED.
Proof.
  split; [|split; [reflexivity|]].
  - apply (proj1 (standalone_classifier_agrees 60 150 150)). discriminate.
  - destruct (proj2 (standalone_classifier_agrees 10 45 45) eq_refl) as [E _].
    rewrite E. reflexivity.
Defined.

(** ** Sensor reads *)

Lemma wrap_uint16_range (x : Z) : 0 <= wrap_uint16 x <= 65535.
Proof.
  unfold wrap_uint16. pose proof (Z.mod_pos_bound x 65536 ltac:(lia)). lia.
Qed.

Lemma timeoutTo999_range (x : Z) :
  0 <= x <= 65535 ->
  1 <= Sensors.timeoutTo999 x <= 65535
  /\ (x = 0 -> Sensors.timeoutTo999 x = 999)
  /\ (x <> 0 -> Sensors.timeoutTo999 x = x).
Proof.
  intros H. unfold Sensors.timeoutTo999.
  destruct (Z.eqb_spec x 0); repeat split; intros; try lia; congruence.
Qed.

(** X4. A snapshot produced by [readAll] is coherent: each raw count is
    the [uint16_t] value of its pulse, with 999 in place of the 0 of a
    time-out, so it lies in 1..65535 and is never 0; the colour is the
    classification of those three counts; the previous colour is the
    colour of the snapshot handed in, so that two reads in a row chain. *)
Theorem readAll_snapshot_coherent (env : Env) (data : SensorData) (w : World) :
  let n := colorReads w in
  let data' := eval (Sensors.readAll env data) w in
  let w' := exec (Sensors.readAll env data) w in
  redFreq data' = Sensors.timeoutTo999 (wrap_uint16 (redPulse env n))
  /\ greenFreq data' = Sensors.timeoutTo999 (wrap_uint16 (greenPulse env n))
  /\ blueFreq data' = Sensors.timeoutTo999 (wrap_uint16 (bluePulse env n))
  /\ 1 <= redFreq data' <= 65535
  /\ 1 <= greenFreq data' <= 65535
  /\ 1 <= blueFreq data' <= 65535
  /\ detectedColor data'
     = Sensors.detectColor (redFreq data') (greenFreq data') (blueFreq data')
  /\ previousColor data' = detectedColor data
  /\ previousColor (eval (Sensors.readAll env data') w') = detectedColor data'
  /\ (echoReads w' = S (echoReads w) /\ colorReads w' = S (colorReads w)
      /\ irReads w' = S (irReads w))
  /\ driveLog w' = driveLog w /\ nav w' = nav w /\ servos w' = servos w.
Proof.
  intros n data' w'.
  assert (Er : redFreq data'
               = Sensors.timeoutTo999 (wrap_uint16 (redPulse env n)))
    by reflexivity.
  assert (Eg : greenFreq data'
               = Sensors.timeoutTo999 (wrap_uint16 (greenPulse env n)))
    by reflexivity.
  assert (Eb : blueFreq data'
               = Sensors.timeoutTo999 (wrap_uint16 (bluePulse env n)))
    by reflexivity.
  split; [exact Er|]. split; [exact Eg|]. split; [exact Eb|].
  split; [rewrite Er; apply timeoutTo999_range, wrap_uint16_range|].
  split; [rewrite Eg; apply timeoutTo999_range, wrap_uint16_range|].
  split; [rewrite Eb; apply timeoutTo999_range, wrap_uint16_range|].
  repeat split.
Qed.

Lemma distanceOf_cases (duration : Z) :
  (duration = 0 -> Sensors.distanceOf duration = 999 # 1)
  /\ (duration <> 0 ->
      Sensors.distanceOf duration
      = ((inject_Z duration * ULTRA_SPEED_CM) / (2 # 1))%Q).
Proof.
  unfold Sensors.distanceOf.
  destruct (Z.eqb_spec duration 0); split; intros; congruence.
Qed.

(** The two distance thresholds of the approach, on the echo duration. *)
Lemma distanceOf_below (duration : Z) :
  (Sensors.obstacleOf (Sensors.distanceOf duration) = true
   <-> 1 <= duration <= 882)
  /\ (Qle_bool (Sensors.distanceOf duration) (inject_Z DIST_BOX_PICKUP) = true
      <-> duration <> 0 /\ duration <= 294)
  /\ (Qltb (Sensors.distanceOf duration) (inject_Z (DIST_BOX_PICKUP + 10)) = true
      <-> duration <> 0 /\ duration <= 882).
Proof.
  rewrite obstacleOf_iff, Qle_bool_iff, Qltb_lt.
  destruct (distanceOf_cases duration) as [H0 Hn].
  destruct (Z.eq_dec duration 0) as [E|E].
  - rewrite (H0 E). subst duration.
    unfold Qlt, Qle. cbn. lia.
  - rewrite (Hn E).
    unfold Qlt, Qle, Qdiv, Qmult, Qinv, inject_Z, ULTRA_SPEED_CM. cbn. lia.
Qed.

(** X5. In microseconds of echo: the obstacle flag is set exactly for
    pulses of 1 to 882 us, and then the distance of the snapshot lies
    strictly between 0 and 15 cm; it is never set for the 0 of a time-out
    nor for a pulse of 883 us or more. *)
Theorem obstacleDetected_pulse_window (env : Env) (data : SensorData) (w : World) :
  let duration := echoPulse env (echoReads w) in
  let data' := eval (Sensors.readAll env data) w in
  (obstacleDetected data' = true <-> 1 <= duration <= 882)
  /\ (obstacleDetected data' = true ->
      (0 < distance data' /\ distance data' < inject_Z DIST_OBSTACLE)%Q)
  /\ (duration <= 0 \/ 883 <= duration -> obstacleDetected data' = false).
Proof.
  intros duration data'.
  destruct (readAll_ultrasonic env data w) as [Hd Ho].
  fold data' in Hd, Ho. fold duration in Hd, Ho.
  destruct (distanceOf_below duration) as [Hobs _].
  rewrite Ho, Hd. split; [exact Hobs|]. split.
  - intros H. apply obstacleOf_iff. exact H.
  - intros H. apply not_true_is_false. intros Hc. apply Hobs in Hc. lia.
Qed.

(** ** Line following *)

(** X6. [followBlackLine] issues exactly one drive command on every
    snapshot and changes nothing else.  The command is stop exactly when
    an obstacle is flagged, which is also exactly when the result is
    OBSTACLE; the result is LOST exactly when there is no obstacle and both
    sensors are off the line, and then the command is the slow crawl;
    exchanging the two IR flags exchanges curveLeft and curveRight and
    keeps the result.  TARGET_FOUND and TIMEOUT are never returned. *)
Theorem followBlackLine_decisions (data : SensorData) (w : World) :
  exists (c : DriveCmd) (r : NavResult),
    Navigation.followBlackLine data w = (r, exec (Motors.issue c) w)
    /\ Navigation.followBlackLine (mirrorData data) w
       = (r, exec (Motors.issue (mirrorCmd c)) w)
    /\ (r = NAV_OBSTACLE <-> obstacleDetected data = true)
    /\ (c = Stop <-> obstacleDetected data = true)
    /\ (r = NAV_LOST <->
        obstacleDetected data = false /\ leftOnLine data = false
        /\ rightOnLine data = false)
    /\ (r = NAV_LOST -> c = Forward SPEED_SLOW)
    /\ (obstacleDetected data = false -> leftOnLine data = true ->
        rightOnLine data = true -> c = Forward SPEED_NORMAL)
    /\ (obstacleDetected data = false -> leftOnLine data = false ->
        rightOnLine data = true -> c = CurveRight SPEED_NORMAL)
    /\ r <> NAV_TARGET_FOUND /\ r <> NAV_TIMEOUT.
Proof.
  unfold Navigation.followBlackLine, mirrorData. cbn [obstacleDetected
    leftOnLine rightOnLine].
  destruct (obstacleDetected data), (leftOnLine data), (rightOnLine data);
    cbn [andb negb];
    (eexists; eexists; split; [reflexivity|]);
    (split; [reflexivity|]);
    repeat split; intros; try discriminate; try reflexivity;
    try tauto; try (exfalso; intuition congruence).
Qed.

Lemma followColorLine_lost_step (data : SensorData) (T : Color) (w : World) :
  lostSnapshot data -> T <> COLOR_NONE ->
  Navigation.followColorLine data T w
  = (lostOrContinue (wrap_uint8 (searchCount (nav w) + 1)),
     exec (Motors.forward SPEED_SLOW ;; Navigation.incrSearchCount) w).
Proof.
  intros [Ho Hn] HT. unfold Navigation.followColorLine, lostOrContinue.
  rewrite Ho, Hn.
  assert (E : Color_eqb COLOR_NONE T = false)
    by (apply Color_eqb_neq; congruence).
  rewrite E. cbn [Color_eqb negb andb].
  change (Color_eqb COLOR_NONE COLOR_NONE) with true. cbn [negb andb].
  unfold exec. cbn -[wrap_uint8 Z.gtb].
  destruct (wrap_uint8 (searchCount (nav w) + 1) >? 10); reflexivity.
Qed.

Lemma eval_colorTicks_cons (T : Color) (d : SensorData) (ds : list SensorData)
    (w : World) :
  eval (colorTicks T (d :: ds)) w
  = eval (Navigation.followColorLine d T) w
      :: eval (colorTicks T ds) (exec (Navigation.followColorLine d T) w).
Proof.
  unfold eval at 1. cbn [colorTicks]. rewrite !bind_run. reflexivity.
Qed.

Lemma exec_colorTicks_cons (T : Color) (d : SensorData) (ds : list SensorData)
    (w : World) :
  exec (colorTicks T (d :: ds)) w
  = exec (colorTicks T ds) (exec (Navigation.followColorLine d T) w).
Proof.
  unfold exec at 1. cbn [colorTicks]. rewrite !bind_run. reflexivity.
Qed.

Lemma wrap_uint8_succ (c k : Z) :
  wrap_uint8 (wrap_uint8 (c + 1) + k) = wrap_uint8 (c + (1 + k)).
Proof.
  unfold wrap_uint8. rewrite Zplus_mod_idemp_l. f_equal. lia.
Qed.

(** A streak of ticks without colour, from any value of the counter. *)
Lemma colorTicks_lost_streak (T : Color) (ds : list SensorData) :
  forall w : World,
    T <> COLOR_NONE ->
    Forall lostSnapshot ds ->
    eval (colorTicks T ds) w
    = map (fun i => lostOrContinue
                      (wrap_uint8 (searchCount (nav w) + Z.of_nat i)))
          (seq 1 (length ds))
    /\ searchCount (nav (exec (colorTicks T ds) w))
       = match length ds with
         | O => searchCount (nav w)
         | S _ => wrap_uint8 (searchCount (nav w) + Z.of_nat (length ds))
         end
    /\ searchDirection (nav (exec (colorTicks T ds) w)) = searchDirection (nav w)
    /\ driveLog (exec (colorTicks T ds) w)
       = driveLog w ++ repeat (Forward SPEED_SLOW) (length ds).
Proof.
  induction ds as [|d ds IH]; intros w HT Hall.
  - cbn. rewrite app_nil_r. auto.
  - inversion Hall as [|? ? Hd Hds]; subst.
    rewrite eval_colorTicks_cons, exec_colorTicks_cons.
    pose proof (followColorLine_lost_step d T w Hd HT) as Hstep.
    assert (He : eval (Navigation.followColorLine d T) w
                 = lostOrContinue (wrap_uint8 (searchCount (nav w) + 1)))
      by (unfold eval; rewrite Hstep; reflexivity).
    set (w1 := exec (Navigation.followColorLine d T) w).
    assert (Hw1 : w1 = exec (Motors.forward SPEED_SLOW ;;
                             Navigation.incrSearchCount) w)
      by (unfold w1, exec at 1; rewrite Hstep; reflexivity).
    assert (Hc1 : searchCount (nav w1) = wrap_uint8 (searchCount (nav w) + 1))
      by (rewrite Hw1; reflexivity).
    assert (Hd1 : searchDirection (nav w1) = searchDirection (nav w))
      by (rewrite Hw1; reflexivity).
    assert (Hl1 : driveLog w1 = driveLog w ++ [Forward SPEED_SLOW])
      by (rewrite Hw1; reflexivity).
    destruct (IH w1 HT Hds) as [Ie [Ic [Idir Il]]].
    rewrite He, Ie, Ic, Idir, Il, Hc1, Hd1, Hl1.
    cbn [length seq map]. rewrite <- (seq_shift (length ds) 1), map_map.
    split; [|split; [|split]].
    + f_equal. apply map_ext. intros i.
      rewrite wrap_uint8_succ. f_equal. f_equal. lia.
    + destruct (length ds) as [|n] eqn:En; [reflexivity|].
      rewrite wrap_uint8_succ. f_equal. lia.
    + reflexivity.
    + rewrite <- app_assoc. reflexivity.
Qed.

(** X7. Consecutive ticks of [followColorLine] that see no colour and no
    obstacle, after a reset of the counter: each tick crawls; ticks 1 to 10
    return CONTINUE and ticks 11 to 255 return LOST; the [uint8_t] counter
    then wraps, so that the 256th tick returns CONTINUE with the counter
    back at 0.  In general the i-th tick answers by the counter
    [(c + i) mod 256]. *)
Theorem followColorLine_lost_streak (T : Color) (ds : list SensorData) (w : World) :
  T <> COLOR_NONE ->
  Forall lostSnapshot ds ->
  searchCount (nav w) = 0 ->
  eval (colorTicks T ds) w
  = map (fun i => lostOrContinue (wrap_uint8 (Z.of_nat i))) (seq 1 (length ds))
  /\ ((length ds <= 255)%nat ->
      eval (colorTicks T ds) w
      = map (fun i => if (10 <? i)%nat then NAV_LOST else NAV_CONTINUE)
            (seq 1 (length ds))
      /\ searchCount (nav (exec (colorTicks T ds) w)) = Z.of_nat (length ds))
  /\ (length ds = 256%nat ->
      searchCount (nav (exec (colorTicks T ds) w)) = 0
      /\ nth 255 (eval (colorTicks T ds) w) NAV_TIMEOUT = NAV_CONTINUE)
  /\ issuedBy (colorTicks T ds) w = repeat (Forward SPEED_SLOW) (length ds).
Proof.
  intros HT Hall Hc.
  destruct (colorTicks_lost_streak T ds w HT Hall) as [Ie [Ic [_ Il]]].
  rewrite Hc in Ie, Ic. cbn [Z.add] in Ie.
  split; [exact Ie|]. split; [|split].
  - intros Hlen. split.
    + rewrite Ie. apply map_ext_in. intros i Hi. apply in_seq in Hi.
      unfold lostOrContinue.
      rewrite (Z.mod_small (Z.of_nat i) 256 ltac:(lia) : wrap_uint8 _ = _).
      destruct (Z.gtb_spec (Z.of_nat i) 10), (Nat.ltb_spec 10 i);
        try reflexivity; lia.
    + rewrite Ic. destruct (length ds) as [|n] eqn:En; [reflexivity|].
      cbn [Z.add]. unfold wrap_uint8. apply Z.mod_small. lia.
  - intros Hlen. split.
    + rewrite Ic, Hlen. reflexivity.
    + rewrite Ie, Hlen.
      rewrite (nth_indep _ NAV_TIMEOUT
                 (lostOrContinue (wrap_uint8 (Z.of_nat 0))))
        by (rewrite length_map, length_seq; lia).
      rewrite (map_nth (fun i => lostOrContinue (wrap_uint8 (Z.of_nat i)))).
      rewrite seq_nth by lia. reflexivity.
  - apply issuedBy_of_log. exact Il.
Qed.

Lemma lostSnapshot_repeat (n : nat) : Forall lostSnapshot (repeat lostData n).
Proof.
  induction n as [|n IH]; cbn [repeat]; constructor; auto.
  split; reflexivity.
Qed.

Lemma followColorLine_lost_streak_example :
  searchCount
    (nav (exec (colorTicks COLOR_GREEN (repeat lostData 256)) world0)) = 0
  /\ eval (colorTicks COLOR_GREEN (repeat lostData 12)) world0
     = repeat NAV_CONTINUE 10 ++ [NAV_LOST; NAV_LOST].
Proof.
  assert (HT : COLOR_GREEN <> COLOR_NONE) by discriminate.
  split.
  - destruct (followColorLine_lost_streak COLOR_GREEN (repeat lostData 256)
                world0 HT (lostSnapshot_repeat 256) eq_refl)
      as [_ [_ [H _]]].
    apply H. apply repeat_length.
  - destruct (followColorLine_lost_streak COLOR_GREEN (repeat lostData 12)
                world0 HT (lostSnapshot_repeat 12) eq_refl)
      as [_ [H _]].
    destruct H as [H _]; [rewrite repeat_length; lia|].
    rewrite H. reflexivity.
Defined.

(** ** Ring-centre search *)

Lemma ringBoundary_dec (data : SensorData) :
  {ringBoundary data} + {~ ringBoundary data}.
Proof.
  unfold ringBoundary.
  destruct (Color_eq_dec (detectedColor data) (previousColor data));
    [right; tauto|].
  destruct (Color_eq_dec (detectedColor data) COLOR_NONE);
    [right; tauto | left; tauto].
Qed.

Lemma ringBoundary_test (data : SensorData) :
  negb (Color_eqb (detectedColor data) (previousColor data))
  && negb (Color_eqb (detectedColor data) COLOR_NONE) = true
  <-> ringBoundary data.
Proof.
  unfold ringBoundary.
  rewrite andb_true_iff, !negb_true_iff, !Color_eqb_neq. reflexivity.
Qed.

Lemma no_ringBoundary_test (data : SensorData) :
  ~ ringBoundary data ->
  negb (Color_eqb (detectedColor data) (previousColor data))
  && negb (Color_eqb (detectedColor data) COLOR_NONE) = false.
Proof.
  intros Hb. apply not_true_is_false. intros E. apply Hb.
  apply ringBoundary_test. exact E.
Qed.

Lemma navigateToCenter_found (data : SensorData) (w : World) :
  ringBoundary data ->
  Navigation.navigateToCenter data w
  = (NAV_TARGET_FOUND,
     exec (Motors.forward SPEED_SLOW ;; delay 100 ;;
           Navigation.setSearchCount 0) w).
Proof.
  intros Hb. unfold Navigation.navigateToCenter.
  rewrite (proj2 (ringBoundary_test data) Hb). reflexivity.
Qed.

Lemma navigateToCenter_crawl (data : SensorData) (w : World) :
  ~ ringBoundary data ->
  wrap_uint8 (searchCount (nav w) + 1) <= 5 ->
  Navigation.navigateToCenter data w
  = (NAV_CONTINUE,
     exec (Motors.forward SPEED_SLOW ;; delay 100 ;;
           Navigation.incrSearchCount) w).
Proof.
  intros Hb Hc. unfold Navigation.navigateToCenter.
  rewrite (no_ringBoundary_test data Hb).
  unfold exec. cbn -[wrap_uint8 wrap_uint32 Z.gtb].
  destruct (Z.gtb_spec (wrap_uint8 (searchCount (nav w) + 1)) 5); [lia|].
  reflexivity.
Qed.

Lemma navigateToCenter_fan (data : SensorData) (w : World) :
  ~ ringBoundary data ->
  wrap_uint8 (searchCount (nav w) + 1) > 5 ->
  Navigation.navigateToCenter data w
  = (NAV_CONTINUE,
     exec (Motors.forward SPEED_SLOW ;; delay 100 ;;
           Navigation.incrSearchCount ;;
           Motors.issue (pivotOf (searchDirection (nav w))) ;;
           delay 200 ;;
           Motors.stop ;;
           Navigation.flipSearchDirection ;;
           Navigation.setSearchCount 0) w).
Proof.
  intros Hb Hc. unfold Navigation.navigateToCenter.
  rewrite (no_ringBoundary_test data Hb).
  destruct w as [clk er cr ir dl sl [d c l] sv].
  cbn [nav searchCount searchDirection] in *.
  fw_step.
  destruct (Z.gtb_spec (wrap_uint8 (c + 1)) 5); [|lia].
  destruct (d >? 0); reflexivity.
Qed.

(** X8. [navigateToCenter] returns TARGET_FOUND exactly on a ring
    boundary (a colour that differs from the previous one and is not
    NONE), and then it has only crawled, has reset the counter and has
    kept the search direction; otherwise it returns CONTINUE.  A counter
    within 0..5 before the call is within 0..5 after it, whatever the
    snapshot, so the pivot threshold is never overshot; OBSTACLE, LOST and
    TIMEOUT are never returned. *)
Theorem navigateToCenter_boundary_and_counter (data : SensorData) (w : World) :
  let r := eval (Navigation.navigateToCenter data) w in
  let w' := exec (Navigation.navigateToCenter data) w in
  (r = NAV_TARGET_FOUND <-> ringBoundary data)
  /\ (r = NAV_CONTINUE <-> ~ ringBoundary data)
  /\ (ringBoundary data ->
      issuedBy (Navigation.navigateToCenter data) w = [Forward SPEED_SLOW]
      /\ searchCount (nav w') = 0
      /\ searchDirection (nav w') = searchDirection (nav w))
  /\ (0 <= searchCount (nav w) <= 5 -> 0 <= searchCount (nav w') <= 5)
  /\ (~ ringBoundary data -> 0 <= searchCount (nav w) < 5 ->
      searchCount (nav w') = searchCount (nav w) + 1
      /\ issuedBy (Navigation.navigateToCenter data) w = [Forward SPEED_SLOW]).
Proof.
  intros r w'. subst r w'. unfold issuedBy, eval, exec.
  destruct (ringBoundary_dec data) as [Hb|Hb].
  - rewrite (navigateToCenter_found data w Hb). cbn [fst snd].
    unfold exec. cbn -[wrap_uint32]. rewrite skipn_app_exact.
    repeat match goal with |- _ /\ _ => split end;
      try match goal with |- _ <-> _ => split; intros HH end; intros; try reflexivity; try discriminate;
      try tauto; lia.
  - destruct (Z_le_gt_dec (wrap_uint8 (searchCount (nav w) + 1)) 5) as [Hc|Hc].
    + rewrite (navigateToCenter_crawl data w Hb Hc). cbn [fst snd].
      unfold exec. cbn -[wrap_uint8 wrap_uint32]. rewrite skipn_app_exact.
      pose proof (Z.mod_pos_bound (searchCount (nav w) + 1) 256 ltac:(lia))
        as Hr. fold (wrap_uint8 (searchCount (nav w) + 1)) in Hr.
      repeat match goal with |- _ /\ _ => split end;
        try match goal with |- _ <-> _ => split; intros HH end; intros; try reflexivity; try discriminate;
        try tauto; try lia.
      split; [|reflexivity]. unfold wrap_uint8. apply Z.mod_small. lia.
    + rewrite (navigateToCenter_fan data w Hb Hc). cbn [fst snd].
      unfold exec. cbn -[wrap_uint8 wrap_uint32 wrap_int8 pivotOf].
      repeat match goal with |- _ /\ _ => split end;
        try match goal with |- _ <-> _ => split; intros HH end; intros; try reflexivity; try discriminate;
        try tauto; try lia;
        exfalso; unfold wrap_uint8 in Hc;
        rewrite Z.mod_small in Hc by lia; lia.
Qed.

(** ** Timed turn *)

Lemma wrap_uint32_add (a b : Z) :
  wrap_uint32 (wrap_uint32 a + b) = wrap_uint32 (a + b).
Proof. unfold wrap_uint32. apply Zplus_mod_idemp_l. Qed.

Lemma turn_clock (degrees speed : Z) (w : World) :
  clock (exec (Navigation.turn degrees speed) w)
  = wrap_uint32
      (clock w + wrap_uint16 (Z.quot (Z.abs degrees * TIME_TURN_90) 90) + 50).
Proof.
  rewrite <- wrap_uint32_add. unfold Navigation.turn, exec.
  destruct (degrees >? 0); reflexivity.
Qed.

Lemma turn_time_linear (degrees : Z) :
  -11796 <= degrees <= 11796 ->
  wrap_uint16 (Z.quot (Z.abs degrees * TIME_TURN_90) 90)
  = Z.abs degrees * 500 / 90.
Proof.
  intros Hd. unfold TIME_TURN_90, wrap_uint16.
  rewrite Z.quot_div_nonneg by lia.
  apply Z.mod_small. split.
  - apply Z.div_pos; lia.
  - apply Z.div_lt_upper_bound; lia.
Qed.

(** X9. A timed turn of at most 11796 degrees either way issues one pivot,
    to the right exactly when [degrees] is positive, and one stop; it takes
    |degrees| * 500 / 90 ms (rounded down) and 50 ms of settling; it leaves
    the search state alone.  The opposite turn takes the same time, and
    issues the mirrored commands unless [degrees] is 0: a turn of 0 degrees
    is a pivot to the left of 0 ms. *)
Theorem turn_commands_and_time (degrees speed : Z) (w : World) :
  -11796 <= degrees <= 11796 ->
  issuedBy (Navigation.turn degrees speed) w
  = [if degrees >? 0 then TurnRight speed else TurnLeft speed; Stop]
  /\ clock (exec (Navigation.turn degrees speed) w)
     = wrap_uint32 (clock w + Z.abs degrees * 500 / 90 + 50)
  /\ clock (exec (Navigation.turn (- degrees) speed) w)
     = clock (exec (Navigation.turn degrees speed) w)
  /\ (degrees <> 0 ->
      issuedBy (Navigation.turn (- degrees) speed) w
      = map mirrorCmd (issuedBy (Navigation.turn degrees speed) w))
  /\ (degrees = 0 ->
      issuedBy (Navigation.turn degrees speed) w = [TurnLeft speed; Stop]
      /\ clock (exec (Navigation.turn degrees speed) w)
         = wrap_uint32 (clock w + 50))
  /\ nav (exec (Navigation.turn degrees speed) w) = nav w.
Proof.
  intros Hd.
  assert (Hi : forall d, issuedBy (Navigation.turn d speed) w
                = [if d >? 0 then TurnRight speed else TurnLeft speed; Stop]).
  { intros d. unfold issuedBy. rewrite (proj1 (turn_log d speed w)).
    apply skipn_app_exact. }
  rewrite !Hi, !turn_clock, Z.abs_opp, turn_time_linear by exact Hd.
  repeat match goal with |- _ /\ _ => split end; try reflexivity.
  - intros Hn.
    destruct (Z.gtb_spec degrees 0), (Z.gtb_spec (- degrees) 0);
      try reflexivity; lia.
  - intros ->. split; [reflexivity|]. cbn [Z.abs Z.mul Z.div].
    f_equal. change (0 / 90) with 0. lia.
  - apply (same_nav _ _ _ _ (proj2 (turn_log degrees speed w))).
Qed.

Lemma turn_commands_and_time_example :
  issuedBy (Navigation.turn 90 SPEED_TURN) world0 = [TurnRight SPEED_TURN; Stop]
  /\ clock (exec (Navigation.turn 90 SPEED_TURN) world0) = 550
  /\ issuedBy (Navigation.turn (-90) SPEED_TURN) world0
     = [TurnLeft SPEED_TURN; Stop].
Proof.
  destruct (turn_commands_and_time 90 SPEED_TURN world0 ltac:(lia))
    as (Hi & Hc & _ & Hm & _).
  split; [exact Hi|]. split; [exact Hc|].
  pose proof (Hm ltac:(lia)) as Hm'. rewrite Hi in Hm'. exact Hm'.
Defined.

(** ** Line search *)

(** The world after an iteration of the search that did not find the
    target: one more reading of each sensor, 230 ms later. *)
Lemma search_iteration_world (env : Env) (data : SensorData) (w : World) :
  let w1 := exec (Sensors.readAll env data) w in
  let w2 := exec (Motors.issue (pivotOf (searchDirection (nav w1))) ;;
                  delay 200 ;; Motors.stop ;;
                  Navigation.flipSearchDirection) w1 in
  colorReads w2 = S (colorReads w)
  /\ clock w2 = wrap_uint32 (clock w + 230)
  /\ searchDirection (nav w2) = wrap_int8 (searchDirection (nav w) * -1).
Proof.
  cbv zeta. rewrite !exec_seq. split; [reflexivity|]. split; [|reflexivity].
  change (clock (exec Navigation.flipSearchDirection ?x)) with (clock x).
  change (clock (exec Motors.stop ?x)) with (clock x).
  change (clock (exec (delay 200) ?x)) with (wrap_uint32 (clock x + 200)).
  change (clock (exec (Motors.issue ?c) ?x)) with (clock x).
  rewrite readAll_clock.
  repeat (rewrite wrap_uint32_add || rewrite <- Z.add_assoc).
  f_equal.
Qed.

Lemma searchForLineLoop_result (env : Env) (T : Color) (maxTime startTime : Z)
    (fuel : nat) :
  forall (data : SensorData) (w : World),
    maxTime <= 65535 ->
    maxTime - wrap_uint32 (clock w - startTime) < 230 * Z.of_nat fuel ->
    let c := Navigation.searchForLineLoop env fuel T maxTime startTime data in
    (eval c w = true
     <-> seenWithin env T (colorReads w)
           (wrap_uint32 (clock w - startTime)) maxTime)
    /\ (colorReads w <= colorReads (exec c w))%nat
    /\ 230 * (Z.of_nat (colorReads (exec c w)) - Z.of_nat (colorReads w))
       <= Z.max 0 (maxTime - wrap_uint32 (clock w - startTime) + 229).
Proof.
  induction fuel as [|fuel IH]; intros data w Hmax Hleft; cbv zeta.
  - cbn [Navigation.searchForLineLoop]. unfold eval, exec, ret. cbn [fst snd].
    split; [|split; [apply Nat.le_refl | lia]].
    split; [discriminate|]. intros (j & Hj & _). cbn in Hleft. lia.
  - unfold eval, exec. rewrite searchForLineLoop_succ.
    pose proof (wrap_uint32_range (clock w - startTime)) as Hr.
    destruct (Z.ltb_spec (wrap_uint32 (clock w - startTime)) maxTime)
      as [Hlt|Hge].
    + cbv zeta. rewrite readAll_color.
      destruct (Color_eqb (colorAt env (colorReads w)) T) eqn:E.
      * cbn [fst snd]. rewrite readAll_colorReads.
        split; [|split; [apply Nat.le_succ_diag_r | lia]].
        split; [|reflexivity]. intros _. exists 0%nat.
        rewrite Nat.add_0_r. split; [lia|]. apply Color_eqb_eq. exact E.
      * destruct (search_iteration_world env data w) as (Hc & Hk & _).
        cbv zeta in Hc, Hk.
        set (w2 := exec _ (exec (Sensors.readAll env data) w)) in *.
        assert (He : wrap_uint32 (clock w2 - startTime)
                     = wrap_uint32 (clock w - startTime) + 230).
        { rewrite Hk. apply elapsed_after_delay; [reflexivity|lia|lia]. }
        destruct (IH (eval (Sensors.readAll env data) w) w2 Hmax) as (Hi & Hl & Hb).
        { rewrite He, Nat2Z.inj_succ in *. lia. }
        cbv zeta in Hi, Hl, Hb. unfold eval, exec in Hi, Hl, Hb.
        rewrite He, Hc in *. unfold eval.
        split; [|split; [lia | lia]].
        rewrite Hi. split.
        -- intros (j & Hj & Hcol). exists (S j). split; [lia|].
           rewrite <- Hcol. f_equal. lia.
        -- intros ([|j] & Hj & Hcol).
           ++ rewrite Nat.add_0_r in Hcol. apply Color_eqb_neq in E.
              contradiction.
           ++ exists j. split; [lia|]. rewrite <- Hcol. f_equal. lia.
    + cbn [fst snd]. split; [|split; [apply Nat.le_refl | lia]].
      split; [discriminate|]. intros (j & Hj & _). lia.
Qed.

(** The readings of the search loop, whatever the clock does: every
    reading but the last one taken is not the target, and the last one
    is the target exactly when the loop answers true. *)
Lemma searchForLineLoop_readings (env : Env) (T : Color)
    (maxTime startTime : Z) (fuel : nat) :
  forall (data : SensorData) (w : World),
    let c := Navigation.searchForLineLoop env fuel T maxTime startTime data in
    exists n : nat,
      colorReads (exec c w) = (colorReads w + n)%nat
      /\ (forall j : nat, (S j < n)%nat ->
            colorAt env (colorReads w + j) <> T)
      /\ (eval c w = true
          <-> exists j : nat,
                n = S j /\ colorAt env (colorReads w + j) = T)
      /\ (fuel <> 0%nat ->
          wrap_uint32 (clock w - startTime) < maxTime -> (1 <= n)%nat).
Proof.
  induction fuel as [|fuel IH]; intros data w; cbv zeta.
  - exists 0%nat. cbn [Navigation.searchForLineLoop].
    unfold eval, exec, ret. cbn [fst snd]. rewrite Nat.add_0_r.
    split; [reflexivity|]. split; [intros j Hj; lia|].
    split; [|intros Hf; contradiction].
    split; [discriminate | intros (j & Hj & _); discriminate].
  - unfold eval, exec. rewrite searchForLineLoop_succ.
    destruct (Z.ltb_spec (wrap_uint32 (clock w - startTime)) maxTime)
      as [Hlt|Hge].
    + cbv zeta. rewrite readAll_color.
      destruct (Color_eqb (colorAt env (colorReads w)) T) eqn:E.
      * exists 1%nat. cbn [fst snd]. rewrite readAll_colorReads.
        split; [lia|]. split; [intros j Hj; lia|].
        split; [|intros _ _; lia].
        split; [|reflexivity]. intros _. exists 0%nat.
        rewrite Nat.add_0_r. split; [reflexivity|].
        apply Color_eqb_eq. exact E.
      * apply Color_eqb_neq in E.
        destruct (search_iteration_world env data w) as (Hc & _ & _).
        cbv zeta in Hc.
        set (w2 := exec _ (exec (Sensors.readAll env data) w)) in *.
        destruct (IH (eval (Sensors.readAll env data) w) w2)
          as (n & Hn & He & Hi & _).
        cbv zeta in Hn, He, Hi. unfold eval, exec in Hn, Hi.
        rewrite Hc in Hn, He, Hi.
        exists (S n). unfold eval.
        split; [rewrite Hn; lia|]. split; [|split; [|intros _ _; lia]].
        -- intros [|j] Hj.
           ++ rewrite Nat.add_0_r. exact E.
           ++ replace (colorReads w + S j)%nat with (S (colorReads w) + j)%nat
                by lia.
              apply He. lia.
        -- rewrite Hi. split.
           ++ intros (j & -> & Hcol). exists (S j). split; [reflexivity|].
              rewrite <- Hcol. f_equal. lia.
           ++ intros (j & Hj & Hcol). injection Hj as ->.
              destruct j as [|j].
              ** rewrite Nat.add_0_r in Hcol. contradiction.
              ** exists j. split; [reflexivity|].
                 rewrite <- Hcol. f_equal. lia.
    + exists 0%nat. cbn [fst snd]. rewrite Nat.add_0_r.
      split; [reflexivity|]. split; [intros j Hj; lia|].
      split; [|intros _ Hlt; lia].
      split; [discriminate | intros (j & Hj & _); discriminate].
Qed.

(** X10. A line search with a budget of [maxTime] ms (a [uint16_t])
    stops at the first reading that shows the target colour: of the
    readings it takes, every one before the last is not the target, and it
    answers true exactly when the last one is.  It takes at most
    ceil(maxTime / 230) readings, a pass of the loop pausing for 230 ms at
    least, and at least one when the budget exceeds 1 ms; what the
    uninitialised local snapshot holds does not matter; with a budget of 0
    it answers false and touches nothing. *)
Theorem searchForLine_first_target_reading (env : Env) (data : SensorData)
    (T : Color) (maxTime : Z) (w : World) :
  0 <= maxTime <= 65535 ->
  let c := Navigation.searchForLine env data T maxTime in
  exists n : nat,
    colorReads (exec c w) = (colorReads w + n)%nat
    /\ 230 * Z.of_nat n <= maxTime + 229
    /\ (1 < maxTime -> (1 <= n)%nat)
    /\ (forall j : nat, (S j < n)%nat ->
          colorAt env (colorReads w + j) <> T)
    /\ (eval c w = true
        <-> exists j : nat, n = S j /\ colorAt env (colorReads w + j) = T)
    /\ (maxTime = 0 -> c w = (false, w)).
Proof.
  intros Hmax. cbv zeta.
  destruct (searchForLineLoop_result env T maxTime (clock w)
              (S (Z.to_nat maxTime)) data w) as (_ & _ & Hb).
  { lia. }
  { rewrite Z.sub_diag. change (wrap_uint32 0) with 0.
    rewrite Nat2Z.inj_succ, Z2Nat.id; lia. }
  destruct (searchForLineLoop_readings env T maxTime (clock w)
              (S (Z.to_nat maxTime)) data w) as (n & Hn & He & Hi & H1).
  cbv zeta in Hb, Hn, He, Hi, H1.
  rewrite Z.sub_diag in Hb, H1. change (wrap_uint32 0) with 0 in Hb, H1.
  assert (Hs : Navigation.searchForLine env data T maxTime w
               = Navigation.searchForLineLoop env (S (Z.to_nat maxTime)) T
                   maxTime (clock w) data w).
  { unfold Navigation.searchForLine. rewrite bind_run. reflexivity. }
  exists n. unfold eval, exec in *. rewrite Hs.
  split; [exact Hn|]. split; [rewrite Hn in Hb; lia|].
  split; [intros Hm; apply H1; [discriminate | lia]|].
  split; [exact He|]. split; [exact Hi|].
  intros ->. rewrite searchForLineLoop_succ.
  rewrite Z.sub_diag. reflexivity.
Qed.

Lemma searchForLine_first_target_reading_example :
  eval (Navigation.searchForLine (envBlueAfter 0) data0 COLOR_BLUE 500) world0
  = true.
Proof.
  destruct (searchForLine_first_target_reading (envBlueAfter 0) data0
              COLOR_BLUE 500 world0 ltac:(lia))
    as (n & _ & _ & H1 & He & Hi & _).
  apply Hi. destruct n as [|[|n]].
  - specialize (H1 ltac:(lia)). lia.
  - exists 0%nat. split; reflexivity.
  - exfalso. apply (He 0%nat); [lia | reflexivity].
Defined.

(** ** Duration and footprint of the obstacle manoeuvre *)

Lemma sameBut_trans (l r : bool) (w1 w2 w3 : World) :
  sameBut l r w1 w2 -> sameBut l r w2 w3 -> sameBut l r w1 w3.
Proof.
  intros [a1 a2 a3 a4 a5 a6 a7] [b1 b2 b3 b4 b5 b6 b7].
  constructor; intros;
    try specialize (a1 H); try specialize (b1 H);
    try specialize (a4 H); try specialize (b4 H); congruence.
Qed.

Lemma sameBut_reads (l : bool) (w w' : World) :
  sameBut l false w w' -> sameBut l true w w'.
Proof. intros []. constructor; intros; try discriminate; auto. Qed.

Lemma sameBut_delay (l r : bool) (ms : Z) (w : World) :
  sameBut l r w (exec (delay ms) w).
Proof. constructor; intros; reflexivity. Qed.

Lemma clock_issue (c : DriveCmd) (w : World) :
  clock (exec (Motors.issue c) w) = clock w.
Proof. reflexivity. Qed.

Lemma clock_delay (ms : Z) (w : World) :
  clock (exec (delay ms) w) = wrap_uint32 (clock w + ms).
Proof. reflexivity. Qed.

(** The pauses of the wall-hug loop: one of 50 ms after every reading that
    does not leave the loop, so that [k] readings come with [k] or [k - 1]
    pauses. *)
Lemma wallHugLoop_time (env : Env) (n : nat) :
  forall w : World,
    exists p k : nat,
      echoReads (exec (Navigation.wallHugLoop env n) w) = (echoReads w + k)%nat
      /\ (k <= n)%nat /\ (p <= k <= p + 1)%nat
      /\ ((1 <= n)%nat -> (1 <= k)%nat)
      /\ wrap_uint32 (clock (exec (Navigation.wallHugLoop env n) w))
         = wrap_uint32 (clock w + 50 * Z.of_nat p)
      /\ (Navigation.hugStep (readingAt env (echoReads w)) = Navigation.HugBreak
          -> (k <= 1)%nat).
Proof.
  induction n as [|n IH]; intros w.
  - exists 0%nat, 0%nat. cbn [Navigation.wallHugLoop]. unfold exec, ret.
    cbn [snd]. rewrite Z.add_0_r, Nat.add_0_r.
    repeat split; auto; lia.
  - cbn [Navigation.wallHugLoop]. rewrite exec_bind_readDistance.
    set (w1 := set_echoReads (S (echoReads w)) w).
    fold (readingAt env (echoReads w)).
    destruct (Navigation.hugStep (readingAt env (echoReads w))) as [c| |] eqn:Es.
    + rewrite !exec_seq.
      destruct (IH (exec (delay 50) (exec (Motors.issue c) w1)))
        as (p & k & Hr & Hk & Hpk & _ & Hc & _).
      change (echoReads (exec (delay 50) (exec (Motors.issue c) w1)))
        with (S (echoReads w)) in Hr.
      exists (S p), (S k).
      split; [rewrite Hr; lia|]. split; [lia|]. split; [lia|].
      split; [intros _; lia|]. split; [|discriminate].
      rewrite Hc, clock_delay, clock_issue, wrap_uint32_add.
      f_equal. change (clock w1) with (clock w). lia.
    + rewrite !exec_seq.
      destruct (IH (exec (delay 50) w1))
        as (p & k & Hr & Hk & Hpk & _ & Hc & _).
      change (echoReads (exec (delay 50) w1)) with (S (echoReads w)) in Hr.
      exists (S p), (S k).
      split; [rewrite Hr; lia|]. split; [lia|]. split; [lia|].
      split; [intros _; lia|]. split; [|discriminate].
      rewrite Hc, clock_delay, wrap_uint32_add.
      f_equal. change (clock w1) with (clock w). lia.
    + exists 0%nat, 1%nat. unfold exec, ret. cbn [snd].
      change (echoReads w1) with (S (echoReads w)).
      change (clock w1) with (clock w). rewrite Z.add_0_r.
      repeat split; auto; lia.
Qed.

Lemma wallHugUntilClear_frame (env : Env) (maxSteps : Z) (w : World) :
  sameBut true true w (exec (Navigation.wallHugUntilClear env maxSteps) w).
Proof.
  unfold Navigation.wallHugUntilClear. rewrite exec_seq.
  destruct (wallHugLoop_run env (Z.to_nat maxSteps) w) as (k & _ & _ & _ & Hs).
  apply (sameBut_trans _ _ _ _ _ Hs).
  apply sameBut_reads. apply (proj2 (issue_log Stop _)).
Qed.

Lemma avoidObstacleRight_frame (env : Env) (w : World) :
  sameBut true true w (exec (Navigation.avoidObstacleRight env) w).
Proof.
  rewrite (proj1 (avoidObstacleRight_run env w)).
  repeat first
    [ apply sameBut_reads; apply (proj2 (issue_log _ _))
    | apply sameBut_reads; apply (proj2 (turn_log _ _ _))
    | apply sameBut_delay
    | apply wallHugUntilClear_frame
    | eapply sameBut_trans; [|apply sameBut_reads; apply (proj2 (issue_log _ _))]
    | eapply sameBut_trans; [|apply sameBut_reads; apply (proj2 (turn_log _ _ _))]
    | eapply sameBut_trans; [|apply sameBut_delay]
    | eapply sameBut_trans; [|apply wallHugUntilClear_frame] ].
Qed.

Lemma wallHugUntilClear_time (env : Env) (maxSteps : Z) (w : World) :
  exists p k : nat,
    echoReads (exec (Navigation.wallHugUntilClear env maxSteps) w)
    = (echoReads w + k)%nat
    /\ (k <= Z.to_nat maxSteps)%nat /\ (p <= k <= p + 1)%nat
    /\ ((1 <= Z.to_nat maxSteps)%nat -> (1 <= k)%nat)
    /\ wrap_uint32 (clock (exec (Navigation.wallHugUntilClear env maxSteps) w))
       = wrap_uint32 (clock w + 50 * Z.of_nat p)
    /\ (Navigation.hugStep (readingAt env (echoReads w)) = Navigation.HugBreak
        -> (k <= 1)%nat).
Proof.
  destruct (wallHugLoop_time env (Z.to_nat maxSteps) w)
    as (p & k & Hr & Hk & Hpk & H1 & Hc & Hb).
  exists p, k. unfold Navigation.wallHugUntilClear. rewrite exec_seq.
  unfold Motors.stop. rewrite clock_issue, echoReads_issue. auto 10.
Qed.

(** X11. The obstacle manoeuvre takes between 1 and 30 distance
    readings, all of them in its wall-hug step, and exactly one when that
    one already finds the way clear.  Its pauses add up to 3900 ms and
    50 ms more after every reading but possibly the last, so that with [k]
    readings at least 3900 + 50 (k - 1) ms have passed when it returns.
    Besides the clock, the reading count and the drive log it changes
    nothing: the search state, the gripper and the other sensors are as
    before. *)
Theorem avoidObstacleRight_duration_and_footprint (env : Env) (w : World) :
  let w' := exec (Navigation.avoidObstacleRight env) w in
  (exists k : nat,
      (1 <= k <= 30)%nat
      /\ echoReads w' = (echoReads w + k)%nat
      /\ 3900 + 50 * (Z.of_nat k - 1) <= wrap_uint32 (clock w' - clock w)
      /\ (Navigation.hugStep (readingAt env (echoReads w)) = Navigation.HugBreak
          -> k = 1%nat))
  /\ nav w' = nav w /\ servos w' = servos w /\ servoLog w' = servoLog w
  /\ colorReads w' = colorReads w /\ irReads w' = irReads w.
Proof.
  cbv zeta. split.
  - rewrite (proj1 (avoidObstacleRight_run env w)).
    remember (exec (Navigation.turn (-90) SPEED_TURN)
                (exec (delay 800)
                   (exec (Motors.issue (Forward SPEED_NORMAL))
                      (exec (Navigation.turn 90 SPEED_TURN)
                         (exec (delay 100) (exec (Motors.issue Stop) w))))))
      as W0 eqn:EW0.
    assert (Er : echoReads W0 = echoReads w).
    { subst W0.
      rewrite echoReads_turn, echoReads_delay, echoReads_issue, echoReads_turn,
        echoReads_delay, echoReads_issue. reflexivity. }
    assert (Ec : clock W0 = wrap_uint32 (clock w + 2000)).
    { subst W0.
      rewrite turn_clock, clock_delay, clock_issue, turn_clock, clock_delay,
        clock_issue.
      change (wrap_uint16 (Z.quot (Z.abs 90 * TIME_TURN_90) 90)) with 500.
      change (wrap_uint16 (Z.quot (Z.abs (-90) * TIME_TURN_90) 90)) with 500.
      repeat (rewrite wrap_uint32_add || rewrite <- Z.add_assoc).
      f_equal. }
    clear EW0.
    destruct (wallHugUntilClear_time env 30 W0)
      as (p & k & Hr & Hk & Hpk & H1 & Hc & Hb).
    change (Z.to_nat 30) with 30%nat in Hk, H1.
    specialize (H1 ltac:(lia)).
    rewrite Er in Hr, Hb. rewrite Ec, wrap_uint32_add in Hc.
    exists k. split; [lia|]. split; [|split].
    + rewrite echoReads_issue, echoReads_turn, echoReads_delay, echoReads_issue,
        echoReads_turn. exact Hr.
    + assert (Hclk : clock
                       (exec (Motors.issue Stop)
                          (exec (Navigation.turn 90 SPEED_TURN)
                             (exec (delay 800)
                                (exec (Motors.issue (Forward SPEED_NORMAL))
                                   (exec (Navigation.turn (-90) SPEED_TURN)
                                      (exec (Navigation.wallHugUntilClear env 30)
                                         W0))))))
                     = wrap_uint32 (clock w + (3900 + 50 * Z.of_nat p))).
      { rewrite clock_issue, turn_clock, clock_delay, clock_issue, turn_clock.
        change (wrap_uint16 (Z.quot (Z.abs 90 * TIME_TURN_90) 90)) with 500.
        change (wrap_uint16 (Z.quot (Z.abs (-90) * TIME_TURN_90) 90)) with 500.
        repeat (rewrite wrap_uint32_add || rewrite <- Z.add_assoc).
        rewrite <- wrap_uint32_add, Hc, wrap_uint32_add. f_equal. lia. }
      rewrite Hclk, wrap_uint32_elapsed, Z.sub_diag.
      change (wrap_uint32 0) with 0. rewrite Z.add_0_l.
      rewrite wrap_uint32_small by lia. lia.
    + intros Hbr. specialize (Hb Hbr). lia.
  - destruct (avoidObstacleRight_frame env w). auto.
Qed.

(** ** The search direction *)

Lemma searchForLineLoop_direction (env : Env) (T : Color)
    (maxTime startTime : Z) (fuel : nat) :
  forall (data : SensorData) (w : World),
    directionOk w ->
    directionOk
      (exec (Navigation.searchForLineLoop env fuel T maxTime startTime data) w).
Proof.
  induction fuel as [|fuel IH]; intros data w Hd.
  - exact Hd.
  - unfold exec. rewrite searchForLineLoop_succ.
    destruct (_ <? maxTime); [|exact Hd]. cbv zeta.
    destruct (Color_eqb _ T); [exact Hd|].
    apply IH. unfold directionOk.
    rewrite (proj2 (proj2 (search_iteration_world env data w))).
    apply flip_direction. exact Hd.
Qed.

(** X12. The search direction is 1 or -1 after [reset], and every
    primitive of the navigation module keeps it so: the line followers, the
    timed turn, the wall hug and the obstacle manoeuvre do not touch it,
    the ring search and the line search only flip it. *)
Theorem searchDirection_stays_unit (env : Env) (w : World) :
  directionOk w ->
  (forall data, directionOk (exec (Navigation.followBlackLine data) w))
  /\ (forall data T, directionOk (exec (Navigation.followColorLine data T) w))
  /\ (forall data, directionOk (exec (Navigation.navigateToCenter data) w))
  /\ (forall degrees speed,
        directionOk (exec (Navigation.turn degrees speed) w))
  /\ (forall maxSteps,
        directionOk (exec (Navigation.wallHugUntilClear env maxSteps) w))
  /\ directionOk (exec (Navigation.avoidObstacleRight env) w)
  /\ (forall data T maxTime,
        directionOk (exec (Navigation.searchForLine env data T maxTime) w))
  /\ directionOk (exec Navigation.reset w).
Proof.
  intros Hd. unfold directionOk in *.
  repeat match goal with |- _ /\ _ => split end.
  - intros data. unfold Navigation.followBlackLine, exec.
    destruct (obstacleDetected data), (leftOnLine data), (rightOnLine data);
      exact Hd.
  - intros data T. unfold Navigation.followColorLine, exec.
    destruct (obstacleDetected data); [exact Hd|].
    destruct (Color_eqb (detectedColor data) T); [exact Hd|].
    destruct (negb _ && negb _); [exact Hd|].
    cbn -[wrap_uint8 Z.gtb].
    destruct (_ >? 10); exact Hd.
  - intros data. unfold exec.
    destruct (ringBoundary_dec data) as [Hb|Hb].
    + rewrite (navigateToCenter_found data w Hb). exact Hd.
    + destruct (Z_le_gt_dec (wrap_uint8 (searchCount (nav w) + 1)) 5) as [Hc|Hc].
      * rewrite (navigateToCenter_crawl data w Hb Hc). exact Hd.
      * rewrite (navigateToCenter_fan data w Hb Hc).
        apply (flip_direction _ Hd).
  - intros degrees speed.
    rewrite (same_nav _ _ _ _ (proj2 (turn_log degrees speed w))). exact Hd.
  - intros maxSteps.
    rewrite (same_nav _ _ _ _ (wallHugUntilClear_frame env maxSteps w)).
    exact Hd.
  - rewrite (same_nav _ _ _ _ (avoidObstacleRight_frame env w)). exact Hd.
  - intros data T maxTime. unfold Navigation.searchForLine, exec.
    rewrite bind_run.
    apply (searchForLineLoop_direction env T maxTime _ _ _ _ Hd).
  - left. reflexivity.
Qed.

Lemma searchDirection_stays_unit_example :
  directionOk
    (exec (Navigation.searchForLine envSilent data0 COLOR_BLUE 1000) world0).
Proof.
  apply (searchDirection_stays_unit envSilent world0).
  left. reflexivity.
Defined.

(** ** Gripper bookkeeping *)

Lemma servoOp_bookkeeping (o : ServoOp) (w : World) :
  exists writes : list ServoWrite,
    servoLog (exec (servoOp o) w) = servoLog w ++ writes
    /\ trackedAngles (exec (servoOp o) w) = replayWrites writes (trackedAngles w)
    /\ holding (servos (exec (servoOp o) w))
       = holdingAfter [o] (holding (servos w))
    /\ nav (exec (servoOp o) w) = nav w
    /\ driveLog (exec (servoOp o) w) = driveLog w.
Proof.
  destruct w as [clk er cr ir dl sl nv [h ca aa]].
  destruct o; eexists; unfold exec, trackedAngles;
    cbn -[wrap_uint32]; rewrite <- ?app_assoc;
    (split; [reflexivity|]); repeat split.
Qed.

(** X13. Whatever sequence of gripper operations runs, the servo log only
    grows, and the angles the module tracks are the angles last written to
    each servo by the sequence (the angles tracked before, for a servo the
    sequence did not write to).  The [holding] flag is assigned by [init],
    [pickup] and [drop] only: opening the clamp or launching leaves it as
    it is.  The search state and the drive log are not touched. *)
Theorem servos_track_writes (os : list ServoOp) :
  forall w : World,
    exists writes : list ServoWrite,
      servoLog (exec (servoOps os) w) = servoLog w ++ writes
      /\ trackedAngles (exec (servoOps os) w)
         = replayWrites writes (trackedAngles w)
      /\ holding (servos (exec (servoOps os) w))
         = holdingAfter os (holding (servos w))
      /\ nav (exec (servoOps os) w) = nav w
      /\ driveLog (exec (servoOps os) w) = driveLog w.
Proof.
  induction os as [|o os IH]; intros w.
  - exists []. rewrite app_nil_r. repeat split.
  - cbn [servoOps]. rewrite exec_seq.
    destruct (servoOp_bookkeeping o w) as (l1 & H1 & H2 & H3 & H4 & H5).
    destruct (IH (exec (servoOp o) w)) as (l2 & G1 & G2 & G3 & G4 & G5).
    exists (l1 ++ l2).
    rewrite G1, G2, G3, G4, G5, H1, H2, H3, H4, H5.
    unfold replayWrites. rewrite fold_left_app, <- app_assoc.
    repeat split.
Qed.

(** ** The order of the mission states *)

Lemma transitionTo_run (s : Section1.State) (m : Section1.Mission) (w : World) :
  Section1.transitionTo s m w
  = (Section1.set_stateStartTime (clock w) (Section1.set_currentState s m),
     set_nav (mkNavState 1 0 (clock w)) w).
Proof. reflexivity. Qed.

(** [followColorLine] reports a lost line only on a snapshot without
    colour. *)
Lemma followColorLine_lost_none (data : SensorData) (T : Color) (w : World) :
  eval (Navigation.followColorLine data T) w = NAV_LOST ->
  detectedColor data = COLOR_NONE.
Proof.
  unfold Navigation.followColorLine, eval.
  destruct (obstacleDetected data); [discriminate|].
  destruct (Color_eqb (detectedColor data) T) eqn:ET; [discriminate|].
  destruct (Color_eqb (detectedColor data) COLOR_NONE) eqn:EN.
  - intros _. apply Color_eqb_eq. exact EN.
  - discriminate.
Qed.

Ltac split_if :=
  match goal with
  | |- context [if ?c then _ else _] => destruct c eqn:?
  end.

Ltac advance_by Es :=
  right; rewrite ?bind_run; unfold eval, exec; rewrite ?transitionTo_run;
  match goal with
  | |- context [set_nav _ ?W] => generalize W; intro
  end;
  cbn [fst snd ret Section1.currentState Section1.stateStartTime
       Section1.set_stateStartTime Section1.set_currentState
       Section1.set_searchDir Section1.set_searchAttempts
       nav clock set_nav nextState];
  rewrite ?Es; repeat split; discriminate.

Lemma processState_stays_or_advances (env : Env) (scratch : SensorData)
    (m : Section1.Mission) (w : World) :
  let m' := eval (Section1.processState env scratch m) w in
  let w' := exec (Section1.processState env scratch m) w in
  stayed m m' \/ advanced m m' w'.
Proof.
  cbv zeta. unfold eval, exec, stayed, advanced, Section1.processState.
  destruct (Section1.currentState m) eqn:Es.
  - left. exact Es.
  - rewrite bind_run. split_if; [advance_by Es | left; exact Es].
  - split_if; rewrite bind_run; [advance_by Es | left; exact Es].
  - rewrite !bind_run, pickup_holding. advance_by Es.
  - rewrite bind_run. split_if; [advance_by Es | left; exact Es].
  - split_if; [advance_by Es|].
    split_if; [|advance_by Es].
    rewrite !bind_run. split_if; [advance_by Es | left; exact Es].
  - rewrite bind_run.
    destruct (Color_eqb (detectedColor (Section1.sensors m)) COLOR_BLUE) eqn:EB.
    + destruct (NavResult_eq_dec _ NAV_LOST) as [El|El].
      * apply followColorLine_lost_none in El.
        apply Color_eqb_eq in EB. congruence.
      * advance_by Es.
    + left. rewrite !bind_run. exact Es.
  - advance_by Es.
  - rewrite !bind_run, drop_not_holding. cbn [negb]. advance_by Es.
  - rewrite !bind_run. split_if; [advance_by Es | left; exact Es].
  - left. rewrite bind_run. exact Es.
Qed.

Lemma eval_loop (env : Env) (scratch : SensorData) (m : Section1.Mission)
    (w : World) :
  eval (Section1.loop env scratch m) w
  = if Section1.halted m then m
    else eval (Section1.processState env scratch
                 (Section1.set_sensors
                    (eval (Sensors.readAll env (Section1.sensors m)) w) m))
           (exec (Sensors.readAll env (Section1.sensors m)) w).
Proof.
  unfold Section1.loop. destruct (Section1.halted m); [reflexivity|].
  rewrite eval_bind, eval_bind.
  destruct (Section1.halted _); reflexivity.
Qed.

Lemma stayed_or_advanced_index (m m' : Section1.Mission) (w' : World) :
  stayed m m' \/ advanced m m' w' ->
  (stateIndex (Section1.currentState m)
   <= stateIndex (Section1.currentState m')
   <= S (stateIndex (Section1.currentState m)))%nat
  /\ (Section1.currentState m = Section1.STATE_INIT ->
      Section1.currentState m' = Section1.STATE_INIT).
Proof.
  unfold stayed, advanced. intros [E | (Hi & Hc & E & _)]; rewrite E.
  - split; [lia | auto].
  - split; [|intros; contradiction].
    destruct (Section1.currentState m); cbn; try lia; contradiction.
Qed.

Lemma loop_index (env : Env) (scratch : SensorData) (m : Section1.Mission)
    (w : World) :
  let m' := eval (Section1.loop env scratch m) w in
  (stateIndex (Section1.currentState m)
   <= stateIndex (Section1.currentState m')
   <= S (stateIndex (Section1.currentState m)))%nat
  /\ (Section1.currentState m = Section1.STATE_INIT ->
      Section1.currentState m' = Section1.STATE_INIT).
Proof.
  cbv zeta. rewrite eval_loop.
  destruct (Section1.halted m); [split; [lia | auto]|].
  apply (stayed_or_advanced_index
           (Section1.set_sensors
              (eval (Sensors.readAll env (Section1.sensors m)) w) m) _
           (exec (Section1.processState env scratch
                    (Section1.set_sensors
                       (eval (Sensors.readAll env (Section1.sensors m)) w) m))
              (exec (Sensors.readAll env (Section1.sensors m)) w))).
  apply processState_stays_or_advances.
Qed.

Lemma run_index (env : Env) (scratch : SensorData) (n : nat) :
  forall (m : Section1.Mission) (w : World),
    (stateIndex (Section1.currentState m)
     <= stateIndex (Section1.currentState
                      (eval (Section1.run env scratch n m) w))
     <= stateIndex (Section1.currentState m) + n)%nat
    /\ (Section1.currentState m = Section1.STATE_INIT ->
        Section1.currentState (eval (Section1.run env scratch n m) w)
        = Section1.STATE_INIT).
Proof.
  induction n as [|n IH]; intros m w.
  - cbn [Section1.run]. unfold eval, ret. cbn [fst].
    split; [lia | auto].
  - rewrite eval_run_succ.
    destruct (loop_index env scratch m w) as (Hl & Hi). cbv zeta in Hl, Hi.
    destruct (IH (eval (Section1.loop env scratch m) w)
                 (exec (Section1.loop env scratch m) w)) as (Hr & Hj).
    split; [lia | auto].
Qed.

(** X14. The mission of section 1 walks its states in the order of the
    enumeration.  A pass of [processState] either leaves the state as it is
    or moves to the next state, and then the start time of the state is the
    clock and the search state is reset (direction 1, counter 0); a lost
    line and a state change never come together.  Over any number of loop
    passes the state never goes back and advances by at most one state per
    pass; STATE_INIT is never left by the loop, STATE_COMPLETE by
    nothing. *)
Theorem mission_states_in_order (env : Env) (scratch : SensorData) (n : nat) :
  forall (m : Section1.Mission) (w : World),
    let m1 := eval (Section1.processState env scratch m) w in
    let w1 := exec (Section1.processState env scratch m) w in
    let m' := eval (Section1.run env scratch n m) w in
    (stayed m m1 \/ advanced m m1 w1)
    /\ (stateIndex (Section1.currentState m)
        <= stateIndex (Section1.currentState m')
        <= stateIndex (Section1.currentState m) + n)%nat
    /\ (Section1.currentState m = Section1.STATE_INIT ->
        Section1.currentState m' = Section1.STATE_INIT)
    /\ (Section1.currentState m = Section1.STATE_COMPLETE ->
        Section1.currentState m' = Section1.STATE_COMPLETE).
Proof.
  intros m w. cbv zeta.
  split; [apply processState_stays_or_advances|].
  destruct (run_index env scratch n m w) as (Hr & Hi).
  split; [exact Hr|]. split; [exact Hi|].
  intros Hc. rewrite Hc in Hr. cbn [stateIndex] in Hr.
  destruct (Section1.currentState (eval (Section1.run env scratch n m) w));
    cbn [stateIndex] in Hr; try lia. reflexivity.
Qed.

(** ** The search at the intersection *)

(** A loop pass in STATE_SELECT_GREEN: the mission moves on, or stays
    with one more attempt counted. *)
Lemma loop_selectGreen (env : Env) (scratch : SensorData)
    (m : Section1.Mission) (w : World) :
  Section1.currentState m = Section1.STATE_SELECT_GREEN ->
  Section1.halted m = false ->
  0 <= Section1.searchAttempts m <= 255 ->
  let m' := eval (Section1.loop env scratch m) w in
  Section1.currentState m' = Section1.STATE_FOLLOW_GREEN
  \/ (Section1.currentState m' = Section1.STATE_SELECT_GREEN
      /\ Section1.halted m' = false
      /\ Section1.searchAttempts m < 4
      /\ Section1.searchAttempts m' = Section1.searchAttempts m + 1).
Proof.
  intros Hs Hh Ha. cbv zeta. rewrite eval_loop, Hh.
  set (w1 := exec (Sensors.readAll env (Section1.sensors m)) w).
  set (m1 := Section1.set_sensors _ m).
  assert (Hs1 : Section1.currentState m1 = Section1.STATE_SELECT_GREEN)
    by exact Hs.
  change (Section1.searchAttempts m) with (Section1.searchAttempts m1) in *.
  change (Section1.halted m) with (Section1.halted m1) in Hh.
  clearbody m1 w1. clear Hs m w.
  unfold Section1.processState, eval. rewrite Hs1.
  split_if; [left; reflexivity|].
  destruct (Z.ltb_spec (Section1.searchAttempts m1) 4) as [Hlt|Hge];
    [|left; rewrite bind_run; reflexivity].
  rewrite !bind_run. split_if; [left; rewrite bind_run; reflexivity|].
  right. cbn [fst ret Section1.currentState Section1.halted
              Section1.searchAttempts Section1.set_searchAttempts
              Section1.set_searchDir Section1.set_sensors].
  split; [exact Hs1|]. split; [exact Hh|]. split; [exact Hlt|].
  unfold wrap_uint8. apply Z.mod_small. lia.
Qed.

Lemma run_selectGreen (env : Env) (scratch : SensorData) (k : nat) :
  forall (m : Section1.Mission) (w : World),
    Section1.currentState m = Section1.STATE_SELECT_GREEN ->
    Section1.halted m = false ->
    0 <= Section1.searchAttempts m <= 255 ->
    4 - Section1.searchAttempts m < Z.of_nat (S k) ->
    (6 <= stateIndex (Section1.currentState
                        (eval (Section1.run env scratch (S k) m) w)))%nat.
Proof.
  induction k as [|k IH]; intros m w Hs Hh Ha Hk; rewrite eval_run_succ;
    destruct (loop_selectGreen env scratch m w Hs Hh Ha)
      as [Hf | (Hs' & Hh' & Hlt & Ha')]; cbv zeta in *.
  - cbn [Section1.run]. unfold eval at 1, ret. cbn [fst].
    rewrite Hf. cbn [stateIndex]. lia.
  - lia.
  - pose proof (proj1 (run_index env scratch (S k)
                         (eval (Section1.loop env scratch m) w)
                         (exec (Section1.loop env scratch m) w))) as Hr.
    rewrite Hf in Hr. cbn [stateIndex] in Hr. lia.
  - apply IH; [exact Hs' | exact Hh' | lia | lia].
Qed.

(** X15. The search for the green branch at the intersection is bounded:
    from STATE_SELECT_GREEN with [searchAttempts] attempts counted, the
    mission has left the state for STATE_FOLLOW_GREEN (or beyond) after
    5 - searchAttempts loop passes at the latest, whatever the sensors
    report; after five passes when the state is entered for the first
    time.  A pass that stays counts one more attempt. *)
Theorem selectGreen_leaves_within_five (env : Env) (scratch : SensorData)
    (m : Section1.Mission) (w : World) (k : nat) :
  Section1.currentState m = Section1.STATE_SELECT_GREEN ->
  Section1.halted m = false ->
  0 <= Section1.searchAttempts m <= 4 ->
  (5 <= Z.to_nat (Section1.searchAttempts m) + k)%nat ->
  (6 <= stateIndex (Section1.currentState
                      (eval (Section1.run env scratch k m) w)))%nat
  /\ (let m' := eval (Section1.loop env scratch m) w in
      Section1.currentState m' = Section1.STATE_SELECT_GREEN ->
      Section1.searchAttempts m' = Section1.searchAttempts m + 1).
Proof.
  intros Hs Hh Ha Hk. split.
  - destruct k as [|k]; [lia|].
    apply run_selectGreen; [exact Hs | exact Hh | lia | lia].
  - cbv zeta. intros Hs'.
    destruct (loop_selectGreen env scratch m w Hs Hh ltac:(lia))
      as [Hf | (_ & _ & _ & Ha')]; [|exact Ha'].
    cbv zeta in Hf. rewrite Hf in Hs'. discriminate.
Qed.

Lemma selectGreen_leaves_within_five_example :
  (6 <= stateIndex
          (Section1.currentState
             (eval (Section1.run envSilent data0 5
                      (missionIn Section1.STATE_SELECT_GREEN)) world0)))%nat.
Proof.
  apply (selectGreen_leaves_within_five envSilent data0
           (missionIn Section1.STATE_SELECT_GREEN) world0 5);
    [reflexivity | reflexivity | cbn; lia | cbn; lia].
Defined.

(** ** Finding and reaching the box *)

Lemma followBlackLine_obstacle_iff (data : SensorData) (w : World) :
  eval (Navigation.followBlackLine data) w = NAV_OBSTACLE
  <-> obstacleDetected data = true.
Proof.
  unfold Navigation.followBlackLine, eval.
  destruct (obstacleDetected data), (leftOnLine data), (rightOnLine data);
    cbn; split; intros H; try reflexivity; discriminate H.
Qed.

Lemma processState_followBlack (env : Env) (scratch : SensorData)
    (m : Section1.Mission) (w : World) :
  Section1.currentState m = Section1.STATE_FOLLOW_BLACK ->
  Section1.currentState (eval (Section1.processState env scratch m) w)
  = if obstacleDetected (Section1.sensors m)
       && Qltb (distance (Section1.sensors m)) (inject_Z (DIST_BOX_PICKUP + 10))
    then Section1.STATE_APPROACH_BOX
    else Section1.STATE_FOLLOW_BLACK.
Proof.
  intros Hs. unfold Section1.processState. rewrite Hs, eval_bind.
  destruct (NavResult_eq_dec _ NAV_OBSTACLE) as [E|E].
  - rewrite (proj1 (followBlackLine_obstacle_iff _ _) E).
    cbn [andb]. destruct (Qltb _ _); [reflexivity | exact Hs].
  - destruct (obstacleDetected (Section1.sensors m)) eqn:Eo.
    + exfalso. apply E. apply followBlackLine_obstacle_iff. exact Eo.
    + exact Hs.
Qed.

Lemma processState_followBlack_sensors (env : Env) (scratch : SensorData)
    (m : Section1.Mission) (w : World) :
  Section1.currentState m = Section1.STATE_FOLLOW_BLACK ->
  Section1.sensors (eval (Section1.processState env scratch m) w)
  = Section1.sensors m.
Proof.
  intros Hs. unfold Section1.processState. rewrite Hs, eval_bind.
  split_if; reflexivity.
Qed.

Lemma loop_driveLog (env : Env) (scratch : SensorData) (m : Section1.Mission)
    (w : World) :
  Section1.halted m = false ->
  driveLog (exec (Section1.loop env scratch m) w)
  = driveLog
      (exec (Section1.processState env scratch
               (Section1.set_sensors
                  (eval (Sensors.readAll env (Section1.sensors m)) w) m))
         (exec (Sensors.readAll env (Section1.sensors m)) w)).
Proof.
  intros Hh. unfold Section1.loop. rewrite Hh, exec_bind, exec_bind.
  split_if; reflexivity.
Qed.

Lemma processState_approachBox (env : Env) (scratch : SensorData)
    (m : Section1.Mission) (w : World) :
  Section1.currentState m = Section1.STATE_APPROACH_BOX ->
  Section1.currentState (eval (Section1.processState env scratch m) w)
  = (if Qle_bool (distance (Section1.sensors m)) (inject_Z DIST_BOX_PICKUP)
     then Section1.STATE_PICKUP
     else Section1.STATE_APPROACH_BOX)
  /\ issuedBy (Section1.processState env scratch m) w
     = [if Qle_bool (distance (Section1.sensors m)) (inject_Z DIST_BOX_PICKUP)
        then Stop else Forward SPEED_SLOW].
Proof.
  intros Hs. unfold Section1.processState, issuedBy, eval, exec. rewrite Hs.
  destruct (Qle_bool _ _); rewrite bind_run; cbn; rewrite ?Hs;
    rewrite skipn_app_exact; split; reflexivity.
Qed.

(** X16. The box is found and reached on the echo alone.  In
    STATE_FOLLOW_BLACK a loop pass moves to STATE_APPROACH_BOX exactly
    when the echo of the pass lasts between 1 and 882 us, the window in
    which an obstacle is detected: the distance test of the state adds
    nothing to it.  In STATE_APPROACH_BOX a pass moves to STATE_PICKUP
    exactly when the echo lasts between 1 and 294 us (5 cm or less);
    otherwise, also without any echo, it stays and keeps driving forward
    slowly. *)
Theorem box_found_and_reached_by_echo (env : Env) (scratch : SensorData)
    (m : Section1.Mission) (w : World) :
  Section1.halted m = false ->
  0 <= echoPulse env (echoReads w) ->
  let duration := echoPulse env (echoReads w) in
  let m' := eval (Section1.loop env scratch m) w in
  (Section1.currentState m = Section1.STATE_FOLLOW_BLACK ->
   (Section1.currentState m' = Section1.STATE_APPROACH_BOX
    <-> 1 <= duration <= 882)
   /\ (Section1.currentState m' = Section1.STATE_APPROACH_BOX
       <-> obstacleDetected (Section1.sensors m') = true))
  /\ (Section1.currentState m = Section1.STATE_APPROACH_BOX ->
      (Section1.currentState m' = Section1.STATE_PICKUP
       <-> 1 <= duration <= 294)
      /\ (~ 1 <= duration <= 294 ->
          Section1.currentState m' = Section1.STATE_APPROACH_BOX
          /\ exists pre,
               driveLog (exec (Section1.loop env scratch m) w)
               = pre ++ [Forward SPEED_SLOW])).
Proof.
  intros Hh Hd. cbv zeta.
  destruct (distanceOf_below (echoPulse env (echoReads w))) as (Hobs & Hle & Hlt).
  destruct (readAll_ultrasonic env (Section1.sensors m) w) as [Ed Eo].
  rewrite eval_loop, Hh.
  set (data := eval (Sensors.readAll env (Section1.sensors m)) w) in *.
  set (w1 := exec (Sensors.readAll env (Section1.sensors m)) w).
  set (m1 := Section1.set_sensors data m).
  split; intros Hs.
  - assert (Hs1 : Section1.currentState m1 = Section1.STATE_FOLLOW_BLACK)
      by exact Hs.
    rewrite (processState_followBlack_sensors env scratch m1 w1 Hs1),
      (processState_followBlack env scratch m1 w1 Hs1).
    change (Section1.sensors m1) with data. rewrite Ed, Eo.
    assert (Hb : Sensors.obstacleOf
                   (Sensors.distanceOf (echoPulse env (echoReads w)))
                 && Qltb (Sensors.distanceOf (echoPulse env (echoReads w)))
                      (inject_Z (DIST_BOX_PICKUP + 10))
                 = Sensors.obstacleOf
                     (Sensors.distanceOf (echoPulse env (echoReads w)))).
    { destruct (Sensors.obstacleOf _) eqn:E1; [|reflexivity].
      cbn [andb]. apply Hlt. assert (1 <= echoPulse env (echoReads w) <= 882)
        by (apply Hobs; reflexivity). lia. }
    rewrite Hb. destruct (Sensors.obstacleOf _) eqn:E1.
    + split; split; intros _; try reflexivity. apply Hobs. reflexivity.
    + split; split; intros H; try discriminate H.
      apply Hobs in H. discriminate H.
  - assert (Hs1 : Section1.currentState m1 = Section1.STATE_APPROACH_BOX)
      by exact Hs.
    destruct (processState_approachBox env scratch m1 w1 Hs1) as [Ec Ei].
    rewrite Ec. change (Section1.sensors m1) with data in *. rewrite Ed in *.
    destruct (Qle_bool _ _) eqn:E1.
    + assert (1 <= echoPulse env (echoReads w) <= 294)
        by (destruct (proj1 Hle eq_refl); lia).
      split; [split; intros _; [assumption | reflexivity]|].
      intros Hn. contradiction.
    + assert (~ 1 <= echoPulse env (echoReads w) <= 294).
      { intros Hc.
        assert (false = true) by (apply Hle; lia). discriminate. }
      split; [split; intros; [discriminate | contradiction]|].
      intros _. split; [reflexivity|].
      rewrite (loop_driveLog env scratch m w Hh). fold data w1 m1.
      exists (driveLog w1).
      unfold Section1.processState, exec. rewrite Hs1.
      change (Section1.sensors m1) with data. rewrite Ed, E1.
      rewrite bind_run. reflexivity.
Qed.

Lemma box_found_and_reached_by_echo_example :
  Section1.currentState
    (eval (Section1.loop envBox data0 (missionIn Section1.STATE_FOLLOW_BLACK))
       world0)
  = Section1.STATE_APPROACH_BOX
  /\ Section1.currentState
       (eval (Section1.loop envBox data0 (missionIn Section1.STATE_APPROACH_BOX))
          world0)
     = Section1.STATE_PICKUP.
Proof.
  split.
  - apply (proj1 (box_found_and_reached_by_echo envBox data0
                    (missionIn Section1.STATE_FOLLOW_BLACK) world0
                    eq_refl ltac:(cbn; lia)) eq_refl).
    cbn. lia.
  - apply (proj2 (box_found_and_reached_by_echo envBox data0
                    (missionIn Section1.STATE_APPROACH_BOX) world0
                    eq_refl ltac:(cbn; lia)) eq_refl).
    cbn. lia.
Defined.

(** ** The counters of the test framework *)

Lemma testCall_counts (t : TestCall) (c : TestFramework.Counters) :
  0 <= TestFramework.passed c -> 0 <= TestFramework.failed c ->
  0 <= TestFramework.skipped c ->
  TestFramework.currentTest c
  = TestFramework.passed c + TestFramework.failed c + TestFramework.skipped c ->
  TestFramework.currentTest c < 65535 ->
  let c' := testCall t c in
  TestFramework.currentTest c' = TestFramework.currentTest c + 1
  /\ TestFramework.passed c'
     = TestFramework.passed c + countOutcome Passed [t]
  /\ TestFramework.failed c'
     = TestFramework.failed c + countOutcome Failed [t]
  /\ TestFramework.skipped c'
     = TestFramework.skipped c + countOutcome Skipped [t].
Proof.
  intros Hp Hf Hs Hsum Hlt. cbv zeta.
  assert (W : forall x, 0 <= x < 65535 -> wrap_uint16 (x + 1) = x + 1).
  { intros x Hx. unfold wrap_uint16. apply Z.mod_small. lia. }
  destruct c as [n p f s]. cbn [TestFramework.currentTest TestFramework.passed
    TestFramework.failed TestFramework.skipped] in *.
  unfold countOutcome.
  destruct t as [b | e a | v lo hi |]; cbn [testCall outcome filter].
  - unfold TestFramework.assert, TestFramework.record.
    destruct b; cbn -[wrap_uint16]; rewrite !W by lia; repeat split; lia.
  - unfold TestFramework.assertEqual, TestFramework.record.
    destruct (e =? a); cbn -[wrap_uint16]; rewrite !W by lia;
      repeat split; lia.
  - unfold TestFramework.assertRange, TestFramework.record.
    rewrite Z.geb_leb.
    destruct ((lo <=? v) && (v <=? hi)); cbn -[wrap_uint16];
      rewrite !W by lia; repeat split; lia.
  - unfold TestFramework.skip. cbn -[wrap_uint16].
    rewrite !W by lia. repeat split; lia.
Qed.

Lemma countOutcome_cons (o : Outcome) (t : TestCall) (ts : list TestCall) :
  countOutcome o (t :: ts) = countOutcome o [t] + countOutcome o ts.
Proof.
  unfold countOutcome. cbn [filter].
  destruct (Outcome_eqb (outcome t) o); cbn [length]; lia.
Qed.

Lemma countOutcome_range (o : Outcome) (ts : list TestCall) :
  0 <= countOutcome o ts <= Z.of_nat (length ts).
Proof.
  unfold countOutcome. pose proof (filter_length_le
    (fun t => Outcome_eqb (outcome t) o) ts). lia.
Qed.

Lemma countOutcome_single (o : Outcome) (t : TestCall) :
  countOutcome o [t] = if Outcome_eqb (outcome t) o then 1 else 0.
Proof.
  unfold countOutcome. cbn [filter].
  destruct (Outcome_eqb (outcome t) o); reflexivity.
Qed.

Lemma countOutcome_one (t : TestCall) :
  countOutcome Passed [t] + countOutcome Failed [t] + countOutcome Skipped [t]
  = 1.
Proof.
  unfold countOutcome. cbn [filter]. destruct (outcome t); reflexivity.
Qed.

Lemma testCalls_counts (ts : list TestCall) :
  forall c : TestFramework.Counters,
    0 <= TestFramework.passed c -> 0 <= TestFramework.failed c ->
    0 <= TestFramework.skipped c ->
    TestFramework.currentTest c
    = TestFramework.passed c + TestFramework.failed c
      + TestFramework.skipped c ->
    TestFramework.currentTest c + Z.of_nat (length ts) < 65536 ->
    let c' := testCalls ts c in
    TestFramework.currentTest c'
    = TestFramework.currentTest c + Z.of_nat (length ts)
    /\ TestFramework.passed c'
       = TestFramework.passed c + countOutcome Passed ts
    /\ TestFramework.failed c'
       = TestFramework.failed c + countOutcome Failed ts
    /\ TestFramework.skipped c'
       = TestFramework.skipped c + countOutcome Skipped ts.
Proof.
  induction ts as [|t ts IH]; intros c Hp Hf Hs Hsum Hlt; cbv zeta.
  - cbn. unfold countOutcome. cbn. repeat split; lia.
  - cbn [length] in Hlt. rewrite Nat2Z.inj_succ in Hlt.
    destruct (testCall_counts t c Hp Hf Hs Hsum ltac:(lia))
      as (E1 & E2 & E3 & E4). cbv zeta in E1, E2, E3, E4.
    pose proof (countOutcome_range Passed [t]).
    pose proof (countOutcome_range Failed [t]).
    pose proof (countOutcome_range Skipped [t]).
    pose proof (countOutcome_one t) as Hone.
    destruct (IH (testCall t c)) as (G1 & G2 & G3 & G4); try lia.
    cbv zeta in G1, G2, G3, G4.
    change (testCalls (t :: ts) c) with (testCalls ts (testCall t c)).
    rewrite G1, G2, G3, G4, E1, E2, E3, E4.
    rewrite (countOutcome_cons Passed t ts), (countOutcome_cons Failed t ts),
      (countOutcome_cons Skipped t ts).
    cbn [length]. rewrite Nat2Z.inj_succ. repeat split; lia.
Qed.

(** X17. The test framework counts right as long as fewer than 65536 calls
    are made after a reset: the total is the number of calls, each of the
    three other counters is the number of calls with its outcome (an
    equality assertion passes on equal values, a range assertion on a value
    within the closed range), the total is the sum of the three, the
    percentage of the summary lies between 0 and 100, and the summary
    reports that all tests passed exactly when no call failed. *)
Theorem testFramework_counts (ts : list TestCall) (c0 : TestFramework.Counters) :
  Z.of_nat (length ts) < 65536 ->
  let c := testCalls ts (TestFramework.reset c0) in
  TestFramework.getResults c
  = (Z.of_nat (length ts), countOutcome Passed ts, countOutcome Failed ts,
     countOutcome Skipped ts)
  /\ TestFramework.currentTest c
     = TestFramework.passed c + TestFramework.failed c
       + TestFramework.skipped c
  /\ 0 <= TestFramework.summaryPercent c <= 100
  /\ (TestFramework.summaryAllPassed c = true
      <-> Forall (fun t => outcome t <> Failed) ts).
Proof.
  intros Hlen. cbv zeta.
  destruct (testCalls_counts ts (TestFramework.reset c0)
              (Z.le_refl 0) (Z.le_refl 0) (Z.le_refl 0) eq_refl Hlen)
    as (E1 & E2 & E3 & E4).
  cbv zeta in E1, E2, E3, E4.
  change (TestFramework.currentTest (TestFramework.reset c0)) with 0 in E1.
  change (TestFramework.passed (TestFramework.reset c0)) with 0 in E2.
  change (TestFramework.failed (TestFramework.reset c0)) with 0 in E3.
  change (TestFramework.skipped (TestFramework.reset c0)) with 0 in E4.
  rewrite Z.add_0_l in E1, E2, E3, E4.
  pose proof (countOutcome_range Passed ts) as Rp.
  pose proof (countOutcome_range Failed ts) as Rf.
  pose proof (countOutcome_range Skipped ts) as Rs.
  assert (Hsum : Z.of_nat (length ts)
                 = countOutcome Passed ts + countOutcome Failed ts
                   + countOutcome Skipped ts).
  { clear. induction ts as [|t ts IH]; [reflexivity|].
    rewrite (countOutcome_cons Passed t ts), (countOutcome_cons Failed t ts),
      (countOutcome_cons Skipped t ts).
    cbn [length]. rewrite Nat2Z.inj_succ, IH.
    pose proof (countOutcome_one t). lia. }
  split; [unfold TestFramework.getResults; rewrite E1, E2, E3, E4; reflexivity|].
  split; [rewrite E1, E2, E3, E4; exact Hsum|].
  split.
  - unfold TestFramework.summaryPercent. rewrite E1, E2.
    rewrite Z.quot_div_nonneg by lia. split.
    + apply Z.div_pos; lia.
    + apply Z.div_le_upper_bound; lia.
  - unfold TestFramework.summaryAllPassed. rewrite E3, Z.eqb_eq.
    clear. induction ts as [|t ts IH].
    + split; [constructor | reflexivity].
    + rewrite (countOutcome_cons Failed t ts).
      pose proof (countOutcome_range Failed ts).
      pose proof (countOutcome_range Failed [t]).
      split.
      * intros H1. constructor; [|apply IH; lia].
        intros Hc. rewrite countOutcome_single, Hc in H1.
        cbn [Outcome_eqb] in H1. lia.
      * intros Hall. inversion Hall as [|? ? Ht Hts]; subst.
        apply IH in Hts. rewrite Hts, countOutcome_single.
        destruct (outcome t); [reflexivity | contradiction | reflexivity].
Qed.

Lemma testFramework_counts_example :
  TestFramework.getResults
    (testCalls [CallAssert true; CallAssertEqual 3 4; CallAssertRange 5 0 10;
                CallSkip]
       (TestFramework.reset (TestFramework.mkCounters 7 7 7 7)))
  = (4, 2, 1, 1).
Proof.
  exact (proj1 (testFramework_counts
                  [CallAssert true; CallAssertEqual 3 4; CallAssertRange 5 0 10;
                   CallSkip] (TestFramework.mkCounters 7 7 7 7)
                  ltac:(cbn; lia))).
Defined.

(** ** Section 2: the rings of the target *)

Lemma transitionTo2_run (s : Section2.State) (m : Section2.Mission) (w : World) :
  Section2.transitionTo s m w
  = (Section2.mkMission s (Section2.sensors m) (clock w) (Section2.halted m),
     set_nav (mkNavState 1 0 (clock w)) w).
Proof. reflexivity. Qed.

Lemma navigateToCenter_found_iff (data : SensorData) (w : World) :
  eval (Navigation.navigateToCenter data) w = NAV_TARGET_FOUND
  <-> ringBoundary data.
Proof.
  unfold eval. destruct (ringBoundary_dec data) as [Hb|Hb].
  - rewrite (navigateToCenter_found data w Hb). tauto.
  - destruct (Z_le_gt_dec (wrap_uint8 (searchCount (nav w) + 1)) 5) as [Hc|Hc].
    + rewrite (navigateToCenter_crawl data w Hb Hc).
      split; [discriminate | contradiction].
    + rewrite (navigateToCenter_fan data w Hb Hc).
      split; [discriminate | contradiction].
Qed.

Lemma eval_ret {A : Type} (a : A) (w : World) : eval (ret a) w = a.
Proof. reflexivity. Qed.

Lemma exec_ret {A : Type} (a : A) (w : World) : exec (ret a) w = w.
Proof. reflexivity. Qed.

Lemma eval_millis (w : World) : eval millis w = clock w.
Proof. reflexivity. Qed.

Lemma exec_millis (w : World) : exec millis w = w.
Proof. reflexivity. Qed.

Lemma eval_transitionTo2 (s : Section2.State) (m : Section2.Mission)
    (w : World) :
  eval (Section2.transitionTo s m) w
  = Section2.mkMission s (Section2.sensors m) (clock w) (Section2.halted m).
Proof. reflexivity. Qed.

Lemma exec_transitionTo2 (s : Section2.State) (m : Section2.Mission)
    (w : World) :
  exec (Section2.transitionTo s m) w = set_nav (mkNavState 1 0 (clock w)) w.
Proof. reflexivity. Qed.

(** Runs a case of [processState] down to its outcomes. *)
Ltac run2 :=
  repeat first
    [ rewrite eval_bind | rewrite exec_bind
    | rewrite eval_transitionTo2 | rewrite exec_transitionTo2
    | rewrite eval_ret | rewrite exec_ret
    | rewrite eval_millis | rewrite exec_millis
    | split_if ].

Ltac abstract_worlds :=
  repeat match goal with
         | |- context [set_nav _ ?W] =>
             tryif is_var W then fail else (generalize W; intro)
         end.

Ltac close2 Es :=
  abstract_worlds;
  cbn [Section2.currentState Section2.stateStartTime nav clock set_nav
       stateIndex2];
  rewrite ?Es; cbn [stateIndex2];
  split; [lia | intros; try lia; split; reflexivity].

Lemma processState2_index (m : Section2.Mission) (w : World) :
  let m' := eval (Section2.processState m) w in
  let w' := exec (Section2.processState m) w in
  (stateIndex2 (Section2.currentState m)
   <= stateIndex2 (Section2.currentState m'))%nat
  /\ ((stateIndex2 (Section2.currentState m)
       < stateIndex2 (Section2.currentState m'))%nat ->
      Section2.stateStartTime m' = clock w'
      /\ nav w' = mkNavState 1 0 (clock w')).
Proof.
  cbv zeta. unfold Section2.processState, Section2.afterTimeout.
  destruct (Section2.currentState m) eqn:Es;
    try destruct (detectedColor (Section2.sensors m)) eqn:Ec;
    run2; close2 Es.
Qed.

Lemma processState2_rings (m : Section2.Mission) (w : World) :
  isRingState (Section2.currentState m) = true ->
  Section2.currentState (eval (Section2.processState m) w)
  <> Section2.currentState m ->
  ringBoundary (Section2.sensors m)
  /\ ringState (detectedColor (Section2.sensors m))
     = Some (Section2.currentState (eval (Section2.processState m) w)).
Proof.
  unfold Section2.processState.
  destruct (Section2.currentState m) eqn:Es; try discriminate; intros _.
  - rewrite eval_bind.
    destruct (NavResult_eq_dec _ NAV_TARGET_FOUND) as [e|e];
      [|rewrite eval_ret, Es; intros Hn; exfalso; apply Hn; reflexivity].
    apply navigateToCenter_found_iff in e.
    destruct (detectedColor (Section2.sensors m)) eqn:Ec;
      rewrite ?eval_ret, ?eval_transitionTo2, ?Es;
      cbn [Section2.currentState ringState]; intros Hn;
      try (exfalso; apply Hn; reflexivity);
      (split; [exact e | reflexivity]).
  - rewrite eval_bind.
    destruct (NavResult_eq_dec _ NAV_TARGET_FOUND) as [e|e];
      [|rewrite eval_ret, Es; intros Hn; exfalso; apply Hn; reflexivity].
    apply navigateToCenter_found_iff in e.
    destruct (detectedColor (Section2.sensors m)) eqn:Ec;
      rewrite ?eval_ret, ?eval_transitionTo2, ?Es;
      cbn [Section2.currentState ringState]; intros Hn;
      try (exfalso; apply Hn; reflexivity);
      (split; [exact e | reflexivity]).
  - rewrite eval_bind.
    destruct (NavResult_eq_dec _ NAV_TARGET_FOUND) as [e|e];
      [|cbn [andb]; rewrite eval_ret, Es; intros Hn; exfalso; apply Hn; reflexivity].
    apply navigateToCenter_found_iff in e. cbn [andb].
    destruct (Color_eqb (detectedColor (Section2.sensors m)) COLOR_BLACK)
      eqn:Eb.
    + apply Color_eqb_eq in Eb. rewrite Eb, eval_transitionTo2.
      intros _. split; [exact e | reflexivity].
    + rewrite eval_ret, Es. intros Hn. exfalso. apply Hn. reflexivity.
Qed.

Lemma eval_loop2 (env : Env) (m : Section2.Mission) (w : World) :
  eval (Section2.loop env m) w
  = if Section2.halted m then m
    else eval (Section2.processState
                 (Section2.set_sensors
                    (eval (Sensors.readAll env (Section2.sensors m)) w) m))
           (exec (Sensors.readAll env (Section2.sensors m)) w).
Proof.
  unfold Section2.loop. destruct (Section2.halted m); [reflexivity|].
  rewrite eval_bind, eval_bind. split_if; reflexivity.
Qed.

Lemma eval_run2_succ (env : Env) (n : nat) (m : Section2.Mission) (w : World) :
  eval (Section2.run env (S n) m) w
  = eval (Section2.run env n (eval (Section2.loop env m) w))
         (exec (Section2.loop env m) w).
Proof. cbn [Section2.run]. apply eval_bind. Qed.

Lemma run2_index (env : Env) (n : nat) :
  forall (m : Section2.Mission) (w : World),
    (stateIndex2 (Section2.currentState m)
     <= stateIndex2 (Section2.currentState (eval (Section2.run env n m) w)))%nat.
Proof.
  induction n as [|n IH]; intros m w.
  - apply Nat.le_refl.
  - rewrite eval_run2_succ.
    eapply Nat.le_trans; [|apply IH].
    rewrite eval_loop2. destruct (Section2.halted m); [apply Nat.le_refl|].
    apply (proj1 (processState2_index
                    (Section2.set_sensors
                       (eval (Sensors.readAll env (Section2.sensors m)) w) m)
                    (exec (Sensors.readAll env (Section2.sensors m)) w))).
Qed.

(** X18. Section 2 never goes back.  A pass of [processState] leaves the
    state where it is or moves it forward in the enumeration, and a move
    stamps the start time with the clock and resets the search state.  The
    three ring states (NAV_BLUE, NAV_RED, NAV_GREEN) are left only on a ring
    boundary of the snapshot, for the state of the colour now seen, which
    lies further in: a colour of an outer ring never sends the robot back.
    Over any number of loop passes the state index does not decrease, so
    STATE_COMPLETE is never left. *)
Theorem section2_never_goes_back (env : Env) (n : nat) (m : Section2.Mission)
    (w : World) :
  let m1 := eval (Section2.processState m) w in
  let w1 := exec (Section2.processState m) w in
  let m' := eval (Section2.run env n m) w in
  (stateIndex2 (Section2.currentState m)
   <= stateIndex2 (Section2.currentState m1))%nat
  /\ ((stateIndex2 (Section2.currentState m)
       < stateIndex2 (Section2.currentState m1))%nat ->
      Section2.stateStartTime m1 = clock w1
      /\ nav w1 = mkNavState 1 0 (clock w1))
  /\ (isRingState (Section2.currentState m) = true ->
      Section2.currentState m1 <> Section2.currentState m ->
      ringBoundary (Section2.sensors m)
      /\ ringState (detectedColor (Section2.sensors m))
         = Some (Section2.currentState m1)
      /\ (stateIndex2 (Section2.currentState m)
          < stateIndex2 (Section2.currentState m1))%nat)
  /\ (stateIndex2 (Section2.currentState m)
      <= stateIndex2 (Section2.currentState m'))%nat
  /\ (Section2.currentState m = Section2.STATE_COMPLETE ->
      Section2.currentState m' = Section2.STATE_COMPLETE).
Proof.
  cbv zeta.
  destruct (processState2_index m w) as (Hi & Hs). cbv zeta in Hi, Hs.
  pose proof (run2_index env n m w) as Hr.
  split; [exact Hi|]. split; [exact Hs|]. split; [|split; [exact Hr|]].
  - intros Hring Hne.
    destruct (processState2_rings m w Hring Hne) as (Hb & Hc).
    split; [exact Hb|]. split; [exact Hc|].
    destruct (Nat.eq_dec (stateIndex2 (Section2.currentState m))
                (stateIndex2 (Section2.currentState
                                (eval (Section2.processState m) w))))
      as [E|E]; [|lia].
    exfalso. apply Hne.
    destruct (Section2.currentState m),
      (Section2.currentState (eval (Section2.processState m) w));
      try discriminate E; reflexivity.
  - intros Hc. rewrite Hc in Hr. cbn [stateIndex2] in Hr.
    destruct (Section2.currentState (eval (Section2.run env n m) w));
      cbn [stateIndex2] in Hr; try lia. reflexivity.
Qed.

(** ** Section 2: the way back *)

Lemma readAll_driveLog (env : Env) (data : SensorData) (w : World) :
  driveLog (exec (Sensors.readAll env data) w) = driveLog w.
Proof. reflexivity. Qed.

Lemma exec_loop2 (env : Env) (m : Section2.Mission) (w : World) :
  Section2.halted m = false ->
  let w1 := exec (Sensors.readAll env (Section2.sensors m)) w in
  let m1 := Section2.set_sensors
              (eval (Sensors.readAll env (Section2.sensors m)) w) m in
  exec (Section2.loop env m) w
  = if Section2.halted (eval (Section2.processState m1) w1)
    then exec (Section2.processState m1) w1
    else exec (delay TIME_LOOP_DELAY) (exec (Section2.processState m1) w1).
Proof.
  intros Hh. cbv zeta. unfold Section2.loop. rewrite Hh, exec_bind, exec_bind.
  split_if; [reflexivity|]. rewrite exec_bind. reflexivity.
Qed.

Lemma afterTimeout_run (limit : Z) (next : Section2.State)
    (m : Section2.Mission) (w : World) :
  Section2.afterTimeout limit next m w
  = if wrap_uint32 (clock w - Section2.stateStartTime m) >? limit
    then (Section2.mkMission next (Section2.sensors m) (clock w)
            (Section2.halted m),
          set_nav (mkNavState 1 0 (clock w)) (exec Motors.stop w))
    else (m, w).
Proof.
  unfold Section2.afterTimeout, bind, millis, gets.
  destruct (_ >? limit); reflexivity.
Qed.

(** A pass of [processState] in STATE_RETURN_RAMP: the half turn and
    the forward command come first, whatever the clock says. *)
Lemma processState2_returnRamp (m : Section2.Mission) (w : World) :
  Section2.currentState m = Section2.STATE_RETURN_RAMP ->
  let e := wrap_uint32 (wrap_uint32 (clock w + 1050) - Section2.stateStartTime m) in
  let m' := eval (Section2.processState m) w in
  let w' := exec (Section2.processState m) w in
  clock w' = wrap_uint32 (clock w + 1050)
  /\ Section2.halted m' = Section2.halted m
  /\ (e > 4000 ->
      Section2.currentState m' = Section2.STATE_TO_REUPLOAD
      /\ driveLog w' = driveLog w ++ returnRampPass ++ [Stop])
  /\ (e <= 4000 ->
      m' = m /\ driveLog w' = driveLog w ++ returnRampPass).
Proof.
  intros Hs. cbv zeta.
  unfold Section2.processState. rewrite Hs.
  rewrite !eval_seq, !exec_seq.
  assert (Hc : clock (exec (Motors.forward SPEED_NORMAL)
                        (exec (Navigation.turn 180 SPEED_TURN) w))
               = wrap_uint32 (clock w + 1050)).
  { unfold Motors.forward. rewrite clock_issue, turn_clock.
    change (wrap_uint16 (Z.quot (Z.abs 180 * TIME_TURN_90) 90)) with 1000.
    f_equal. lia. }
  assert (Hl : driveLog (exec (Motors.forward SPEED_NORMAL)
                           (exec (Navigation.turn 180 SPEED_TURN) w))
               = driveLog w ++ returnRampPass).
  { unfold Motors.forward. rewrite driveLog_issue, driveLog_turn.
    rewrite <- app_assoc. reflexivity. }
  revert Hc Hl.
  generalize (exec (Motors.forward SPEED_NORMAL)
                (exec (Navigation.turn 180 SPEED_TURN) w)).
  intros W Hc Hl. unfold eval, exec. rewrite afterTimeout_run, Hc.
  destruct (Z.gtb_spec
              (wrap_uint32 (wrap_uint32 (clock w + 1050)
                            - Section2.stateStartTime m)) 4000) as [Hgt|Hle];
    cbn [fst snd Section2.halted Section2.currentState].
  - change (clock (set_nav ?n ?x)) with (clock x).
    change (driveLog (set_nav ?n ?x)) with (driveLog x).
    unfold Motors.stop.
    change (snd (Motors.issue Stop W)) with (exec (Motors.issue Stop) W).
    rewrite clock_issue, driveLog_issue, Hc, Hl, <- app_assoc.
    repeat split; try reflexivity; intros; lia.
  - rewrite Hc, Hl.
    repeat split; try reflexivity; intros; lia.
Qed.

Lemma loop2_returnRamp (env : Env) (m : Section2.Mission) (w : World) (e : Z) :
  Section2.currentState m = Section2.STATE_RETURN_RAMP ->
  Section2.halted m = false ->
  wrap_uint32 (clock w - Section2.stateStartTime m) = e ->
  e + 1130 < 4294967296 ->
  let m' := eval (Section2.loop env m) w in
  let w' := exec (Section2.loop env m) w in
  (e + 1080 > 4000 ->
   Section2.currentState m' = Section2.STATE_TO_REUPLOAD
   /\ driveLog w' = driveLog w ++ returnRampPass ++ [Stop]
   /\ Section2.halted m' = false)
  /\ (e + 1080 <= 4000 ->
      Section2.currentState m' = Section2.STATE_RETURN_RAMP
      /\ Section2.halted m' = false
      /\ wrap_uint32 (clock w' - Section2.stateStartTime m') = e + 1130
      /\ driveLog w' = driveLog w ++ returnRampPass).
Proof.
  intros Hs Hh He Hlt. cbv zeta.
  pose proof (wrap_uint32_range (clock w - Section2.stateStartTime m)) as Hr.
  rewrite eval_loop2, (exec_loop2 env m w Hh), Hh. cbv zeta.
  pose proof (readAll_clock env (Section2.sensors m) w) as Hc0.
  pose proof (readAll_driveLog env (Section2.sensors m) w) as Hl0.
  revert Hc0 Hl0.
  generalize (exec (Sensors.readAll env (Section2.sensors m)) w).
  generalize (eval (Sensors.readAll env (Section2.sensors m)) w).
  intros data W Hc0 Hl0.
  assert (Hs1 : Section2.currentState (Section2.set_sensors data m)
                = Section2.STATE_RETURN_RAMP) by exact Hs.
  destruct (processState2_returnRamp (Section2.set_sensors data m) W Hs1)
    as (Hc & Hh' & Hgo & Hstay).
  cbv zeta in Hc, Hh', Hgo, Hstay.
  change (Section2.stateStartTime (Section2.set_sensors data m))
    with (Section2.stateStartTime m) in Hgo, Hstay.
  change (Section2.halted (Section2.set_sensors data m))
    with (Section2.halted m) in Hh'.
  rewrite Hh in Hh'. rewrite Hh'. cbv iota.
  assert (E1 : wrap_uint32 (wrap_uint32 (clock W + 1050)
                            - Section2.stateStartTime m) = e + 1080).
  { rewrite Hc0.
    repeat (rewrite wrap_uint32_add || rewrite <- Z.add_assoc).
    change (10 + (10 + (10 + 1050))) with 1080.
    apply elapsed_after_delay; [exact He | lia | lia]. }
  rewrite E1 in Hgo, Hstay.
  split.
  - intros Hgt. destruct (Hgo Hgt) as (Hst & Hl).
    split; [exact Hst|]. split; [|reflexivity].
    rewrite driveLog_delay, Hl, Hl0. reflexivity.
  - intros Hle. destruct (Hstay Hle) as (Hm & Hl).
    rewrite Hm. split; [exact Hs|]. split; [reflexivity|].
    split; [|rewrite driveLog_delay, Hl, Hl0; reflexivity].
    change (Section2.stateStartTime (Section2.set_sensors data m))
      with (Section2.stateStartTime m).
    rewrite clock_delay, Hc, Hc0.
    repeat (rewrite wrap_uint32_add || rewrite <- Z.add_assoc).
    change (10 + (10 + (10 + (1050 + TIME_LOOP_DELAY)))) with 1130.
    apply elapsed_after_delay; [exact He | lia | lia].
Qed.

Lemma exec_run2_succ (env : Env) (n : nat) (m : Section2.Mission) (w : World) :
  exec (Section2.run env (S n) m) w
  = exec (Section2.run env n (eval (Section2.loop env m) w))
         (exec (Section2.loop env m) w).
Proof. cbn [Section2.run]. apply exec_bind. Qed.

Lemma run2_snoc (env : Env) (n : nat) :
  forall (m : Section2.Mission) (w : World),
    Section2.run env (n + 1) m w
    = Section2.loop env (eval (Section2.run env n m) w)
        (exec (Section2.run env n m) w).
Proof.
  induction n as [|n IH]; intros m w.
  - cbn [Nat.add Section2.run]. unfold bind, ret, eval, exec. cbn [fst snd].
    destruct (Section2.loop env m w); reflexivity.
  - cbn [Nat.add]. rewrite eval_run2_succ, exec_run2_succ, <- IH.
    cbn [Section2.run]. rewrite bind_run. reflexivity.
Qed.

(** While the timeout of STATE_RETURN_RAMP has not fired every pass
    stays, and issues the half turn and the forward command again. *)
Lemma run2_returnRamp_stays (env : Env) (k : nat) :
  forall (m : Section2.Mission) (w : World) (e : Z),
    Section2.currentState m = Section2.STATE_RETURN_RAMP ->
    Section2.halted m = false ->
    wrap_uint32 (clock w - Section2.stateStartTime m) = e ->
    e + 1130 * Z.of_nat k <= 4050 ->
    let m' := eval (Section2.run env k m) w in
    let w' := exec (Section2.run env k m) w in
    Section2.currentState m' = Section2.STATE_RETURN_RAMP
    /\ Section2.halted m' = false
    /\ wrap_uint32 (clock w' - Section2.stateStartTime m')
       = e + 1130 * Z.of_nat k
    /\ driveLog w' = driveLog w ++ concat (repeat returnRampPass k).
Proof.
  induction k as [|k IH]; intros m w e Hs Hh He Hk; cbv zeta.
  - cbn [Section2.run repeat concat]. rewrite eval_ret, exec_ret, app_nil_r.
    rewrite He. repeat split; try assumption. lia.
  - rewrite Nat2Z.inj_succ in Hk.
    pose proof (wrap_uint32_range (clock w - Section2.stateStartTime m)) as Hr.
    rewrite He in Hr.
    destruct (loop2_returnRamp env m w e Hs Hh He ltac:(lia)) as (_ & Hstay).
    cbv zeta in Hstay.
    destruct (Hstay ltac:(lia)) as (Hs1 & Hh1 & He1 & Hl1).
    rewrite eval_run2_succ, exec_run2_succ.
    destruct (IH _ _ _ Hs1 Hh1 He1 ltac:(lia)) as (Hs2 & Hh2 & He2 & Hl2).
    cbv zeta in Hs2, Hh2, He2, Hl2.
    split; [exact Hs2|]. split; [exact Hh2|]. split.
    + rewrite He2, Nat2Z.inj_succ. lia.
    + rewrite Hl2, Hl1. cbn [repeat concat]. rewrite <- !app_assoc.
      reflexivity.
Qed.

(** X19. STATE_RETURN_RAMP makes its half turn on every loop pass, not
    once on entry.  From an entry at most 660 ms old (50 ms after a
    transition) the state lasts exactly four passes: the first three stay,
    the fourth finds more than 4000 ms elapsed and moves to
    STATE_TO_REUPLOAD; each of the four issues a pivot to the right of
    180 degrees, its stop and a forward command, so four half turns are
    made in all before the robot is stopped. *)
Theorem returnRamp_turns_on_every_pass (env : Env) (m : Section2.Mission)
    (w : World) :
  Section2.currentState m = Section2.STATE_RETURN_RAMP ->
  Section2.halted m = false ->
  wrap_uint32 (clock w - Section2.stateStartTime m) <= 660 ->
  (forall k : nat, (k <= 3)%nat ->
     Section2.currentState (eval (Section2.run env k m) w)
     = Section2.STATE_RETURN_RAMP)
  /\ Section2.currentState (eval (Section2.run env 4 m) w)
     = Section2.STATE_TO_REUPLOAD
  /\ issuedBy (Section2.run env 4 m) w
     = concat (repeat returnRampPass 4) ++ [Stop]
  /\ filter isPivot (issuedBy (Section2.run env 4 m) w)
     = repeat (TurnRight SPEED_TURN) 4.
Proof.
  intros Hs Hh He.
  pose proof (wrap_uint32_range (clock w - Section2.stateStartTime m)) as Hr.
  assert (Hleave :
            Section2.currentState (eval (Section2.run env 4 m) w)
            = Section2.STATE_TO_REUPLOAD
            /\ issuedBy (Section2.run env 4 m) w
               = concat (repeat returnRampPass 4) ++ [Stop]).
  { destruct (run2_returnRamp_stays env 3 m w _ Hs Hh eq_refl ltac:(lia))
      as (Hs3 & Hh3 & He3 & Hl3). cbv zeta in Hs3, Hh3, He3, Hl3.
    destruct (loop2_returnRamp env _ _ _ Hs3 Hh3 He3 ltac:(lia)) as (Hgo & _).
    cbv zeta in Hgo. destruct (Hgo ltac:(lia)) as (Hs4 & Hl4 & _).
    unfold eval, exec in Hs4, Hl4.
    change 4%nat with (3 + 1)%nat. unfold issuedBy, eval, exec.
    rewrite run2_snoc. unfold eval, exec. rewrite Hs4, Hl4.
    split; [reflexivity|].
    unfold exec in Hl3. rewrite Hl3, <- app_assoc, skipn_app_exact.
    reflexivity. }
  split; [|split; [exact (proj1 Hleave)|split; [exact (proj2 Hleave)|]]].
  - intros k Hk.
    apply (run2_returnRamp_stays env k m w _ Hs Hh eq_refl). lia.
  - rewrite (proj2 Hleave). reflexivity.
Qed.

Lemma returnRamp_turns_on_every_pass_example :
  Section2.currentState
    (eval (Section2.run envSilent 3 (mission2In Section2.STATE_RETURN_RAMP))
       world0)
  = Section2.STATE_RETURN_RAMP
  /\ Section2.currentState
       (eval (Section2.run envSilent 4 (mission2In Section2.STATE_RETURN_RAMP))
          world0)
     = Section2.STATE_TO_REUPLOAD.
Proof.
  destruct (returnRamp_turns_on_every_pass envSilent
              (mission2In Section2.STATE_RETURN_RAMP) world0
              eq_refl eq_refl ltac:(cbn; lia)) as (H3 & H4 & _).
  split; [apply H3; lia | exact H4].
Defined.

(** ** Section 2: from the centre to the end *)

Lemma run2_add (env : Env) (a b : nat) :
  forall (m : Section2.Mission) (w : World),
    Section2.run env (a + b) m w
    = Section2.run env b (eval (Section2.run env a m) w)
        (exec (Section2.run env a m) w).
Proof.
  induction a as [|a IH]; intros m w.
  - reflexivity.
  - cbn [Nat.add]. rewrite eval_run2_succ, exec_run2_succ, <- IH.
    cbn [Section2.run]. rewrite bind_run. reflexivity.
Qed.

Lemma reaches2_trans (env : Env) (a b : nat) (m m1 m2 : Section2.Mission)
    (w w1 w2 : World) :
  reaches2 env a m w m1 w1 -> reaches2 env b m1 w1 m2 w2 ->
  reaches2 env (a + b) m w m2 w2.
Proof.
  unfold reaches2. intros Ha Hb. rewrite run2_add. unfold eval, exec.
  rewrite Ha. exact Hb.
Qed.

Lemma reaches2_one (env : Env) (m : Section2.Mission) (w : World) :
  reaches2 env 1 m w (eval (Section2.loop env m) w)
    (exec (Section2.loop env m) w).
Proof.
  unfold reaches2. cbn [Section2.run]. unfold bind, ret, eval, exec.
  destruct (Section2.loop env m w); reflexivity.
Qed.

Lemma elapsed_loop_delay (t : Z) :
  wrap_uint32 (wrap_uint32 (t + TIME_LOOP_DELAY) - t) = TIME_LOOP_DELAY.
Proof. rewrite wrap_uint32_elapsed, Z.sub_diag. reflexivity. Qed.

Lemma pair_eval_exec {A : Type} (c : M A) (w : World) (a : A) (w' : World) :
  c w = (a, w') -> eval c w = a /\ exec c w = w'.
Proof. intros E. unfold eval, exec. rewrite E. split; reflexivity. Qed.

(** A pass whose case ends with a transition enters the next state. *)
Lemma loop2_enters (env : Env) (m : Section2.Mission) (w : World)
    (next : Section2.State) (X : World) :
  Section2.halted m = false ->
  Section2.processState
    (Section2.set_sensors (eval (Sensors.readAll env (Section2.sensors m)) w) m)
    (exec (Sensors.readAll env (Section2.sensors m)) w)
  = (Section2.mkMission next
       (eval (Sensors.readAll env (Section2.sensors m)) w) (clock X)
       (Section2.halted m),
     set_nav (mkNavState 1 0 (clock X)) X) ->
  Section2.currentState (eval (Section2.loop env m) w) = next
  /\ entered2 (eval (Section2.loop env m) w) (exec (Section2.loop env m) w).
Proof.
  intros Hh E. rewrite eval_loop2, (exec_loop2 env m w Hh), Hh. cbv zeta.
  destruct (pair_eval_exec _ _ _ _ E) as [Ee Ex].
  rewrite Ee, Ex.
  cbn [Section2.halted Section2.currentState]. rewrite Hh.
  split; [reflexivity|]. split; [reflexivity|].
  cbn [Section2.stateStartTime]. rewrite clock_delay.
  change (clock (set_nav ?n ?x)) with (clock x).
  apply elapsed_loop_delay.
Qed.

Lemma processState2_transits (s next : Section2.State) (m : Section2.Mission)
    (W : World) :
  Section2.currentState m = s ->
  (s = Section2.STATE_REACH_CENTER /\ next = Section2.STATE_FIND_BALL)
  \/ (s = Section2.STATE_SHOOT /\ next = Section2.STATE_RETURN_RAMP)
  \/ (s = Section2.STATE_TO_REUPLOAD /\ next = Section2.STATE_COMPLETE) ->
  exists X : World,
    Section2.processState m W
    = (Section2.mkMission next (Section2.sensors m) (clock X)
         (Section2.halted m),
       set_nav (mkNavState 1 0 (clock X)) X).
Proof.
  intros Hs [[-> ->] | [[-> ->] | [-> ->]]];
    unfold Section2.processState; rewrite Hs; eexists;
    rewrite !bind_run, transitionTo2_run; reflexivity.
Qed.

Lemma loop2_transits (env : Env) (s next : Section2.State)
    (m : Section2.Mission) (w : World) :
  Section2.currentState m = s ->
  Section2.halted m = false ->
  (s = Section2.STATE_REACH_CENTER /\ next = Section2.STATE_FIND_BALL)
  \/ (s = Section2.STATE_SHOOT /\ next = Section2.STATE_RETURN_RAMP)
  \/ (s = Section2.STATE_TO_REUPLOAD /\ next = Section2.STATE_COMPLETE) ->
  Section2.currentState (eval (Section2.loop env m) w) = next
  /\ entered2 (eval (Section2.loop env m) w) (exec (Section2.loop env m) w).
Proof.
  intros Hs Hh Hcase.
  destruct (processState2_transits s next
              (Section2.set_sensors
                 (eval (Sensors.readAll env (Section2.sensors m)) w) m)
              (exec (Sensors.readAll env (Section2.sensors m)) w)
              Hs Hcase) as (X & E).
  apply (loop2_enters env m w next X Hh). exact E.
Qed.

(** A pass in STATE_FIND_BALL: the ball is seen or the timeout has
    fired, and the mission enters STATE_SHOOT; or 280 ms more have passed
    in the state. *)
Lemma loop2_findBall (env : Env) (m : Section2.Mission) (w : World) (e : Z) :
  Section2.currentState m = Section2.STATE_FIND_BALL ->
  Section2.halted m = false ->
  wrap_uint32 (clock w - Section2.stateStartTime m) = e ->
  e + 280 < 4294967296 ->
  let m' := eval (Section2.loop env m) w in
  let w' := exec (Section2.loop env m) w in
  (Section2.currentState m' = Section2.STATE_SHOOT /\ entered2 m' w')
  \/ (e + 230 <= TIMEOUT_SEARCH
      /\ Section2.currentState m' = Section2.STATE_FIND_BALL
      /\ Section2.halted m' = false
      /\ wrap_uint32 (clock w' - Section2.stateStartTime m') = e + 280).
Proof.
  intros Hs Hh He Hlt. cbv zeta.
  pose proof (wrap_uint32_range (clock w - Section2.stateStartTime m)) as Hr.
  rewrite He in Hr.
  pose proof (readAll_clock env (Section2.sensors m) w) as Hc0.
  assert (Hp : forall data W,
            Section2.processState (Section2.set_sensors data m) W
            = if Qltb (distance data) (inject_Z DIST_BALL_DETECT)
                 && Qltb 0 (distance data)
              then Section2.transitionTo Section2.STATE_SHOOT
                     (Section2.set_sensors data m) W
              else
                let X := exec (Motors.stop)
                           (exec (delay 200)
                              (exec (Motors.forward SPEED_SLOW) W)) in
                if wrap_uint32 (clock X - Section2.stateStartTime m)
                   >? TIMEOUT_SEARCH
                then Section2.transitionTo Section2.STATE_SHOOT
                       (Section2.set_sensors data m) X
                else (Section2.set_sensors data m, X)).
  { intros data W. unfold Section2.processState.
    change (Section2.currentState (Section2.set_sensors data m))
      with (Section2.currentState m). rewrite Hs.
    change (Section2.sensors (Section2.set_sensors data m)) with data.
    destruct (_ && _); [reflexivity|].
    rewrite !bind_run. cbv zeta.
    change (eval millis ?x) with (clock x).
    change (exec millis ?x) with x.
    change (Section2.stateStartTime (Section2.set_sensors data m))
      with (Section2.stateStartTime m).
    destruct (_ >? TIMEOUT_SEARCH); reflexivity. }
  specialize (Hp (eval (Sensors.readAll env (Section2.sensors m)) w)
                (exec (Sensors.readAll env (Section2.sensors m)) w)).
  destruct (_ && _).
  - left. eapply loop2_enters; [exact Hh|]. rewrite Hp, transitionTo2_run.
    reflexivity.
  - cbv zeta in Hp.
    assert (Hx : wrap_uint32
                   (clock (exec Motors.stop
                             (exec (delay 200)
                                (exec (Motors.forward SPEED_SLOW)
                                   (exec (Sensors.readAll env
                                            (Section2.sensors m)) w))))
                    - Section2.stateStartTime m) = e + 230).
    { unfold Motors.stop, Motors.forward.
      rewrite clock_issue, clock_delay, clock_issue, Hc0.
      repeat (rewrite wrap_uint32_add || rewrite <- Z.add_assoc).
      change (10 + (10 + (10 + 200))) with 230.
      apply elapsed_after_delay; [exact He | lia | lia]. }
    rewrite Hx in Hp.
    destruct (Z.gtb_spec (e + 230) TIMEOUT_SEARCH) as [Hgt|Hle].
    + left. eapply loop2_enters; [exact Hh|]. rewrite Hp, transitionTo2_run.
      reflexivity.
    + right. split; [exact Hle|].
      destruct (pair_eval_exec _ _ _ _ Hp) as [Ee Ex].
      rewrite eval_loop2, (exec_loop2 env m w Hh), Hh. cbv zeta.
      rewrite Ee, Ex.
      cbn [Section2.halted Section2.currentState Section2.set_sensors
           Section2.stateStartTime].
      rewrite Hh. split; [exact Hs|]. split; [reflexivity|].
      rewrite clock_delay.
      unfold Motors.stop, Motors.forward.
      rewrite clock_issue, clock_delay, clock_issue, Hc0.
      repeat (rewrite wrap_uint32_add || rewrite <- Z.add_assoc).
      change (10 + (10 + (10 + (200 + TIME_LOOP_DELAY)))) with 280.
      apply elapsed_after_delay; [exact He | lia | lia].
Qed.

Lemma run2_findBall (env : Env) (k : nat) :
  forall (m : Section2.Mission) (w : World) (e : Z),
    Section2.currentState m = Section2.STATE_FIND_BALL ->
    Section2.halted m = false ->
    wrap_uint32 (clock w - Section2.stateStartTime m) = e ->
    e + 230 + 280 * Z.of_nat k > TIMEOUT_SEARCH ->
    e + 280 * Z.of_nat (S k) < 4294967296 ->
    exists (j : nat) (m' : Section2.Mission) (w' : World),
      (1 <= j <= S k)%nat
      /\ reaches2 env j m w m' w'
      /\ Section2.currentState m' = Section2.STATE_SHOOT
      /\ entered2 m' w'.
Proof.
  induction k as [|k IH]; intros m w e Hs Hh He Hk Hlt;
    pose proof (wrap_uint32_range (clock w - Section2.stateStartTime m)) as Hr;
    rewrite He in Hr;
    destruct (loop2_findBall env m w e Hs Hh He ltac:(lia))
      as [(Hs1 & Hen) | (Hle & Hs1 & Hh1 & He1)]; cbv zeta in *.
  - exists 1%nat, (eval (Section2.loop env m) w),
      (exec (Section2.loop env m) w).
    split; [lia|]. split; [apply reaches2_one|]. split; assumption.
  - cbn in Hk. lia.
  - exists 1%nat, (eval (Section2.loop env m) w),
      (exec (Section2.loop env m) w).
    split; [lia|]. split; [apply reaches2_one|]. split; assumption.
  - destruct (IH _ _ _ Hs1 Hh1 He1) as (j & m' & w' & Hj & Hre & Hs' & Hen');
      [lia | lia |].
    exists (1 + j)%nat, m', w'.
    split; [lia|]. split; [|split; assumption].
    eapply reaches2_trans; [apply reaches2_one | exact Hre].
Qed.

Lemma run2_returnRamp_leaves (env : Env) (m : Section2.Mission) (w : World) :
  Section2.currentState m = Section2.STATE_RETURN_RAMP ->
  entered2 m w ->
  exists (m' : Section2.Mission) (w' : World),
    reaches2 env 4 m w m' w'
    /\ Section2.currentState m' = Section2.STATE_TO_REUPLOAD
    /\ Section2.halted m' = false.
Proof.
  intros Hs [Hh He].
  destruct (run2_returnRamp_stays env 3 m w _ Hs Hh He)
    as (Hs3 & Hh3 & He3 & _); [unfold TIME_LOOP_DELAY; cbn; lia|]. cbv zeta in Hs3, Hh3, He3.
  destruct (loop2_returnRamp env _ _ _ Hs3 Hh3 He3) as (Hgo & _);
    [unfold TIME_LOOP_DELAY; cbn; lia|].
  cbv zeta in Hgo. destruct Hgo as (Hs4 & _ & Hh4); [unfold TIME_LOOP_DELAY; cbn; lia|].
  eexists _, _. split; [|split; [exact Hs4 | exact Hh4]].
  change 4%nat with (3 + 1)%nat.
  eapply reaches2_trans; [|apply reaches2_one].
  unfold reaches2, eval, exec.
  destruct (Section2.run env 3 m w); reflexivity.
Qed.

(** X20. Once the centre of the target is reached section 2 runs to its
    end whatever the sensors report: from STATE_REACH_CENTER the mission is
    in STATE_COMPLETE after 18 loop passes at the latest (one to enter
    STATE_FIND_BALL, at most eleven until the ball is seen or the search
    times out, one to shoot, four on the way back, one to finish), and
    stays there. *)
Theorem section2_completes_from_center (env : Env) (m : Section2.Mission)
    (w : World) (n : nat) :
  Section2.currentState m = Section2.STATE_REACH_CENTER ->
  Section2.halted m = false ->
  (18 <= n)%nat ->
  Section2.currentState (eval (Section2.run env n m) w)
  = Section2.STATE_COMPLETE.
Proof.
  intros Hs Hh Hn.
  destruct (loop2_transits env _ Section2.STATE_FIND_BALL m w Hs Hh)
    as (Hs1 & Hh1 & He1); [left; split; reflexivity|].
  pose proof (reaches2_one env m w) as R1.
  destruct (run2_findBall env 10 _ _ _ Hs1 Hh1 He1)
    as (j & m2 & w2 & Hj & R2 & Hs2 & Hh2 & He2); [unfold TIME_LOOP_DELAY, TIMEOUT_SEARCH; cbn; lia
    | unfold TIME_LOOP_DELAY; cbn; lia |].
  destruct (loop2_transits env _ Section2.STATE_RETURN_RAMP m2 w2 Hs2 Hh2)
    as (Hs3 & Hen3); [right; left; split; reflexivity|].
  pose proof (reaches2_one env m2 w2) as R3.
  destruct (run2_returnRamp_leaves env _ _ Hs3 Hen3)
    as (m4 & w4 & R4 & Hs4 & Hh4).
  destruct (loop2_transits env _ Section2.STATE_COMPLETE m4 w4 Hs4 Hh4)
    as (Hs5 & _); [right; right; split; reflexivity|].
  pose proof (reaches2_one env m4 w4) as R5.
  pose proof (reaches2_trans _ _ _ _ _ _ _ _ _
                (reaches2_trans _ _ _ _ _ _ _ _ _
                   (reaches2_trans _ _ _ _ _ _ _ _ _
                      (reaches2_trans _ _ _ _ _ _ _ _ _ R1 R2) R3) R4) R5)
    as R.
  unfold reaches2 in R.
  replace n with ((1 + j + 1 + 4 + 1) + (n - (1 + j + 1 + 4 + 1)))%nat by lia.
  unfold eval. rewrite run2_add. unfold eval, exec. rewrite R. cbn [fst snd].
  pose proof (run2_index env (n - (1 + j + 1 + 4 + 1))
                (eval (Section2.loop env m4) w4)
                (exec (Section2.loop env m4) w4)) as Hi.
  rewrite Hs5 in Hi. cbn [stateIndex2] in Hi. unfold eval at 1 in Hi.
  revert Hi.
  match goal with
  | |- _ -> Section2.currentState ?x = _ =>
      destruct (Section2.currentState x)
  end; cbn [stateIndex2]; intros Hi; try lia.
  reflexivity.
Qed.

Lemma section2_completes_from_center_example :
  Section2.currentState
    (eval (Section2.run envBox 18 (mission2In Section2.STATE_REACH_CENTER))
       world0)
  = Section2.STATE_COMPLETE.
Proof.
  apply (section2_completes_from_center envBox
           (mission2In Section2.STATE_REACH_CENTER) world0 18);
    [reflexivity | reflexivity | lia].
Defined.

(** ** Section 3: the detours *)

Lemma eval_transitionTo3 (s : Section3.State) (m : Section3.Mission)
    (w : World) :
  eval (Section3.transitionTo s m) w
  = Section3.mkMission s (Section3.sensors m) (clock w)
      (Section3.obstacleCount m) (Section3.halted m).
Proof. reflexivity. Qed.

Lemma eval_loop3 (env : Env) (scratch : SensorData) (m : Section3.Mission)
    (w : World) :
  eval (Section3.loop env scratch m) w
  = if Section3.halted m then m
    else eval (Section3.processState env scratch
                 (Section3.set_sensors
                    (eval (Sensors.readAll env (Section3.sensors m)) w) m))
           (exec (Sensors.readAll env (Section3.sensors m)) w).
Proof.
  unfold Section3.loop. destruct (Section3.halted m); [reflexivity|].
  rewrite eval_bind, eval_bind. split_if; reflexivity.
Qed.

Lemma eval_run3_succ (env : Env) (scratch : SensorData) (n : nat)
    (m : Section3.Mission) (w : World) :
  eval (Section3.run env scratch (S n) m) w
  = eval (Section3.run env scratch n (eval (Section3.loop env scratch m) w))
         (exec (Section3.loop env scratch m) w).
Proof. cbn [Section3.run]. apply eval_bind. Qed.

(** The four states of a detour are left after one pass, whatever the
    sensors and the line search report. *)
Lemma processState3_detour (env : Env) (scratch : SensorData)
    (m : Section3.Mission) (w : World) (next : Section3.State) :
  detourNext (Section3.currentState m) = Some next ->
  exists t : Z,
    eval (Section3.processState env scratch m) w
    = Section3.mkMission next (Section3.sensors m) t
        (Section3.obstacleCount m) (Section3.halted m).
Proof.
  unfold Section3.processState.
  destruct (Section3.currentState m); try discriminate;
    intros E; injection E as <-.
  - eexists. rewrite eval_seq, eval_transitionTo3. reflexivity.
  - rewrite !eval_seq, eval_bind.
    destruct (eval (Navigation.searchForLine env scratch COLOR_RED 1000) _);
      eexists; rewrite ?eval_seq, eval_transitionTo3; reflexivity.
  - eexists. rewrite eval_seq, eval_transitionTo3. reflexivity.
  - eexists. rewrite !eval_seq, eval_transitionTo3. reflexivity.
Qed.

Lemma loop3_detour (env : Env) (scratch : SensorData)
    (m : Section3.Mission) (w : World) (next : Section3.State) :
  detourNext (Section3.currentState m) = Some next ->
  Section3.halted m = false ->
  let m' := eval (Section3.loop env scratch m) w in
  Section3.currentState m' = next
  /\ Section3.obstacleCount m' = Section3.obstacleCount m
  /\ Section3.halted m' = false.
Proof.
  intros Hn Hh. cbv zeta. rewrite eval_loop3, Hh.
  destruct (processState3_detour env scratch
              (Section3.set_sensors
                 (eval (Sensors.readAll env (Section3.sensors m)) w) m)
              (exec (Sensors.readAll env (Section3.sensors m)) w) next Hn)
    as (t & E).
  rewrite E. cbn [Section3.currentState Section3.obstacleCount Section3.halted
                  Section3.set_sensors].
  repeat split. exact Hh.
Qed.

(** A pass in STATE_TO_OBSTACLES, by the echo it reads. *)
Lemma loop3_toObstacles (env : Env) (scratch : SensorData)
    (m : Section3.Mission) (w : World) :
  Section3.currentState m = Section3.STATE_TO_OBSTACLES ->
  Section3.halted m = false ->
  let duration := echoPulse env (echoReads w) in
  let m' := eval (Section3.loop env scratch m) w in
  let count' := wrap_uint8 (Section3.obstacleCount m + 1) in
  Section3.halted m' = false
  /\ (1 <= duration <= 882 ->
      Section3.obstacleCount m' = count'
      /\ Section3.currentState m'
         = if count' =? 1 then Section3.STATE_AVOID_OBS_1
           else Section3.STATE_AVOID_OBS_2)
  /\ (~ 1 <= duration <= 882 ->
      Section3.currentState m' = Section3.STATE_TO_OBSTACLES
      /\ Section3.obstacleCount m' = Section3.obstacleCount m).
Proof.
  intros Hs Hh. cbv zeta. rewrite eval_loop3, Hh.
  destruct (distanceOf_below (echoPulse env (echoReads w))) as (Hobs & _ & _).
  destruct (readAll_ultrasonic env (Section3.sensors m) w) as [Ed Eo].
  pose proof (obstacleOf_iff (Sensors.distanceOf (echoPulse env (echoReads w))))
    as Hiff.
  revert Ed Eo.
  generalize (exec (Sensors.readAll env (Section3.sensors m)) w).
  generalize (eval (Sensors.readAll env (Section3.sensors m)) w).
  intros data W Ed Eo.
  unfold Section3.processState.
  change (Section3.currentState (Section3.set_sensors data m))
    with (Section3.currentState m). rewrite Hs.
  change (Section3.sensors (Section3.set_sensors data m)) with data.
  rewrite eval_seq, Ed, Eo.
  assert (Hb : Sensors.obstacleOf
                 (Sensors.distanceOf (echoPulse env (echoReads w)))
               && Qltb (Sensors.distanceOf (echoPulse env (echoReads w)))
                    (inject_Z DIST_OBSTACLE)
               = Sensors.obstacleOf
                   (Sensors.distanceOf (echoPulse env (echoReads w)))).
  { unfold Sensors.obstacleOf. destruct (Qltb 0 _), (Qltb _ _); reflexivity. }
  rewrite Hb.
  destruct (Sensors.obstacleOf _) eqn:E1.
  - cbv zeta.
    change (Section3.obstacleCount
              (Section3.set_obstacleCount
                 (wrap_uint8
                    (Section3.obstacleCount (Section3.set_sensors data m) + 1))
                 (Section3.set_sensors data m)))
      with (wrap_uint8 (Section3.obstacleCount m + 1)).
    destruct (wrap_uint8 (Section3.obstacleCount m + 1) =? 1);
      rewrite eval_transitionTo3;
      cbn [Section3.halted Section3.currentState Section3.obstacleCount
           Section3.set_obstacleCount Section3.set_sensors];
      (split; [exact Hh|]); (split; [intros _; split; reflexivity|]);
      intros Hn; exfalso; apply Hn; apply Hobs; reflexivity.
  - rewrite eval_ret.
    cbn [Section3.halted Section3.currentState Section3.obstacleCount
         Section3.set_sensors].
    split; [exact Hh|]. split.
    + intros Hd. apply Hobs in Hd. discriminate Hd.
    + intros _. split; [exact Hs | reflexivity].
Qed.

(** X21. In section 3 a detour around an obstacle costs exactly three
    loop passes and one count.  In STATE_TO_OBSTACLES an echo between 1 and
    882 us (an obstacle closer than 15 cm) counts an obstacle and starts
    the detour: three passes later the mission is back in
    STATE_TO_OBSTACLES if it was the first obstacle, and in
    STATE_PASS_REUPLOAD for every later one, whatever the sensors and the
    line search report on the way; any other echo leaves the state and the
    count as they are. *)
Theorem section3_detour_three_passes (env : Env) (scratch : SensorData)
    (m : Section3.Mission) (w : World) :
  Section3.currentState m = Section3.STATE_TO_OBSTACLES ->
  Section3.halted m = false ->
  0 <= Section3.obstacleCount m < 255 ->
  let duration := echoPulse env (echoReads w) in
  let m1 := eval (Section3.loop env scratch m) w in
  let m3 := eval (Section3.run env scratch 3 m) w in
  (1 <= duration <= 882 ->
   Section3.obstacleCount m3 = Section3.obstacleCount m + 1
   /\ Section3.currentState m3
      = (if Section3.obstacleCount m =? 0 then Section3.STATE_TO_OBSTACLES
         else Section3.STATE_PASS_REUPLOAD)
   /\ Section3.halted m3 = false)
  /\ (~ 1 <= duration <= 882 ->
      Section3.currentState m1 = Section3.STATE_TO_OBSTACLES
      /\ Section3.obstacleCount m1 = Section3.obstacleCount m).
Proof.
  intros Hs Hh Hc. cbv zeta.
  destruct (loop3_toObstacles env scratch m w Hs Hh) as (Hh1 & Hgo & Hstay).
  cbv zeta in Hh1, Hgo, Hstay.
  split; [|exact Hstay].
  intros Hd. destruct (Hgo Hd) as (Hc1 & Hs1).
  assert (Hw : wrap_uint8 (Section3.obstacleCount m + 1)
               = Section3.obstacleCount m + 1).
  { unfold wrap_uint8. apply Z.mod_small. lia. }
  rewrite Hw in Hc1, Hs1.
  rewrite !eval_run3_succ.
  set (m1 := eval (Section3.loop env scratch m) w) in *.
  set (w1 := exec (Section3.loop env scratch m) w).
  set (m2 := eval (Section3.loop env scratch m1) w1).
  set (w2 := exec (Section3.loop env scratch m1) w1).
  cbn [Section3.run]. rewrite eval_ret.
  destruct (Z.eqb_spec (Section3.obstacleCount m) 0) as [E0|E0].
  - rewrite E0 in Hs1. cbn [Z.add Z.eqb] in Hs1.
    destruct (loop3_detour env scratch m1 w1 Section3.STATE_CLEAR_OBS_1)
      as (Hs2 & Hc2 & Hh2); [rewrite Hs1; reflexivity | exact Hh1 |].
    cbv zeta in Hs2, Hc2, Hh2. fold m2 in Hs2, Hc2, Hh2.
    destruct (loop3_detour env scratch m2 w2 Section3.STATE_TO_OBSTACLES)
      as (Hs3 & Hc3 & Hh3); [rewrite Hs2; reflexivity | exact Hh2 |].
    cbv zeta in Hs3, Hc3, Hh3.
    rewrite Hs3, Hc3, Hc2, Hc1, Hh3. repeat split.
  - assert (E1 : (Section3.obstacleCount m + 1 =? 1) = false)
      by (apply Z.eqb_neq; lia).
    rewrite E1 in Hs1.
    destruct (loop3_detour env scratch m1 w1 Section3.STATE_CLEAR_OBS_2)
      as (Hs2 & Hc2 & Hh2); [rewrite Hs1; reflexivity | exact Hh1 |].
    cbv zeta in Hs2, Hc2, Hh2. fold m2 in Hs2, Hc2, Hh2.
    destruct (loop3_detour env scratch m2 w2 Section3.STATE_PASS_REUPLOAD)
      as (Hs3 & Hc3 & Hh3); [rewrite Hs2; reflexivity | exact Hh2 |].
    cbv zeta in Hs3, Hc3, Hh3.
    rewrite Hs3, Hc3, Hc2, Hc1, Hh3. repeat split.
Qed.

Lemma section3_detour_three_passes_example :
  Section3.currentState
    (eval (Section3.run envBox data0 3
             (mission3In Section3.STATE_TO_OBSTACLES 0)) world0)
  = Section3.STATE_TO_OBSTACLES
  /\ Section3.currentState
       (eval (Section3.run envBox data0 3
                (mission3In Section3.STATE_TO_OBSTACLES 1)) world0)
     = Section3.STATE_PASS_REUPLOAD.
Proof.
  split.
  - apply (proj1 (section3_detour_three_passes envBox data0
                    (mission3In Section3.STATE_TO_OBSTACLES 0) world0
                    eq_refl eq_refl ltac:(cbn; lia))).
    cbn. lia.
  - apply (proj1 (section3_detour_three_passes envBox data0
                    (mission3In Section3.STATE_TO_OBSTACLES 1) world0
                    eq_refl eq_refl ltac:(cbn; lia))).
    cbn. lia.
Defined.

(** ** Section 3: the box decides *)

Lemma servos_followColorLine (data : SensorData) (T : Color) (w : World) :
  servos (exec (Navigation.followColorLine data T) w) = servos w.
Proof.
  unfold Navigation.followColorLine.
  destruct (obstacleDetected data); [reflexivity|].
  destruct (Color_eqb (detectedColor data) T); [reflexivity|].
  destruct (negb _ && negb _); [reflexivity|].
  rewrite !exec_seq, exec_bind.
  destruct (eval Navigation.getSearchCount _ >? 10); reflexivity.
Qed.

Lemma transitionTo3_run (s : Section3.State) (m : Section3.Mission) (w : World) :
  Section3.transitionTo s m w
  = (Section3.mkMission s (Section3.sensors m) (clock w)
       (Section3.obstacleCount m) (Section3.halted m),
     set_nav (mkNavState 1 0 (clock w)) w).
Proof. reflexivity. Qed.

(** X22. In STATE_FOLLOW_RED of section 3 the gripper decides what an
    obstacle means.  While nothing is held, the state is left only for
    STATE_APPROACH_BOX, on an obstacle closer than 15 cm (DIST_BOX_PICKUP +
    10).  While the box is held, an obstacle closer than 15 cm leads to
    STATE_TO_OBSTACLES, and BLUE after two counted obstacles leads to
    STATE_FIND_BLUE; the three tests run one after the other, so the blue
    zone wins when both apply. *)
Theorem followRed_box_decides (env : Env) (scratch : SensorData)
    (m : Section3.Mission) (w : World) :
  Section3.currentState m = Section3.STATE_FOLLOW_RED ->
  let near := obstacleDetected (Section3.sensors m)
              && Qltb (distance (Section3.sensors m))
                   (inject_Z (DIST_BOX_PICKUP + 10)) in
  let blocked := obstacleDetected (Section3.sensors m)
                 && Qltb (distance (Section3.sensors m))
                      (inject_Z DIST_OBSTACLE) in
  let blue := (Section3.obstacleCount m >=? 2)
              && Color_eqb (detectedColor (Section3.sensors m)) COLOR_BLUE in
  Section3.currentState (eval (Section3.processState env scratch m) w)
  = if holding (servos w) then
      if blue then Section3.STATE_FIND_BLUE
      else if blocked then Section3.STATE_TO_OBSTACLES
      else Section3.STATE_FOLLOW_RED
    else if near then Section3.STATE_APPROACH_BOX
    else Section3.STATE_FOLLOW_RED.
Proof.
  intros Hs. cbv zeta. unfold Section3.processState. rewrite Hs.
  rewrite eval_seq.
  pose proof (servos_followColorLine (Section3.sensors m) COLOR_RED w) as Hsv.
  revert Hsv.
  generalize (exec (Navigation.followColorLine (Section3.sensors m) COLOR_RED) w).
  intros W Hsv. rewrite <- Hsv.
  unfold eval, bind, Servos.isHolding, gets, ret. cbv beta iota.
  destruct (holding (servos W)) eqn:Hh;
    repeat first
      [ rewrite Hh
      | rewrite transitionTo3_run
      | progress cbn [negb andb fst snd servos set_nav Section3.obstacleCount
                      Section3.currentState]
      | split_if ];
    first [reflexivity | exact Hs].
Qed.

Lemma followRed_box_decides_example :
  Section3.currentState
    (eval (Section3.processState envSilent data0
             (Section3.mkMission Section3.STATE_FOLLOW_RED
                (snapshot COLOR_NONE COLOR_NONE (4 # 1) true false false)
                0 0 false))
       world0)
  = Section3.STATE_APPROACH_BOX.
Proof.
  exact (followRed_box_decides envSilent data0
           (Section3.mkMission Section3.STATE_FOLLOW_RED
              (snapshot COLOR_NONE COLOR_NONE (4 # 1) true false false)
              0 0 false)
           world0 eq_refl).
Defined.

(** ** Section 1: which waiting states have a forced exit *)

Lemma exec_loop (env : Env) (scratch : SensorData) (m : Section1.Mission)
    (w : World) :
  Section1.halted m = false ->
  let w1 := exec (Sensors.readAll env (Section1.sensors m)) w in
  let m1 := Section1.set_sensors
              (eval (Sensors.readAll env (Section1.sensors m)) w) m in
  exec (Section1.loop env scratch m) w
  = if Section1.halted (eval (Section1.processState env scratch m1) w1)
    then exec (Section1.processState env scratch m1) w1
    else exec (delay TIME_LOOP_DELAY)
           (exec (Section1.processState env scratch m1) w1).
Proof.
  intros Hh. cbv zeta. unfold Section1.loop. rewrite Hh, exec_bind, exec_bind.
  split_if; [reflexivity|]. rewrite exec_bind. reflexivity.
Qed.

Lemma complete_absorbing (env : Env) (scratch : SensorData) (n : nat)
    (m : Section1.Mission) (w : World) :
  Section1.currentState m = Section1.STATE_COMPLETE ->
  Section1.currentState (eval (Section1.run env scratch n m) w)
  = Section1.STATE_COMPLETE.
Proof.
  intros Hs. pose proof (proj1 (run_index env scratch n m w)) as Hi.
  rewrite Hs in Hi. cbn [stateIndex] in Hi. revert Hi.
  match goal with
  | |- _ -> Section1.currentState ?x = _ =>
      destruct (Section1.currentState x)
  end; cbn [stateIndex]; intros Hi; try lia.
  reflexivity.
Qed.

(** STATE_TO_REUPLOAD is left once its 3000 ms are over: at 80 ms a
    pass, [k + 1] passes are enough when the test of the first pass comes
    less than [80 k] ms too early. *)
Lemma run_toReupload_leaves (env : Env) (scratch : SensorData) (k : nat) :
  forall (m : Section1.Mission) (w : World) (e : Z) (n : nat),
    Section1.currentState m = Section1.STATE_TO_REUPLOAD ->
    Section1.halted m = false ->
    wrap_uint32 (clock w - Section1.stateStartTime m) = e ->
    e <= 4000 ->
    e + 30 + 80 * Z.of_nat k > 3000 ->
    (S k <= n)%nat ->
    Section1.currentState (eval (Section1.run env scratch n m) w)
    = Section1.STATE_COMPLETE.
Proof.
  induction k as [|k IH]; intros m w e n Hs Hh He Hle Hk Hn;
    (destruct n as [|n]; [lia|]); rewrite eval_run_succ;
    pose proof (wrap_uint32_range (clock w - Section1.stateStartTime m)) as Hr;
    rewrite He in Hr;
    destruct (loop_toReupload env scratch m w e Hs Hh He ltac:(lia))
      as (Hh1 & Hgo & Hstay); cbv zeta in Hh1, Hgo, Hstay.
  - apply complete_absorbing. apply Hgo. cbn in Hk. lia.
  - destruct (Z_gt_le_dec (e + 30) 3000) as [Hgt|Hlt].
    + apply complete_absorbing. apply Hgo. exact Hgt.
    + destruct (Hstay Hlt) as (Hs1 & Ht1 & He1).
      rewrite <- Ht1 in He1.
      apply (IH _ _ (e + 80) n Hs1 Hh1 He1); lia.
Qed.

Lemma processState_drop (env : Env) (scratch : SensorData)
    (m : Section1.Mission) (W : World) :
  Section1.currentState m = Section1.STATE_DROP ->
  exists X : World,
    Section1.processState env scratch m W
    = (Section1.set_stateStartTime (clock X)
         (Section1.set_currentState Section1.STATE_TO_REUPLOAD m),
       set_nav (mkNavState 1 0 (clock X)) X).
Proof.
  intros Hs. unfold Section1.processState. rewrite Hs. eexists.
  rewrite !bind_run, drop_not_holding. cbn [negb].
  rewrite transitionTo_run. reflexivity.
Qed.

(** The pass in STATE_DROP enters STATE_TO_REUPLOAD, and the next pass
    starts one loop delay later. *)
Lemma loop_drop (env : Env) (scratch : SensorData) (m : Section1.Mission)
    (w : World) :
  Section1.currentState m = Section1.STATE_DROP ->
  Section1.halted m = false ->
  let m' := eval (Section1.loop env scratch m) w in
  let w' := exec (Section1.loop env scratch m) w in
  Section1.currentState m' = Section1.STATE_TO_REUPLOAD
  /\ Section1.halted m' = false
  /\ wrap_uint32 (clock w' - Section1.stateStartTime m') = TIME_LOOP_DELAY.
Proof.
  intros Hs Hh. cbv zeta.
  rewrite eval_loop, (exec_loop env scratch m w Hh), Hh. cbv zeta.
  destruct (processState_drop env scratch
              (Section1.set_sensors
                 (eval (Sensors.readAll env (Section1.sensors m)) w) m)
              (exec (Sensors.readAll env (Section1.sensors m)) w) Hs)
    as (X & E).
  destruct (pair_eval_exec _ _ _ _ E) as [Ee Ex].
  rewrite Ee, Ex.
  cbn [Section1.halted Section1.currentState Section1.stateStartTime
       Section1.set_stateStartTime Section1.set_currentState
       Section1.set_sensors].
  rewrite Hh. split; [reflexivity|]. split; [reflexivity|].
  rewrite clock_delay.
  change (clock (set_nav ?n ?x)) with (clock x).
  apply elapsed_loop_delay.
Qed.

(** A state whose pass never moves is never left. *)
Lemma run_stuck (env : Env) (scratch : SensorData) (s : Section1.State) :
  (forall (m : Section1.Mission) (w : World),
      Section1.currentState m = s -> Section1.halted m = false ->
      Section1.currentState (eval (Section1.loop env scratch m) w) = s
      /\ Section1.halted (eval (Section1.loop env scratch m) w) = false) ->
  forall (n : nat) (m : Section1.Mission) (w : World),
    Section1.currentState m = s -> Section1.halted m = false ->
    Section1.currentState (eval (Section1.run env scratch n m) w) = s.
Proof.
  intros Hloop. induction n as [|n IH]; intros m w Hs Hh.
  - exact Hs.
  - rewrite eval_run_succ.
    destruct (Hloop m w Hs Hh) as (Hs1 & Hh1). apply IH; assumption.
Qed.

(** A pass whose handler returns the mission as it got it. *)
Lemma loop_unmoved (env : Env) (scratch : SensorData) (m : Section1.Mission)
    (w : World) :
  Section1.halted m = false ->
  eval (Section1.processState env scratch
          (Section1.set_sensors
             (eval (Sensors.readAll env (Section1.sensors m)) w) m))
    (exec (Sensors.readAll env (Section1.sensors m)) w)
  = Section1.set_sensors (eval (Sensors.readAll env (Section1.sensors m)) w) m ->
  Section1.currentState (eval (Section1.loop env scratch m) w)
  = Section1.currentState m
  /\ Section1.halted (eval (Section1.loop env scratch m) w) = false.
Proof.
  intros Hh E. rewrite eval_loop, Hh, E. split; [reflexivity | exact Hh].
Qed.

Lemma loop_followBlack_stays (env : Env) (scratch : SensorData)
    (m : Section1.Mission) (w : World) :
  ~ 1 <= echoPulse env (echoReads w) <= 882 ->
  Section1.currentState m = Section1.STATE_FOLLOW_BLACK ->
  Section1.halted m = false ->
  Section1.currentState (eval (Section1.loop env scratch m) w)
  = Section1.STATE_FOLLOW_BLACK
  /\ Section1.halted (eval (Section1.loop env scratch m) w) = false.
Proof.
  intros He Hs Hh. rewrite <- Hs. apply loop_unmoved; [exact Hh|].
  destruct (readAll_ultrasonic env (Section1.sensors m) w) as [_ Eo].
  assert (Hno : obstacleDetected
                  (eval (Sensors.readAll env (Section1.sensors m)) w) = false).
  { rewrite Eo. apply not_true_is_false. intros Hc. apply He.
    apply (proj1 (distanceOf_below _)). exact Hc. }
  revert Hno.
  generalize (exec (Sensors.readAll env (Section1.sensors m)) w).
  generalize (eval (Sensors.readAll env (Section1.sensors m)) w).
  intros data W Hno. unfold Section1.processState.
  change (Section1.currentState (Section1.set_sensors data m))
    with (Section1.currentState m). rewrite Hs, eval_bind.
  change (Section1.sensors (Section1.set_sensors data m)) with data.
  destruct (NavResult_eq_dec _ NAV_OBSTACLE) as [E|E].
  - apply followBlackLine_obstacle_iff in E. congruence.
  - reflexivity.
Qed.

Lemma loop_approachBox_stays (env : Env) (scratch : SensorData)
    (m : Section1.Mission) (w : World) :
  echoPulse env (echoReads w) = 0 \/ 294 < echoPulse env (echoReads w) ->
  Section1.currentState m = Section1.STATE_APPROACH_BOX ->
  Section1.halted m = false ->
  Section1.currentState (eval (Section1.loop env scratch m) w)
  = Section1.STATE_APPROACH_BOX
  /\ Section1.halted (eval (Section1.loop env scratch m) w) = false.
Proof.
  intros He Hs Hh. rewrite <- Hs. apply loop_unmoved; [exact Hh|].
  destruct (readAll_ultrasonic env (Section1.sensors m) w) as [Ed _].
  assert (Hfar : Qle_bool
                   (distance (eval (Sensors.readAll env (Section1.sensors m)) w))
                   (inject_Z DIST_BOX_PICKUP) = false).
  { rewrite Ed. apply not_true_is_false. intros Hc.
    apply (proj1 (proj2 (distanceOf_below _))) in Hc. lia. }
  revert Hfar.
  generalize (exec (Sensors.readAll env (Section1.sensors m)) w).
  generalize (eval (Sensors.readAll env (Section1.sensors m)) w).
  intros data W Hfar. unfold Section1.processState.
  change (Section1.currentState (Section1.set_sensors data m))
    with (Section1.currentState m). rewrite Hs.
  change (Section1.sensors (Section1.set_sensors data m)) with data.
  rewrite Hfar, eval_seq. reflexivity.
Qed.

Lemma loop_findIntersection_stays (env : Env) (scratch : SensorData)
    (m : Section1.Mission) (w : World) :
  colorAt env (colorReads w) <> COLOR_GREEN ->
  colorAt env (colorReads w) <> COLOR_RED ->
  Section1.currentState m = Section1.STATE_FIND_INTERSECTION ->
  Section1.halted m = false ->
  Section1.currentState (eval (Section1.loop env scratch m) w)
  = Section1.STATE_FIND_INTERSECTION
  /\ Section1.halted (eval (Section1.loop env scratch m) w) = false.
Proof.
  intros Hg Hr Hs Hh. rewrite <- Hs. apply loop_unmoved; [exact Hh|].
  pose proof (readAll_color env (Section1.sensors m) w) as Ec.
  rewrite <- Ec in Hg, Hr. clear Ec. revert Hg Hr.
  generalize (exec (Sensors.readAll env (Section1.sensors m)) w).
  generalize (eval (Sensors.readAll env (Section1.sensors m)) w).
  intros data W Hg Hr. unfold Section1.processState.
  change (Section1.currentState (Section1.set_sensors data m))
    with (Section1.currentState m). rewrite Hs.
  change (Section1.sensors (Section1.set_sensors data m)) with data.
  apply Color_eqb_neq in Hg. apply Color_eqb_neq in Hr.
  rewrite Hg, Hr, eval_seq. reflexivity.
Qed.

(** C6, as the code has it.  Of the states of section 1 that wait on a
    sensor, two are left whatever the sensors report.
    STATE_SELECT_GREEN counts its attempts and is left after five loop
    passes at the latest.  STATE_TO_REUPLOAD tests the clock: its handler
    moves to STATE_COMPLETE exactly when it finds more than 3000 ms
    elapsed since the state was entered, so that, a pass pausing for 80 ms
    at least and the first one starting 50 ms after the entry, the state
    is left by the 38th pass after the entry, which is the 39th pass
    counted from STATE_DROP.  The four others have no forced exit:
    STATE_FOLLOW_BLACK without an echo of 1 to 882 us, STATE_APPROACH_BOX
    without an echo of 1 to 294 us, STATE_FIND_INTERSECTION without GREEN
    or RED and STATE_FOLLOW_GREEN without BLUE are never left, for any
    number of passes. *)
Theorem section1_forced_exits
    (env : Env) (scratch : SensorData) (m : Section1.Mission) (w : World) :
  Section1.halted m = false ->
  (Section1.currentState m = Section1.STATE_SELECT_GREEN ->
   0 <= Section1.searchAttempts m <= 4 ->
   (6 <= stateIndex
           (Section1.currentState (eval (Section1.run env scratch 5 m) w)))%nat)
  /\
  (Section1.currentState m = Section1.STATE_TO_REUPLOAD ->
   (wrap_uint32 (clock w - Section1.stateStartTime m) > 3000 ->
    Section1.currentState (eval (Section1.processState env scratch m) w)
    = Section1.STATE_COMPLETE)
   /\ (wrap_uint32 (clock w - Section1.stateStartTime m) <= 3000 ->
       Section1.currentState (eval (Section1.processState env scratch m) w)
       = Section1.STATE_TO_REUPLOAD)
   /\ (50 <= wrap_uint32 (clock w - Section1.stateStartTime m) <= 3000 ->
       forall n, (38 <= n)%nat ->
         Section1.currentState (eval (Section1.run env scratch n m) w)
         = Section1.STATE_COMPLETE))
  /\
  (Section1.currentState m = Section1.STATE_DROP ->
   Section1.currentState (eval (Section1.loop env scratch m) w)
   = Section1.STATE_TO_REUPLOAD
   /\ forall n, (39 <= n)%nat ->
        Section1.currentState (eval (Section1.run env scratch n m) w)
        = Section1.STATE_COMPLETE)
  /\
  (Section1.currentState m = Section1.STATE_FOLLOW_BLACK ->
   (forall i, ~ 1 <= echoPulse env i <= 882) ->
   forall n,
     Section1.currentState (eval (Section1.run env scratch n m) w)
     = Section1.STATE_FOLLOW_BLACK)
  /\
  (Section1.currentState m = Section1.STATE_APPROACH_BOX ->
   (forall i, echoPulse env i = 0 \/ 294 < echoPulse env i) ->
   forall n,
     Section1.currentState (eval (Section1.run env scratch n m) w)
     = Section1.STATE_APPROACH_BOX)
  /\
  (Section1.currentState m = Section1.STATE_FIND_INTERSECTION ->
   (forall i, colorAt env i <> COLOR_GREEN /\ colorAt env i <> COLOR_RED) ->
   forall n,
     Section1.currentState (eval (Section1.run env scratch n m) w)
     = Section1.STATE_FIND_INTERSECTION)
  /\
  (Section1.currentState m = Section1.STATE_FOLLOW_GREEN ->
   (forall i, colorAt env i <> COLOR_BLUE) ->
   forall n,
     Section1.currentState (eval (Section1.run env scratch n m) w)
     = Section1.STATE_FOLLOW_GREEN).
Proof.
  intros Hh.
  repeat match goal with |- _ /\ _ => split end.
  - intros Hs Ha.
    apply (run_selectGreen env scratch 4 m w Hs Hh); lia.
  - intros Hs. split; [|split].
    + intros Hgt. rewrite (processState_toReupload_eval env scratch m w Hs).
      destruct (Z.gtb_spec (wrap_uint32 (clock w - Section1.stateStartTime m))
                  3000); [reflexivity | lia].
    + intros Hle. rewrite (processState_toReupload_eval env scratch m w Hs).
      destruct (Z.gtb_spec (wrap_uint32 (clock w - Section1.stateStartTime m))
                  3000); [lia | exact Hs].
    + intros He n Hn.
      apply (run_toReupload_leaves env scratch 37 m w _ n Hs Hh eq_refl);
        [lia | cbn; lia | lia].
  - intros Hs.
    destruct (loop_drop env scratch m w Hs Hh) as (Hs1 & Hh1 & He1).
    cbv zeta in Hs1, Hh1, He1.
    split; [exact Hs1|]. intros n Hn.
    destruct n as [|n]; [lia|]. rewrite eval_run_succ.
    apply (run_toReupload_leaves env scratch 37 _ _ _ n Hs1 Hh1 He1);
      [unfold TIME_LOOP_DELAY; lia | unfold TIME_LOOP_DELAY; cbn; lia | lia].
  - intros Hs Henv n.
    apply (run_stuck env scratch Section1.STATE_FOLLOW_BLACK); try assumption.
    intros m0 w0. apply loop_followBlack_stays. apply Henv.
  - intros Hs Henv n.
    apply (run_stuck env scratch Section1.STATE_APPROACH_BOX); try assumption.
    intros m0 w0. apply loop_approachBox_stays. apply Henv.
  - intros Hs Henv n.
    apply (run_stuck env scratch Section1.STATE_FIND_INTERSECTION);
      try assumption.
    intros m0 w0. apply loop_findIntersection_stays; apply Henv.
  - intros Hs Hblue n.
    apply run_followGreen_stuck; assumption.
Qed.

Lemma section1_forced_exits_examples :
  Section1.currentState
    (eval (Section1.run envSilent data0 39 (missionIn Section1.STATE_DROP))
       world0)
  = Section1.STATE_COMPLETE
  /\ Section1.currentState
       (eval (Section1.run envSilent data0 39
                (missionIn Section1.STATE_FOLLOW_GREEN)) world0)
     = Section1.STATE_FOLLOW_GREEN
  /\ Section1.currentState
       (eval (Section1.run envSilent data0 39
                (missionIn Section1.STATE_FOLLOW_BLACK)) world0)
     = Section1.STATE_FOLLOW_BLACK.
Proof.
  pose proof (section1_forced_exits envSilent data0
                (missionIn Section1.STATE_DROP) world0 eq_refl)
    as (_ & _ & Hd & _).
  pose proof (section1_forced_exits envSilent data0
                (missionIn Section1.STATE_FOLLOW_GREEN) world0 eq_refl)
    as (_ & _ & _ & _ & _ & _ & Hg).
  pose proof (section1_forced_exits envSilent data0
                (missionIn Section1.STATE_FOLLOW_BLACK) world0 eq_refl)
    as (_ & _ & _ & Hb & _).
  split; [apply (proj2 (Hd eq_refl)); lia|].
  split.
  - apply (Hg eq_refl). intros i. discriminate.
  - apply (Hb eq_refl). intros i. cbn. lia.
Defined.
